(** * exa_spim_view: the live-acquisition core of the exa-SPIM operator console

    A shallow embedding of [src/exa_spim_view/exa_spim_view.py]:
    the category locks, the frame worker ([grab_frames]) and its napari
    driver, the session controller ([setup_live], [dismantle_live],
    [toggle_live_button], [disable_button]), the stage poller
    ([grab_stage_positions]), the presentation sink ([update_layer]), the
    capability scan ([scan_for_properties]) and the property bridge
    ([device_property_changed]).

    Hardware calls are recorded as events; what a call returns is read from
    the instrument record (a frame oracle per camera, a position per stage). *)

From Stdlib Require Import ZArith List Ascii String Lia.
From stdpp Require Import base option list sorting gmap strings pretty.

(** ** Category locks

    [create_device_widgets] ends with
    [setattr(self, f'{device_type}_lock', Lock())], once per device
    category; [self.camera_lock], [self.daq_lock], ... are those objects. *)

Inductive device_type :=
| laser | combiner | camera | tiling_stage | scanning_stage
| filter_wheel | daq | writer | transfer.

#[global] Instance device_type_eq_dec : EqDecision device_type.
Proof. solve_decision. Defined.

Inductive lock := LockOf (t : device_type).

#[global] Instance lock_eq_dec : EqDecision lock.
Proof. solve_decision. Defined.

Definition camera_lock : lock := LockOf camera.
Definition daq_lock : lock := LockOf daq.
Definition scanning_stage_lock : lock := LockOf scanning_stage.
Definition tiling_stage_lock : lock := LockOf tiling_stage.

(** ** Values exchanged with the hardware *)

(** A frame count: a Python int, or [float('inf')] (the default of
    [setup_live] and [grab_frames]). *)
Inductive count := Finite (n : Z) | Infinity.

#[global] Instance count_eq_dec : EqDecision count.
Proof. solve_decision. Defined.

(** [i < frames] for an int [i]. *)
Definition lt_count (i : Z) (frames : count) : bool :=
  match frames with
  | Finite n => (i <? n)%Z
  | Infinity => true
  end.

(** A camera frame: a two-dimensional array of pixel values. *)
Definition image : Type := list (list Z).

(** [stage.position]: a scalar, or a dict from axis name to scalar. *)
Inductive position_value :=
| Scalar (x : Z)
| PerAxis (axes : list (string * Z)).

#[global] Instance position_value_eq_dec : EqDecision position_value.
Proof. solve_decision. Defined.

(** ** Events

    Every hardware call, lock operation and worker signal is an event. *)

Inductive event :=
| Acquire (l : lock)
| Release (l : lock)
| CameraPrepare (c : string)
| CameraStart (c : string) (frames : count)
| CameraAbort (c : string)
| CameraGrabFrame (c : string)
| DaqGenerateWaveforms (d : string) (task : string) (kind : string) (wavelength : string)
| DaqWriteAoWaveforms (d : string)
| DaqWriteDoWaveforms (d : string)
| DaqStartAll (d : string)
| DaqStopAll (d : string)
| StagePosition (s : string)
| Sleep
| WorkerCreated (w : nat)
| ConnectYielded (w : nat)
| ConnectFinished (w : nat)
| WorkerStart (w : nat)
| YieldFrame (im : image) (c : string)
| YieldPosition (s : string) (p : position_value)
| Finished (w : nat).

#[global] Instance event_eq_dec : EqDecision event.
Proof. solve_decision. Defined.

(** The execution context an event happens in: the presentation (main)
    context, or the thread of a worker. *)
Inductive context := Main | WorkerThread (w : nat).

#[global] Instance context_eq_dec : EqDecision context.
Proof. solve_decision. Defined.

(** ** The instrument *)

Record daq_tasks := { ao_task : string; do_task : string }.

Record instrument := {
  (* cameras[c].grab_frame(): the frame the k-th call returns *)
  grab_frame : string → nat → image;
  (* instrument.cameras.keys() *)
  cameras : list string;
  (* instrument.daqs.items(), with config[...]['daqs'][name]['tasks'] *)
  daqs : list (string * daq_tasks);
  (* instrument.scanning_stages / tiling_stages, with stage.position *)
  scanning_stages : list (string * position_value);
  tiling_stages : list (string * position_value)
}.

(** ** Python dict literals with unpacking: [{**a, **b}] *)

Fixpoint dict_set {V} (k : string) (v : V) (d : list (string * V)) : list (string * V) :=
  match d with
  | [] => [(k, v)]
  | (k', v') :: d' =>
      if String.eqb k k' then (k, v) :: d' else (k', v') :: dict_set k v d'
  end.

Definition dict_merge {V} (a b : list (string * V)) : list (string * V) :=
  fold_left (λ d kv, dict_set kv.1 kv.2 d) b (fold_left (λ d kv, dict_set kv.1 kv.2 d) a []).

(** ** The view object

    The fields of [ExaSpimView] the concurrency core reads or writes, the
    worker objects it has created (a handle is an index into [workers]),
    the napari layer list, and the camera buttons. *)

(** Callables connected to worker signals and layer callbacks. *)
Inductive callback :=
| CbUpdateLayer                       (* self.update_layer *)
| CbDismantleLive (c : string)        (* lambda: self.dismantle_live(camera_name) *)
| CbSaveImage.                        (* self.save_image *)

(** A generator object made by [grab_frames]: not yet entered, suspended
    at its [yield] with loop variable [i], or returned. *)
Inductive gen_state := GenCreated | GenSuspended (i : Z) | GenReturned.

Record worker := {
  w_camera : string;
  w_frames : count;
  w_gen : gen_state;
  w_started : bool;
  w_abort_requested : bool;
  w_finished : bool;
  w_on_yielded : list callback;
  w_on_finished : list callback
}.

Record layer := {
  data : image;
  mouse_drag_callbacks : list callback
}.

Inductive button_kind := SnapshotButton | LiveButton.

#[global] Instance button_kind_eq_dec : EqDecision button_kind.
Proof. solve_decision. Defined.

#[global] Instance button_kind_countable : Countable button_kind.
Proof.
  refine (inj_countable' (λ k, match k with SnapshotButton => false | LiveButton => true end)
                         (λ b : bool, if b then LiveButton else SnapshotButton) _).
  by intros [].
Defined.

(** A button of a camera widget: its kind and the camera name. *)
Definition button : Type := button_kind * string.

(** Callables connected to [button.pressed]. *)
Inductive slot :=
| SlotDisableButton (b : button)            (* lambda button=b: disable_button(button) *)
| SlotSetupLive (c : string) (frames : count) (* lambda camera=c: self.setup_live(camera[, 1]) *)
| SlotToggleLiveButton (c : string)         (* lambda camera=c: self.toggle_live_button(camera) *)
| SlotQuit (w : nat).                       (* self.grab_frames_worker.quit, bound when connected *)

Record button_state := {
  b_enabled : bool;
  b_text : string;
  b_pressed : list slot;      (* connections of the pressed signal, in order *)
  b_timers : nat              (* pending QTimer.singleShot callbacks *)
}.

Record view := {
  v_instrument : instrument;
  camera_grabs : gmap string nat;       (* grab_frame() calls so far, per camera *)
  grab_frames_worker : option nat;      (* self.grab_frames_worker *)
  workers : list worker;
  livestream_wavelength : string;
  layers : gmap string layer;           (* self.viewer.layers, by name *)
  buttons : gmap button button_state
}.

Definition set_camera_grabs (g : gmap string nat) (v : view) : view :=
  {| v_instrument := v_instrument v; camera_grabs := g;
     grab_frames_worker := grab_frames_worker v; workers := workers v;
     livestream_wavelength := livestream_wavelength v; layers := layers v;
     buttons := buttons v |}.

Definition set_grab_frames_worker (h : option nat) (v : view) : view :=
  {| v_instrument := v_instrument v; camera_grabs := camera_grabs v;
     grab_frames_worker := h; workers := workers v;
     livestream_wavelength := livestream_wavelength v; layers := layers v;
     buttons := buttons v |}.

Definition set_workers (ws : list worker) (v : view) : view :=
  {| v_instrument := v_instrument v; camera_grabs := camera_grabs v;
     grab_frames_worker := grab_frames_worker v; workers := ws;
     livestream_wavelength := livestream_wavelength v; layers := layers v;
     buttons := buttons v |}.

Definition set_layers (ls : gmap string layer) (v : view) : view :=
  {| v_instrument := v_instrument v; camera_grabs := camera_grabs v;
     grab_frames_worker := grab_frames_worker v; workers := workers v;
     livestream_wavelength := livestream_wavelength v; layers := ls;
     buttons := buttons v |}.

Definition set_buttons (bs : gmap button button_state) (v : view) : view :=
  {| v_instrument := v_instrument v; camera_grabs := camera_grabs v;
     grab_frames_worker := grab_frames_worker v; workers := workers v;
     livestream_wavelength := livestream_wavelength v; layers := layers v;
     buttons := bs |}.

(** ** A state-and-trace monad for the methods of the view *)

Definition M (A : Type) : Type := view → A * view * list event.

Definition ret {A} (a : A) : M A := λ v, (a, v, []).

Definition bind {A B} (m : M A) (k : A → M B) : M B :=
  λ v, let '(a, v1, e1) := m v in
       let '(b, v2, e2) := k a v1 in
       (b, v2, e1 ++ e2).

Definition emit (e : event) : M unit := λ v, (tt, v, [e]).
Definition read {A} (f : view → A) : M A := λ v, (f v, v, []).
Definition update (f : view → view) : M unit := λ v, (tt, f v, []).

Notation "'let*' x ':=' m 'in' k" := (bind m (λ x, k))
  (at level 10, x pattern, m at level 100, k at level 200).
Notation "m1 '>>' m2" := (bind m1 (λ _, m2))
  (at level 100, m2 at level 200, right associativity).

(** [for x in xs: body x] *)
Fixpoint for_each {A} (xs : list A) (body : A → M unit) : M unit :=
  match xs with
  | [] => ret tt
  | x :: xs' => body x >> for_each xs' body
  end.

(** [with l: body] *)
Definition with_lock {A} (l : lock) (body : M A) : M A :=
  emit (Acquire l) >>
  let* a := body in
  emit (Release l) >>
  ret a.

Definition events_of {A} (m : M A) (v : view) : list event := (m v).2.
Definition state_of {A} (m : M A) (v : view) : view := (m v).1.2.
Definition value_of {A} (m : M A) (v : view) : A := (m v).1.1.

(** ** Frame Acquisition Worker: [grab_frames]

    [self.grab_frames(camera_name, frames)] (decorated [@thread_worker])
    builds a worker object around the generator; nothing runs until
    [start()]. *)

Definition new_worker (camera_name : string) (frames : count) : worker :=
  {| w_camera := camera_name; w_frames := frames; w_gen := GenCreated;
     w_started := false; w_abort_requested := false; w_finished := false;
     w_on_yielded := []; w_on_finished := [] |}.

Definition set_gen (g : gen_state) (w : worker) : worker :=
  {| w_camera := w_camera w; w_frames := w_frames w; w_gen := g;
     w_started := w_started w; w_abort_requested := w_abort_requested w;
     w_finished := w_finished w; w_on_yielded := w_on_yielded w;
     w_on_finished := w_on_finished w |}.

Definition set_started (w : worker) : worker :=
  {| w_camera := w_camera w; w_frames := w_frames w; w_gen := w_gen w;
     w_started := true; w_abort_requested := w_abort_requested w;
     w_finished := w_finished w; w_on_yielded := w_on_yielded w;
     w_on_finished := w_on_finished w |}.

Definition set_abort_requested (w : worker) : worker :=
  {| w_camera := w_camera w; w_frames := w_frames w; w_gen := w_gen w;
     w_started := w_started w; w_abort_requested := true;
     w_finished := w_finished w; w_on_yielded := w_on_yielded w;
     w_on_finished := w_on_finished w |}.

Definition set_finished (w : worker) : worker :=
  {| w_camera := w_camera w; w_frames := w_frames w; w_gen := w_gen w;
     w_started := w_started w; w_abort_requested := w_abort_requested w;
     w_finished := true; w_on_yielded := w_on_yielded w;
     w_on_finished := w_on_finished w |}.

Definition connect_yielded (cb : callback) (w : worker) : worker :=
  {| w_camera := w_camera w; w_frames := w_frames w; w_gen := w_gen w;
     w_started := w_started w; w_abort_requested := w_abort_requested w;
     w_finished := w_finished w; w_on_yielded := w_on_yielded w ++ [cb];
     w_on_finished := w_on_finished w |}.

Definition connect_finished (cb : callback) (w : worker) : worker :=
  {| w_camera := w_camera w; w_frames := w_frames w; w_gen := w_gen w;
     w_started := w_started w; w_abort_requested := w_abort_requested w;
     w_finished := w_finished w; w_on_yielded := w_on_yielded w;
     w_on_finished := w_on_finished w ++ [cb] |}.

Definition update_worker (id : nat) (f : worker → worker) : M unit :=
  update (λ v, set_workers (alter f id (workers v)) v).

(** What [next()] on the generator gives: a yielded frame, or
    [StopIteration]. *)
Inductive gen_result := GenYield (frame : image * string) | GenStop.

(** The loop of [grab_frames] from its test [i < frames] on, up to the next
    [yield] or the end of the function. *)
Definition grab_frames_loop (id : nat) (camera_name : string) (frames : count) (i : Z)
  : M gen_result :=
  if lt_count i frames then
    let* im :=
      with_lock camera_lock
        (emit (CameraGrabFrame camera_name) >>
         let* k := read (λ v, default 0 (camera_grabs v !! camera_name)) in
         update (λ v, set_camera_grabs (<[camera_name := S k]> (camera_grabs v)) v) >>
         let* ins := read v_instrument in
         ret (grab_frame ins camera_name k)) in
    emit (YieldFrame im camera_name) >>
    update_worker id (set_gen (GenSuspended i)) >>
    ret (GenYield (im, camera_name))
  else
    update_worker id (set_gen GenReturned) >>
    ret GenStop.

(** One [next()] of the generator of worker [id]: entering the function
    runs [i = 0]; resuming after the [yield] runs [i += 1]. *)
Definition grab_frames_next (id : nat) (w : worker) : M gen_result :=
  match w_gen w with
  | GenCreated => grab_frames_loop id (w_camera w) (w_frames w) 0
  | GenSuspended i => grab_frames_loop id (w_camera w) (w_frames w) (i + 1)
  | GenReturned => ret GenStop
  end.

(** ** Live Session Controller: [setup_live], [dismantle_live] *)

Definition setup_live (camera_name : string) (frames : count) : M unit :=
  (* self.grab_frames_worker = self.grab_frames(camera_name, frames) *)
  let* id := read (λ v, length (workers v)) in
  update (λ v, set_grab_frames_worker (Some id)
                 (set_workers (workers v ++ [new_worker camera_name frames]) v)) >>
  emit (WorkerCreated id) >>
  (* self.grab_frames_worker.yielded.connect(self.update_layer) *)
  update_worker id (connect_yielded CbUpdateLayer) >>
  emit (ConnectYielded id) >>
  (* self.grab_frames_worker.finished.connect(lambda: self.dismantle_live(camera_name)) *)
  update_worker id (connect_finished (CbDismantleLive camera_name)) >>
  emit (ConnectFinished id) >>
  (* self.grab_frames_worker.start() *)
  update_worker id set_started >>
  emit (WorkerStart id) >>
  with_lock camera_lock
    (emit (CameraPrepare camera_name) >>
     emit (CameraStart camera_name frames)) >>
  with_lock daq_lock
    (let* ds := read (λ v, daqs (v_instrument v)) in
     let* wl := read livestream_wavelength in
     for_each ds (λ d,
       emit (DaqGenerateWaveforms d.1 (ao_task d.2) "ao" wl) >>
       emit (DaqGenerateWaveforms d.1 (do_task d.2) "do" wl) >>
       emit (DaqWriteAoWaveforms d.1) >>
       emit (DaqWriteDoWaveforms d.1) >>
       emit (DaqStartAll d.1))).

Definition dismantle_live (camera_name : string) : M unit :=
  with_lock camera_lock (emit (CameraAbort camera_name)) >>
  with_lock daq_lock
    (let* ds := read (λ v, daqs (v_instrument v)) in
     for_each ds (λ d, emit (DaqStopAll d.1))).

(** ** Presentation Sink: [update_layer] *)

Inductive exn :=
| KeyError (key : string)
| AttributeError (name : string)
| HardwareError (name : string).

(** [f"Video {camera_name} {self.livestream_wavelength}"] *)
Definition layer_name (camera_name wavelength : string) : string :=
  "Video " +:+ camera_name +:+ " " +:+ wavelength.

(** [self.viewer.layers[name]] *)
Definition layers_getitem (name : string) (ls : gmap string layer) : exn + layer :=
  match ls !! name with
  | Some l => inr l
  | None => inl (KeyError name)
  end.

(** [layer.data = image] on the layer called [name] *)
Definition set_layer_data (name : string) (l : layer) (im : image) (v : view) : view :=
  set_layers (<[name := {| data := im; mouse_drag_callbacks := mouse_drag_callbacks l |}]> (layers v)) v.

(** [layer = self.viewer.add_image(image, name=name)] followed by
    [layer.mouse_drag_callbacks.append(self.save_image)]; a new napari layer
    starts with no mouse-drag callbacks. *)
Definition add_image_with_callback (name : string) (im : image) (v : view) : view :=
  set_layers (<[name := {| data := im; mouse_drag_callbacks := [] ++ [CbSaveImage] |}]> (layers v)) v.

Definition update_layer (args : image * string) (v : view) : exn + view :=
  let '(im, camera_name) := args in
  let name := layer_name camera_name (livestream_wavelength v) in
  let try_block :=
    match layers_getitem name (layers v) with
    | inr l => inr (set_layer_data name l im v)
    | inl e => inl e
    end in
  match try_block with
  | inr v' => inr v'
  | inl (KeyError _) => inr (add_image_with_callback name im v)   (* except KeyError *)
  | inl e => inl e
  end.

(** ** Worker signals and the napari worker loop

    Not part of this repository: napari's [GeneratorWorker] runs, in the
    worker thread, [while True: if abort_requested: break; next(gen);
    yielded.emit(...)] and emits [finished] once when the loop ends by
    [StopIteration] or by abort. A callback connected to a signal runs in the
    main context; here it runs at once, within the same step. *)

Definition run_callback (cb : callback) (arg : option (image * string)) : M unit :=
  match cb, arg with
  | CbUpdateLayer, Some frame =>
      λ v, match update_layer frame v with
           | inr v' => (tt, v', [])
           | inl _ => (tt, v, [])
           end
  | CbDismantleLive c, _ => dismantle_live c
  | _, _ => ret tt
  end.

Definition tag (ctx : context) (es : list event) : list (context * event) :=
  map (pair ctx) es.

(** The end of a worker's run: [finished] is emitted and its callbacks run. *)
Definition worker_finish (id : nat) (w : worker) (v : view) : view * list (context * event) :=
  let '(_, v1, e1) := (update_worker id set_finished >> emit (Finished id)) v in
  let '(_, v2, e2) := for_each (w_on_finished w) (λ cb, run_callback cb None) v1 in
  (v2, tag (WorkerThread id) e1 ++ tag Main e2).

(** One iteration of the worker loop of worker [id]. *)
Definition worker_step (id : nat) (v : view) : view * list (context * event) :=
  match workers v !! id with
  | None => (v, [])
  | Some w =>
      if negb (w_started w) || w_finished w then (v, [])
      else if w_abort_requested w then worker_finish id w v
      else
        let '(r, v1, e1) := grab_frames_next id w v in
        match r with
        | GenYield frame =>
            let '(_, v2, e2) := for_each (w_on_yielded w) (λ cb, run_callback cb (Some frame)) v1 in
            (v2, tag (WorkerThread id) e1 ++ tag Main e2)
        | GenStop =>
            let '(v2, e2) := worker_finish id w v1 in
            (v2, tag (WorkerThread id) e1 ++ e2)
        end
  end.

(** ** Camera buttons: [disable_button], [toggle_live_button],
    [setup_camera_widgets] *)

Definition set_enabled (e : bool) (st : button_state) : button_state :=
  {| b_enabled := e; b_text := b_text st; b_pressed := b_pressed st; b_timers := b_timers st |}.

Definition set_timers (n : nat) (st : button_state) : button_state :=
  {| b_enabled := b_enabled st; b_text := b_text st; b_pressed := b_pressed st; b_timers := n |}.

Definition set_text (t : string) (st : button_state) : button_state :=
  {| b_enabled := b_enabled st; b_text := t; b_pressed := b_pressed st; b_timers := b_timers st |}.

Definition set_pressed (ss : list slot) (st : button_state) : button_state :=
  {| b_enabled := b_enabled st; b_text := b_text st; b_pressed := ss; b_timers := b_timers st |}.

Definition update_button (b : button) (f : button_state → button_state) : M unit :=
  update (λ v, set_buttons (alter f b (buttons v)) v).

(** [button.setEnabled(False)], then
    [QTimer.singleShot(pause, lambda: button.setDisabled(False))]. *)
Definition disable_button (b : button) : M unit :=
  update_button b (set_enabled false) >>
  update_button b (λ st, set_timers (S (b_timers st)) st).

Definition toggle_live_button (camera_name : string) : M unit :=
  let b := (LiveButton, camera_name) in
  let* st := read (λ v, buttons v !! b) in
  match st with
  | None => ret tt
  | Some st =>
      (* live_button.disconnect() *)
      update_button b (set_pressed []) >>
      let* connected :=
        if String.eqb (b_text st) "Live" then
          update_button b (set_text "Stop") >>
          let* h := read grab_frames_worker in
          match h with
          | Some id =>
              (* live_button.pressed.connect(self.grab_frames_worker.quit) *)
              update_button b (λ st, set_pressed (b_pressed st ++ [SlotQuit id]) st) >>
              ret true
          | None => ret false     (* None has no attribute quit: the slot stops here *)
          end
        else
          update_button b (set_text "Live") >>
          update_button b (λ st, set_pressed (b_pressed st ++ [SlotSetupLive camera_name Infinity]) st) >>
          ret true in
      if connected : bool then
        update_button b (λ st, set_pressed (b_pressed st ++ [SlotDisableButton b]) st) >>
        update_button b (λ st, set_pressed (b_pressed st ++ [SlotToggleLiveButton camera_name]) st)
      else ret tt
  end.

Definition run_slot (s : slot) : M unit :=
  match s with
  | SlotDisableButton b => disable_button b
  | SlotSetupLive c frames => setup_live c frames
  | SlotToggleLiveButton c => toggle_live_button c
  | SlotQuit id => update_worker id set_abort_requested    (* napari: worker.quit() *)
  end.

(** The connections [setup_camera_widgets] makes for one camera; a button
    starts enabled, the live button with the text "Live". *)
Definition snapshot_button_init (camera_name : string) : button_state :=
  {| b_enabled := true; b_text := "Snapshot";
     b_pressed := [SlotDisableButton (SnapshotButton, camera_name);
                   SlotSetupLive camera_name (Finite 1)];
     b_timers := 0 |}.

Definition live_button_init (camera_name : string) : button_state :=
  {| b_enabled := true; b_text := "Live";
     b_pressed := [SlotDisableButton (LiveButton, camera_name);
                   SlotSetupLive camera_name Infinity;
                   SlotToggleLiveButton camera_name];
     b_timers := 0 |}.

Definition setup_camera_widgets (camera_names : list string) : gmap button button_state :=
  fold_left (λ bs c, <[(LiveButton, c) := live_button_init c]>
                       (<[(SnapshotButton, c) := snapshot_button_init c]> bs))
            camera_names ∅.

(** The view at the end of [__init__]. *)
Definition init_view (ins : instrument) : view :=
  {| v_instrument := ins; camera_grabs := ∅; grab_frames_worker := None;
     workers := []; livestream_wavelength := "488"; layers := ∅;
     buttons := setup_camera_widgets (cameras ins) |}.

(** ** The session as a labelled transition system

    A step is a click on a button, the expiry of a cooldown timer, or one
    iteration of a worker's loop. A disabled button emits no [pressed]
    signal; the callables connected to [pressed] run in connection order.
    A step runs to its end before the next one begins, so a [with] block of
    one context is not interleaved with the events of another, and a lock is
    free whenever a step asks for it. *)

Inductive label :=
| Press (b : button)
| Timeout (b : button)
| WorkerStep (w : nat).

Definition press (b : button) (v : view) : view * list (context * event) :=
  match buttons v !! b with
  | Some st =>
      if b_enabled st then
        let '(_, v', es) := for_each (b_pressed st) run_slot v in
        (v', tag Main es)
      else (v, [])
  | None => (v, [])
  end.

(** The timer callback [lambda: button.setDisabled(False)]. *)
Definition timeout (b : button) (v : view) : view * list (context * event) :=
  match buttons v !! b with
  | Some st =>
      match b_timers st with
      | S n => (state_of (update_button b (λ st, set_timers n (set_enabled true st))) v, [])
      | O => (v, [])
      end
  | None => (v, [])
  end.

Definition step (l : label) (v : view) : view * list (context * event) :=
  match l with
  | Press b => press b v
  | Timeout b => timeout b v
  | WorkerStep id => worker_step id v
  end.

Fixpoint run (ls : list label) (v : view) : view * list (context * event) :=
  match ls with
  | [] => (v, [])
  | l :: ls' =>
      let '(v1, e1) := step l v in
      let '(v2, e2) := run ls' v1 in
      (v2, e1 ++ e2)
  end.

(** A worker that has been started and has not finished. *)
Definition active (w : worker) : bool := w_started w && negb (w_finished w).

Definition active_workers (camera_name : string) (v : view) : list worker :=
  filter (λ w, active w = true ∧ w_camera w = camera_name) (workers v).

(** The frames a trace emits, in order. *)
Definition frames_emitted (tr : list (context * event)) : list (image * string) :=
  omap (λ ce, match ce.2 with YieldFrame im c => Some (im, c) | _ => None end) tr.

(** The locks a context holds after a trace, given those it held before. *)
Fixpoint locks_held (ctx : context) (tr : list (context * event)) (held : list lock) : list lock :=
  match tr with
  | [] => held
  | (ctx', e) :: tr' =>
      if decide (ctx' = ctx) then
        match e with
        | Acquire l => locks_held ctx tr' (l :: held)
        | Release l => locks_held ctx tr' (filter (λ l', l' ≠ l) held)
        | _ => locks_held ctx tr' held
        end
      else locks_held ctx tr' held
  end.

(** ** Stage Position Poller: [grab_stage_positions] *)

(** [threading.Lock] defines neither [__bool__] nor [__len__]: a lock object
    is truthy. *)
Definition lock_truthy (l : lock) : bool := true.

(** [a and b]: [a] if [a] is falsy, else [b]. *)
Definition py_and (a b : lock) : lock := if lock_truthy a then b else a.

(** One iteration of the [while True] loop. *)
Definition grab_stage_positions_cycle : M unit :=
  emit Sleep >>
  let* ins := read v_instrument in
  for_each (dict_merge (scanning_stages ins) (tiling_stages ins)) (λ '(name, stage),
    let* position :=
      with_lock (py_and scanning_stage_lock tiling_stage_lock)
        (emit (StagePosition name) >> ret stage) in
    emit (YieldPosition name position)).

(** The first [cycles] iterations of the loop. *)
Fixpoint grab_stage_positions (cycles : nat) : M unit :=
  match cycles with
  | O => ret tt
  | S n => grab_stage_positions_cycle >> grab_stage_positions n
  end.

(** ** Python objects for the Device Property Bridge *)

Inductive value := VNone | VInt (n : Z) | VStr (s : string).

#[global] Instance value_eq_dec : EqDecision value.
Proof. solve_decision. Defined.

(** A [property] object of a class: [fget] reads the instance state and
    does not change it, [fset] gives the new instance state; either may
    raise. *)
Record property := {
  fget : option (gmap string value → exn + value);
  fset : option (value → gmap string value → exn + gmap string value)
}.

Inductive class_attr :=
| Property (p : property)
| OtherAttr.                 (* a method or any other class attribute *)

Record device := {
  dev_class : gmap string class_attr;   (* type(device), base classes included *)
  dev_dict : gmap string value          (* the state of the instance *)
}.

Definition set_dev_dict (d : device) (st : gmap string value) : device :=
  {| dev_class := dev_class d; dev_dict := st |}.

(** [dir(device)]: the names of the class and of the instance, sorted. *)
Definition dir (d : device) : list string :=
  merge_sort (λ a b, String.leb a b) (elements (dom (dev_class d) ∪ dom (dev_dict d))).

(** [getattr(device, name)] *)
Definition py_getattr (d : device) (name : string) : exn + value :=
  match dev_class d !! name with
  | Some (Property p) =>
      match fget p with
      | Some get => get (dev_dict d)
      | None => inl (AttributeError name)       (* unreadable attribute *)
      end
  | _ =>
      match dev_dict d !! name with
      | Some x => inr x
      | None => inl (AttributeError name)
      end
  end.

(** [getattr(device, name, default)]: only [AttributeError] is replaced by
    the default. *)
Definition py_getattr_default (d : device) (name : string) (default : value) : exn + value :=
  match py_getattr d name with
  | inl (AttributeError _) => inr default
  | r => r
  end.

(** [setattr(device, name, x)] *)
Definition py_setattr (d : device) (name : string) (x : value) : exn + device :=
  match dev_class d !! name with
  | Some (Property p) =>
      match fset p with
      | Some set =>
          match set x (dev_dict d) with
          | inr st => inr (set_dev_dict d st)
          | inl e => inl e
          end
      | None => inl (AttributeError name)       (* can't set attribute *)
      end
  | _ => inr (set_dev_dict d (<[name := x]> (dev_dict d)))
  end.

(** ** Capability scan: [scan_for_properties] *)

(** [isinstance(attr, property)], for [attr = getattr(type(device), attr_name, None)] *)
Definition is_property (attr : option class_attr) : bool :=
  match attr with
  | Some (Property _) => true
  | _ => false
  end.

Fixpoint scan_loop (d : device) (names : list string) (prop_dict : gmap string value)
  : exn + gmap string value :=
  match names with
  | [] => inr prop_dict
  | attr_name :: rest =>
      let attr := dev_class d !! attr_name in
      if is_property attr  (* and attr.fset is not None: commented out in the source *)
      then
        match py_getattr_default d attr_name VNone with
        | inr x => scan_loop d rest (<[attr_name := x]> prop_dict)
        | inl e => inl e
        end
      else scan_loop d rest prop_dict
  end.

Definition scan_for_properties (d : device) : exn + gmap string value :=
  scan_loop d (dir d) ∅.

(** Whether the class of [d] has a property [name] with a setter. *)
Definition has_setter (d : device) (name : string) : bool :=
  match dev_class d !! name with
  | Some (Property p) => bool_decide (is_Some (fset p))
  | _ => false
  end.

(** ** Device Property Bridge: [device_property_changed] *)

(** Modelled from the spec: [BaseDeviceWidget] (package [device_widgets]) is
    not among the sources. The editable record is a key-to-value map;
    [property_widgets] lists the tracked attributes; reading an attribute of
    the widget gives the displayed value and assigning one replaces it. *)
Record widget := {
  property_widgets : list string;
  widget_attrs : gmap string value
}.

Definition widget_getattr (w : widget) (name : string) : exn + value :=
  match widget_attrs w !! name with
  | Some x => inr x
  | None => inl (AttributeError name)
  end.

Definition widget_setattr (w : widget) (name : string) (x : value) : widget :=
  {| property_widgets := property_widgets w; widget_attrs := <[name := x]> (widget_attrs w) |}.

(** [name.split('.')[0]] *)
Fixpoint split_dot_head (name : string) : string :=
  match name with
  | EmptyString => EmptyString
  | String a rest => if Ascii.eqb a "."%char then EmptyString else String a (split_dot_head rest)
  end.

(** The loop [for k, v in widget.property_widgets.items()] over the keys
    still to visit. *)
Fixpoint refresh_widget (d : device) (keys : list string) (w : widget) : exn + widget :=
  match keys with
  | [] => inr w
  | k :: rest =>
      match py_getattr d k with
      | inr device_value => refresh_widget d rest (widget_setattr w k device_value)
      | inl e => inl e
      end
  end.

(** The body of the [with] block. *)
Definition device_property_changed_body (name : string) (d : device) (w : widget)
  : exn + device * widget :=
  let name0 := split_dot_head name in
  match widget_getattr w name0 with          (* printed, then read again as value *)
  | inl e => inl e
  | inr x =>
      match py_setattr d name0 x with
      | inl e => inl e
      | inr d' =>
          match py_getattr d' name0 with       (* printed *)
          | inl e => inl e
          | inr _ =>
              match refresh_widget d' (property_widgets w) w with
              | inl e => inl e
              | inr w' => inr (d', w')
              end
          end
      end
  end.

(** [with getattr(self, f'{device_type}_lock'): ...]; the lock is released
    when the block ends, by an exception too. *)
Definition device_property_changed (name : string) (d : device) (w : widget) (t : device_type)
  : list event * (exn + device * widget) :=
  ([Acquire (LockOf t); Release (LockOf t)], device_property_changed_body name d w).

(** ** Traces and what is observed on them *)

(** The events of one thread within a trace. *)
Definition thread_events (ctx : context) (tr : list (context * event)) : list event :=
  omap (λ ce, if decide (ce.1 = ctx) then Some ce.2 else None) tr.

(** The locks held after the events [es] of one context, given the locks
    [held] before. *)
Definition held_step (e : event) (held : list lock) : list lock :=
  match e with
  | Acquire l => l :: held
  | Release l => filter (λ l', l' ≠ l) held
  | _ => held
  end.

Definition held_after (es : list event) (held : list lock) : list lock :=
  fold_left (λ h e, held_step e h) es held.

(** Whether locks [a] and [b] are never held together, before [es] and
    after each of its events. *)
Fixpoint exclusive (a b : lock) (held : list lock) (es : list event) : bool :=
  negb (bool_decide (a ∈ held) && bool_decide (b ∈ held)) &&
  match es with
  | [] => true
  | e :: es' => exclusive a b (held_step e held) es'
  end.

(** The protocol of the frame worker's thread, as the specification words
    it: lock the camera, grab, unlock, and only then emit; [finished] comes
    with no lock held. *)
Inductive phase := Unlocked | Locked | Grabbed | Ready.

Definition phase_step (p : phase) (e : event) : option phase :=
  match p, e with
  | Unlocked, Acquire (LockOf camera) => Some Locked
  | Locked, CameraGrabFrame _ => Some Grabbed
  | Grabbed, Release (LockOf camera) => Some Ready
  | Ready, YieldFrame _ _ => Some Unlocked
  | Unlocked, Finished _ => Some Unlocked
  | _, _ => None
  end.

Fixpoint protocol (p : phase) (es : list event) : option phase :=
  match es with
  | [] => Some p
  | e :: es' =>
      match phase_step p e with
      | Some p' => protocol p' es'
      | None => None
      end
  end.

(** The events of one loop iteration of worker thread [id] that grabs the
    frame [im] from camera [c]. *)
Definition iteration_events (id : nat) (c : string) (im : image) : list (context * event) :=
  tag (WorkerThread id)
      [Acquire camera_lock; CameraGrabFrame c; Release camera_lock; YieldFrame im c].

(** The events of the teardown routine for camera [c] and the daqs [ds]. *)
Definition teardown_events (c : string) (ds : list (string * daq_tasks)) : list event :=
  [Acquire camera_lock; CameraAbort c; Release camera_lock; Acquire daq_lock]
  ++ map (λ d, DaqStopAll d.1) ds ++ [Release daq_lock].

(** The events of loading and starting the waveforms of one daq. *)
Definition waveform_events (wl : string) (d : string * daq_tasks) : list event :=
  [DaqGenerateWaveforms d.1 (ao_task d.2) "ao" wl;
   DaqGenerateWaveforms d.1 (do_task d.2) "do" wl;
   DaqWriteAoWaveforms d.1; DaqWriteDoWaveforms d.1; DaqStartAll d.1].

(** How often the camera is aborted and the daqs are stopped in a trace. *)
Definition camera_aborts (c : string) (tr : list (context * event)) : nat :=
  length (filter (λ ce, ce.2 = CameraAbort c) tr).

Definition is_daq_stop (e : event) : bool :=
  match e with DaqStopAll _ => true | _ => false end.

Definition daq_stops (tr : list (context * event)) : nat :=
  length (filter (λ ce, is_daq_stop ce.2 = true) tr).

(** ** A sample instrument and sample devices *)

Definition demo_instrument : instrument :=
  {| grab_frame := λ c k, [[Z.of_nat k]];
     cameras := ["cam0"];
     daqs := [("daq0", {| ao_task := "ao0"; do_task := "do0" |})];
     scanning_stages := [("z", Scalar 5)];
     tiling_stages := [("xy", PerAxis [("x", 1%Z); ("y", 2%Z)])] |}.

Definition demo_view : view := init_view demo_instrument.

(** A camera-like device: [exposure] is a property whose setter clamps to
    0..100 and also rewrites the state behind [frame_rate]; [frame_rate]
    and [serial] are read-only properties. *)
Definition read_field (field : string) (st : gmap string value) : exn + value :=
  match st !! field with
  | Some x => inr x
  | None => inl (AttributeError field)
  end.

Definition clamp_exposure (x : value) (st : gmap string value) : exn + gmap string value :=
  match x with
  | VInt n =>
      let n' := Z.max 0 (Z.min 100 n) in
      inr (<["_frame_rate" := VInt (1000 - n')]> (<["_exposure" := VInt n']> st))
  | _ => inl (HardwareError "exposure")
  end.

Definition demo_class : gmap string class_attr :=
  <["exposure" := Property {| fget := Some (read_field "_exposure"); fset := Some clamp_exposure |}]>
  (<["frame_rate" := Property {| fget := Some (read_field "_frame_rate"); fset := None |}]>
  (<["serial" := Property {| fget := Some (read_field "_serial"); fset := None |}]>
  (<["grab_frame" := OtherAttr]> ∅))).

Definition demo_device : device :=
  {| dev_class := demo_class;
     dev_dict := <["_exposure" := VInt 10]> (<["_frame_rate" := VInt 990]>
                 (<["_serial" := VStr "A1"]> ∅)) |}.

(** The widget of [demo_device] after the operator typed 250 into the
    exposure field. *)
Definition demo_widget : widget :=
  {| property_widgets := ["exposure"; "frame_rate"; "serial"];
     widget_attrs := <["exposure" := VInt 250]> (<["frame_rate" := VInt 990]>
                     (<["serial" := VStr "A1"]> ∅)) |}.

(** The worker object [setup_live] leaves behind. *)
Definition started_worker (c : string) (frames : count) : worker :=
  {| w_camera := c; w_frames := frames; w_gen := GenCreated;
     w_started := true; w_abort_requested := false; w_finished := false;
     w_on_yielded := [CbUpdateLayer]; w_on_finished := [CbDismantleLive c] |}.

Definition setup_live_events (id : nat) (c : string) (frames : count) (v : view) : list event :=
  [WorkerCreated id; ConnectYielded id; ConnectFinished id; WorkerStart id;
   Acquire camera_lock; CameraPrepare c; CameraStart c frames; Release camera_lock;
   Acquire daq_lock]
  ++ flat_map (waveform_events (livestream_wavelength v)) (daqs (v_instrument v))
  ++ [Release daq_lock].

(** The value of [i] the generator tests next: [i = 0] on entry, [i += 1]
    on resumption. *)
Definition next_index (g : gen_state) : option Z :=
  match g with
  | GenCreated => Some 0%Z
  | GenSuspended i => Some (i + 1)%Z
  | GenReturned => None
  end.

(** [demo_device] after the value 250 has been written to [exposure]. *)
Definition demo_device_after : device :=
  set_dev_dict demo_device
    (<["_frame_rate" := VInt 900]> (<["_exposure" := VInt 100]> (dev_dict demo_device))).

(** ** The cooldown of a start control *)

(** How many workers the callables [ss] connected to a button start when
    the button is pressed. *)
Fixpoint spawns (ss : list slot) : nat :=
  match ss with
  | [] => 0
  | SlotSetupLive _ _ :: ss' => S (spawns ss')
  | _ :: ss' => spawns ss'
  end.

(** The connections of button [b] start no worker, or start one and also
    disable [b]. *)
Definition slots_bounded (b : button) (ss : list slot) : Prop :=
  spawns ss = 0 ∨ (spawns ss = 1 ∧ SlotDisableButton b ∈ ss).

Definition cooldown_inv (v : view) : Prop :=
  ∀ b st, buttons v !! b = Some st → slots_bounded b (b_pressed st).

(** 1 if button [b] can be pressed, else 0. *)
Definition budget (b : button) (v : view) : nat :=
  match buttons v !! b with
  | Some st => if b_enabled st then 1 else 0
  | None => 0
  end.

(** The labels that neither let the cooldown timer of button [b] expire
    nor press another button. *)
Definition within_cooldown (b : button) (l : label) : Prop :=
  l ≠ Timeout b ∧ ∀ b', l = Press b' → b' = b.

(** The locks the worker thread holds in each phase of the protocol. *)
Definition phase_locks (p : phase) : list lock :=
  match p with
  | Unlocked | Ready => []
  | Locked | Grabbed => [camera_lock]
  end.

(** ** How the worker objects change over a session *)

(** What stays of a worker object whatever is done to it after
    [setup_live] has returned: its camera, its count, its connections and
    that it was started; once finished it stays finished. *)
Definition worker_le (w w' : worker) : Prop :=
  w_camera w' = w_camera w ∧ w_frames w' = w_frames w
  ∧ w_started w' = w_started w
  ∧ w_on_yielded w' = w_on_yielded w ∧ w_on_finished w' = w_on_finished w
  ∧ (w_finished w = true → w_finished w' = true).

(** The worker list only changes by updating a worker in place or by
    appending a worker made by [setup_live]. *)
Inductive heap_evolves (ws : list worker) : list worker → Prop :=
| he_refl : heap_evolves ws ws
| he_alter ws' f id :
    heap_evolves ws ws' → (∀ w, worker_le w (f w)) → heap_evolves ws (alter f id ws')
| he_spawn ws' c frames :
    heap_evolves ws ws' → heap_evolves ws (ws' ++ [started_worker c frames]).

(** A started worker whose frames go to [update_layer] and whose end
    triggers the teardown of its own camera. *)
Definition worker_wired (w : worker) : Prop :=
  w_started w = true ∧ w_on_yielded w = [CbUpdateLayer]
  ∧ w_on_finished w = [CbDismantleLive (w_camera w)].

Definition wired_inv (v : view) : Prop :=
  ∀ id w, workers v !! id = Some w → worker_wired w.

(** How often worker [id] emits [finished] in a trace. *)
Definition finished_count (id : nat) (tr : list (context * event)) : nat :=
  length (filter (λ e, e = Finished id) (thread_events (WorkerThread id) tr)).

(** Whether [e] is the [finished] signal of a worker of camera [c]. *)
Definition is_finished_of (v : view) (c : string) (e : event) : bool :=
  match e with
  | Finished id =>
      match workers v !! id with
      | Some w => bool_decide (w_camera w = c)
      | None => false
      end
  | _ => false
  end.

(** How many [finished] signals of workers of camera [c] a trace has. *)
Definition finished_workers (c : string) (v : view) (tr : list (context * event)) : nat :=
  length (filter (λ ce, is_finished_of v c ce.2 = true) tr).

(** Events other than a camera abort and a [finished] signal. *)
Definition quiet (e : event) : bool :=
  match e with
  | CameraAbort _ | Finished _ => false
  | _ => true
  end.

(** ** The camera buttons over a session *)

(** A button is enabled with no cooldown timer pending, or disabled with
    exactly one pending. *)
Definition timer_ok (st : button_state) : Prop :=
  (b_enabled st = true ∧ b_timers st = 0) ∨ (b_enabled st = false ∧ b_timers st = 1).

(** The connections a button can have: those made by
    [setup_camera_widgets], or those made by [toggle_live_button], where the
    text "Stop" goes with the [quit] of a worker of the button's camera. *)
Definition slots_ok (v : view) (b : button) (st : button_state) : Prop :=
  match b.1 with
  | SnapshotButton =>
      b_pressed st = [SlotDisableButton b; SlotSetupLive b.2 (Finite 1)]
  | LiveButton =>
      (b_text st = "Live"
       ∧ (b_pressed st = [SlotDisableButton b; SlotSetupLive b.2 Infinity;
                          SlotToggleLiveButton b.2]
          ∨ b_pressed st = [SlotSetupLive b.2 Infinity; SlotDisableButton b;
                            SlotToggleLiveButton b.2]))
      ∨ (b_text st = "Stop"
         ∧ ∃ id w, b_pressed st = [SlotQuit id; SlotDisableButton b; SlotToggleLiveButton b.2]
                 ∧ workers v !! id = Some w
                 ∧ w_camera w = b.2 ∧ w_frames w = Infinity)
  end.

Definition session_inv (v : view) : Prop :=
  ∀ b st, buttons v !! b = Some st → timer_ok st ∧ slots_ok v b st.

(** A button after [disable_button], and the live button of camera [c]
    after [toggle_live_button] in either direction. *)
Definition disabled_by_press (st : button_state) : button_state :=
  set_timers (S (b_timers st)) (set_enabled false st).

Definition toggled_to_stop (h : nat) (c : string) (st : button_state) : button_state :=
  {| b_enabled := b_enabled st; b_text := "Stop";
     b_pressed := [SlotQuit h; SlotDisableButton (LiveButton, c); SlotToggleLiveButton c];
     b_timers := b_timers st |}.

Definition toggled_to_live (c : string) (st : button_state) : button_state :=
  {| b_enabled := b_enabled st; b_text := "Live";
     b_pressed := [SlotSetupLive c Infinity; SlotDisableButton (LiveButton, c);
                   SlotToggleLiveButton c];
     b_timers := b_timers st |}.

(** ** Saving a frame: [save_image] *)

(** [s.split(sep)] for a one-character separator: the pieces between the
    separators, empty pieces included; never the empty list. *)
Fixpoint split_on (sep : ascii) (s : string) : list string :=
  match s with
  | EmptyString => [EmptyString]
  | String a rest =>
      if Ascii.eqb a sep then EmptyString :: split_on sep rest
      else match split_on sep rest with
           | piece :: pieces => String a piece :: pieces
           | [] => [String a EmptyString]
           end
  end.

(** Whether the character [a] occurs in [s]. *)
Fixpoint has_char (a : ascii) (s : string) : bool :=
  match s with
  | EmptyString => false
  | String b rest => Ascii.eqb b a || has_char a rest
  end.

Inductive save_error :=
| SplitIndexError                       (* layer.name.split(' ')[1] out of range *)
| WriterKeyError (cam : string).        (* self.acquisition.writers[camera] *)

(** [save_image(layer, event)]: [writers] maps a camera name to the [path]
    of its writer, [get_existing_directory] is what the folder dialog returns
    for a start directory (the empty string on cancel), [now] is the formatted
    time stamp. The result is the file written, if any. *)
Definition save_image (writers : gmap string string)
    (get_existing_directory : string → string) (now : string)
    (name : string) (layer_data : image) (event_button : Z)
  : save_error + option (string * image) :=
  if (event_button =? 2)%Z then
    match split_on " " name !! 1 with
    | None => inl SplitIndexError
    | Some cam =>
        match writers !! cam with
        | None => inl (WriterKeyError cam)
        | Some local_storage =>
            let folder := get_existing_directory local_storage in
            if negb (String.eqb folder "")
            then inr (Some (folder +:+ "\" +:+ name +:+ "_" +:+ now +:+ ".tiff", layer_data))
            else inr None
        end
    end
  else inr None.

(** ** What the stage poller emits *)

(** The position events of a list of events, in order. *)
Definition positions_emitted (es : list event) : list (string * position_value) :=
  omap (λ e, match e with YieldPosition s p => Some (s, p) | _ => None end) es.

(** The locks a list of events takes. *)
Definition locks_taken (es : list event) : list lock :=
  omap (λ e, match e with Acquire l => Some l | _ => None end) es.

(** ** Stage position display: [update_stage_position] *)

(** Modelled from the spec: the stage widgets ([BaseDeviceWidget], package
    [device_widgets]) are not among the sources. A stage widget is the map
    from the attribute name of a text field ([position_widget],
    [position.x_widget], ...) to the text the field shows; [setText]
    replaces that text. *)
Record stage_panel := {
  tiling_stage_widgets : gmap string (gmap string string);
  scanning_stage_widgets : gmap string (gmap string string)
}.

Inductive display_error :=
| StageKeyError (name : string)          (* stages[name] *)
| FieldAttributeError (field : string).  (* getattr(widget, field) *)

(** [stages[name]], for
    [stages = {**self.tiling_stage_widgets, **self.scanning_stage_widgets}] *)
Definition stages_getitem (name : string) (p : stage_panel)
  : display_error + gmap string string :=
  match (scanning_stage_widgets p ∪ tiling_stage_widgets p) !! name with
  | Some w => inr w
  | None => inl (StageKeyError name)
  end.

(** [getattr(stages[name], field).setText(text)]. The widget found is the
    object held by the dict it came from, so the new text shows there. *)
Definition set_stage_text (name field text : string) (p : stage_panel)
  : display_error + stage_panel :=
  match stages_getitem name p with
  | inl e => inl e
  | inr w =>
      match w !! field with
      | None => inl (FieldAttributeError field)
      | Some _ =>
          if bool_decide (is_Some (scanning_stage_widgets p !! name))
          then inr {| tiling_stage_widgets := tiling_stage_widgets p;
                      scanning_stage_widgets :=
                        <[name := <[field := text]> w]> (scanning_stage_widgets p) |}
          else inr {| tiling_stage_widgets :=
                        <[name := <[field := text]> w]> (tiling_stage_widgets p);
                      scanning_stage_widgets := scanning_stage_widgets p |}
      end
  end.

(** [f"position.{k}_widget"] *)
Definition axis_field (k : string) : string := "position." +:+ k +:+ "_widget".

(** The loop [for k, v in position.items()]; what was displayed before an
    error stays displayed. *)
Fixpoint update_axes (name : string) (axes : list (string * Z)) (p : stage_panel)
  : stage_panel * option display_error :=
  match axes with
  | [] => (p, None)
  | (k, x) :: rest =>
      match set_stage_text name (axis_field k) (pretty x) p with
      | inr p' => update_axes name rest p'
      | inl e => (p, Some e)
      end
  end.

Definition update_stage_position (args : string * position_value) (p : stage_panel)
  : stage_panel * option display_error :=
  let '(name, position) := args in
  match position with
  | PerAxis axes => update_axes name axes p          (* type(position) == dict *)
  | Scalar x =>
      match set_stage_text name "position_widget" (pretty x) p with
      | inr p' => (p', None)
      | inl e => (p, Some e)
      end
  end.

(** A sample panel: a two-axis tiling stage and a scanning stage. *)
Definition demo_panel : stage_panel :=
  {| tiling_stage_widgets :=
       {["xy" := <["position.x_widget" := "0"]> (<["position.y_widget" := "0"]> ∅)]};
     scanning_stage_widgets := {["z" := {["position_widget" := "0"]}]} |}.

(** A sample instrument in which a scanning stage and a tiling stage share
    the name ["x"], with the widgets of its two stages. *)
Definition shared_name_view : view :=
  init_view {| grab_frame := λ c k, []; cameras := []; daqs := [];
               scanning_stages := [("x", Scalar 5)];
               tiling_stages := [("x", Scalar 70)] |}.

Definition shared_name_panel : stage_panel :=
  {| tiling_stage_widgets := {["x" := {["position_widget" := "0"]}]};
     scanning_stage_widgets := {["x" := {["position_widget" := "0"]}]} |}.

(** Events that emit no frame, abort no camera, stop no daq and end no
    worker. *)
Definition calm (e : event) : bool :=
  match e with
  | CameraAbort _ | Finished _ | YieldFrame _ _ | DaqStopAll _ => false
  | _ => true
  end.

(** * Properties *)

(** ** Loops that only emit events *)

Lemma for_each_emits {A} (xs : list A) (body : A → M unit) (f : A → list event) :
  (∀ x v, body x v = (tt, v, f x)) →
  ∀ v, for_each xs body v = (tt, v, flat_map f xs).
Proof.
  intros Hbody. induction xs as [|x xs IH]; intros v; simpl.
  - reflexivity.
  - unfold bind. rewrite Hbody, IH. reflexivity.
Qed.

Lemma flat_map_singleton {A B} (f : A → B) (xs : list A) :
  flat_map (λ x, [f x]) xs = map f xs.
Proof. induction xs as [|x xs IH]; simpl; congruence. Qed.

(** ** The teardown routine *)

Lemma dismantle_live_run (c : string) (v : view) :
  dismantle_live c v = (tt, v, teardown_events c (daqs (v_instrument v))).
Proof.
  unfold dismantle_live, with_lock, bind, emit, read, ret, teardown_events. simpl.
  rewrite (for_each_emits _ _ (λ d, [DaqStopAll d.1])) by reflexivity.
  rewrite flat_map_singleton. reflexivity.
Qed.

(** ** The start routine *)

Lemma alter_at_end {A} (f : A → A) (xs : list A) (x : A) :
  alter f (length xs) (xs ++ [x]) = xs ++ [f x].
Proof. induction xs as [|y xs IH]; simpl; [reflexivity|]. f_equal. exact IH. Qed.

Lemma setup_live_run (c : string) (frames : count) (v : view) :
  setup_live c frames v =
  (tt,
   set_grab_frames_worker (Some (length (workers v)))
     (set_workers (workers v ++ [started_worker c frames]) v),
   setup_live_events (length (workers v)) c frames v).
Proof.
  unfold setup_live, with_lock, update_worker, bind, emit, read, update, ret. simpl.
  rewrite (for_each_emits _ _ (waveform_events (livestream_wavelength v))) by reflexivity.
  rewrite !alter_at_end. reflexivity.
Qed.

(** ** Locks held along a trace *)


Lemma exclusive_head (a b : lock) (h : list lock) (es : list event) :
  exclusive a b h es = true → ¬ (a ∈ h ∧ b ∈ h).
Proof.
  destruct es; simpl; intros He [Ha Hb];
    rewrite (bool_decide_eq_true_2 _ Ha), (bool_decide_eq_true_2 _ Hb) in He;
    discriminate.
Qed.

Lemma exclusive_prefix (a b : lock) (es : list event) :
  ∀ h n, exclusive a b h es = true →
         ¬ (a ∈ held_after (take n es) h ∧ b ∈ held_after (take n es) h).
Proof.
  induction es as [|e es IH]; intros h n He.
  - rewrite take_nil. simpl. exact (exclusive_head _ _ _ _ He).
  - destruct n as [|n].
    + simpl. exact (exclusive_head _ _ _ _ He).
    + simpl. apply IH. simpl in He.
      apply andb_true_iff in He. tauto.
Qed.

Lemma exclusive_app (a b : lock) (es1 es2 : list event) :
  ∀ h, exclusive a b h (es1 ++ es2) =
       exclusive a b h es1 && exclusive a b (held_after es1 h) es2.
Proof.
  induction es1 as [|e es1 IH]; intros h; simpl.
  - destruct es2; simpl.
    + by rewrite andb_diag.
    + rewrite andb_true_r, andb_assoc, andb_diag. reflexivity.
  - rewrite IH, andb_assoc. reflexivity.
Qed.

(** Loading the waveforms takes and gives back no lock. *)
Lemma waveforms_keep_locks (wl : string) (ds : list (string * daq_tasks)) (h : list lock) :
  held_after (flat_map (waveform_events wl) ds) h = h.
Proof. induction ds as [|d ds IH]; simpl; [reflexivity|exact IH]. Qed.

Lemma waveforms_exclusive (a b : lock) (wl : string) (ds : list (string * daq_tasks)) (h : list lock) :
  ¬ (a ∈ h ∧ b ∈ h) →
  exclusive a b h (flat_map (waveform_events wl) ds) = true.
Proof.
  intros Hh.
  assert (Hneg : negb (bool_decide (a ∈ h) && bool_decide (b ∈ h)) = true).
  { apply negb_true_iff, andb_false_iff.
    destruct (decide (a ∈ h)) as [Ha|Ha].
    - right. apply bool_decide_eq_false_2. tauto.
    - left. by apply bool_decide_eq_false_2. }
  induction ds as [|d ds IH]; simpl.
  - by rewrite Hneg.
  - rewrite Hneg. simpl. exact IH.
Qed.

(** C4: on the STARTING to STREAMING transition [setup_live] performs, in
    this order: it creates the worker, connects its [yielded] signal to
    [update_layer] and its [finished] signal to [dismantle_live], and starts
    it; under the camera lock it calls [prepare()] then [start(frames)] and
    releases the lock; under the daq lock it generates and writes the
    waveforms of every daq for the current wavelength and starts them, then
    releases that lock. After no prefix of these events does the controller
    hold the camera lock and the daq lock together. *)
Theorem setup_live_sequence (c : string) (frames : count) (v : view) :
  let id := length (workers v) in
  let es := events_of (setup_live c frames) v in
  let v' := state_of (setup_live c frames) v in
  es = [WorkerCreated id; ConnectYielded id; ConnectFinished id; WorkerStart id;
        Acquire camera_lock; CameraPrepare c; CameraStart c frames; Release camera_lock;
        Acquire daq_lock]
       ++ flat_map (waveform_events (livestream_wavelength v)) (daqs (v_instrument v))
       ++ [Release daq_lock]
  ∧ workers v' !! id =
      Some {| w_camera := c; w_frames := frames; w_gen := GenCreated;
              w_started := true; w_abort_requested := false; w_finished := false;
              w_on_yielded := [CbUpdateLayer]; w_on_finished := [CbDismantleLive c] |}
  ∧ grab_frames_worker v' = Some id
  ∧ ∀ n, ¬ (camera_lock ∈ held_after (take n es) []
            ∧ daq_lock ∈ held_after (take n es) []).
Proof.
  intros id es v'. subst es v'. unfold events_of, state_of.
  rewrite setup_live_run. simpl. repeat split.
  - apply list_lookup_middle. reflexivity.
  - intros n. apply exclusive_prefix.
    change (exclusive camera_lock daq_lock []
              ([WorkerCreated id; ConnectYielded id; ConnectFinished id; WorkerStart id;
                Acquire camera_lock; CameraPrepare c; CameraStart c frames;
                Release camera_lock; Acquire daq_lock]
               ++ flat_map (waveform_events (livestream_wavelength v)) (daqs (v_instrument v))
               ++ [Release daq_lock]) = true).
    rewrite !exclusive_app, waveforms_keep_locks.
    rewrite waveforms_exclusive.
    + reflexivity.
    + vm_compute. intros [Hc _]. apply list_elem_of_In in Hc. simpl in Hc.
      destruct Hc as [Hc|[]]. discriminate.
Qed.

(** C5, as the code has it: on the STOPPING to IDLE transition
    [dismantle_live] takes the camera lock, calls [abort()] on the camera and
    releases the lock; then takes the daq lock, calls [stop_all()] on every
    daq and releases it. It changes no field of the view: the worker handle
    [grab_frames_worker] is what it was. *)
Theorem dismantle_live_sequence (c : string) (v : view) :
  events_of (dismantle_live c) v =
    [Acquire camera_lock; CameraAbort c; Release camera_lock; Acquire daq_lock]
    ++ map (λ d, DaqStopAll d.1) (daqs (v_instrument v)) ++ [Release daq_lock]
  ∧ state_of (dismantle_live c) v = v
  ∧ grab_frames_worker (state_of (dismantle_live c) v) = grab_frames_worker v.
Proof.
  unfold events_of, state_of. rewrite dismantle_live_run. simpl. auto.
Qed.

(** C5, counterexample: after a snapshot has run to its end and the
    teardown has been executed, worker 0 has finished and the handle
    [grab_frames_worker] still refers to it. *)
Lemma dismantle_live_keeps_handle :
  let v := (run [Press (SnapshotButton, "cam0"); WorkerStep 0; WorkerStep 0] demo_view).1 in
  (w_finished <$> workers v !! 0) = Some true
  ∧ camera_aborts "cam0"
      (run [Press (SnapshotButton, "cam0"); WorkerStep 0; WorkerStep 0] demo_view).2 = 1
  ∧ grab_frames_worker (state_of (dismantle_live "cam0") v) ≠ None.
Proof. vm_compute. repeat split; discriminate. Qed.

(** ** The presentation sink *)

Lemma update_layer_run (im : image) (c : string) (v : view) :
  update_layer (im, c) v =
  inr (set_layers
         (<[layer_name c (livestream_wavelength v) :=
              {| data := im;
                 mouse_drag_callbacks :=
                   match layers v !! layer_name c (livestream_wavelength v) with
                   | Some l => mouse_drag_callbacks l
                   | None => [CbSaveImage]
                   end |}]> (layers v)) v).
Proof.
  unfold update_layer, layers_getitem, set_layer_data, add_image_with_callback.
  destruct (layers v !! layer_name c (livestream_wavelength v)); reflexivity.
Qed.

(** C9: a frame event never raises out of [update_layer]. When the layer
    named after the camera and the current wavelength is absent, it is
    created with the frame as its data (and [save_image] as its mouse-drag
    callback); when it is present, its data is replaced by the frame and the
    rest of it is kept. No other layer and no other field of the view
    changes. *)
Theorem update_layer_creates_or_updates (im : image) (c : string) (v : view) :
  let name := layer_name c (livestream_wavelength v) in
  ∃ v', update_layer (im, c) v = inr v'
    ∧ (layers v !! name = None →
       layers v' !! name = Some {| data := im; mouse_drag_callbacks := [CbSaveImage] |})
    ∧ (∀ l, layers v !! name = Some l →
       layers v' !! name = Some {| data := im; mouse_drag_callbacks := mouse_drag_callbacks l |}
       ∧ dom (layers v') = dom (layers v))
    ∧ (∀ other, other ≠ name → layers v' !! other = layers v !! other)
    ∧ workers v' = workers v ∧ buttons v' = buttons v
    ∧ grab_frames_worker v' = grab_frames_worker v
    ∧ camera_grabs v' = camera_grabs v
    ∧ livestream_wavelength v' = livestream_wavelength v.
Proof.
  intros name. eexists. split; [apply update_layer_run|]. simpl. fold name.
  split; [|split; [|repeat split]].
  - intros Hnone. rewrite lookup_insert_eq, Hnone. reflexivity.
  - intros l Hl. split; [rewrite lookup_insert_eq, Hl; reflexivity|].
    apply set_eq. intros k. rewrite dom_insert, elem_of_union, elem_of_singleton.
    split; [|tauto]. intros [->|Hk]; [|exact Hk].
    apply elem_of_dom. eauto.
  - intros other Hne. by rewrite lookup_insert_ne.
Qed.

(** ** One iteration of the worker loop *)

#[local] Arguments update_layer : simpl never.
#[local] Arguments dismantle_live : simpl never.
#[local] Arguments setup_live : simpl never.

Lemma worker_step_yield (id : nat) (w : worker) (v : view) (j : Z) :
  workers v !! id = Some w →
  w_started w = true → w_abort_requested w = false → w_finished w = false →
  w_on_yielded w = [CbUpdateLayer] →
  next_index (w_gen w) = Some j →
  lt_count j (w_frames w) = true →
  let c := w_camera w in
  let g := default 0 (camera_grabs v !! c) in
  ∃ v1, worker_step id v = (v1, iteration_events id c (grab_frame (v_instrument v) c g))
      ∧ workers v1 = alter (set_gen (GenSuspended j)) id (workers v)
      ∧ camera_grabs v1 = <[c := S g]> (camera_grabs v)
      ∧ v_instrument v1 = v_instrument v.
Proof.
  intros Hw Hs Ha Hf Hy Hj Hlt c g.
  unfold worker_step. rewrite Hw, Hs, Ha, Hf. simpl.
  assert (Hnext : grab_frames_next id w = grab_frames_loop id c (w_frames w) j).
  { unfold grab_frames_next. destruct (w_gen w); simpl in Hj; by inversion Hj. }
  rewrite Hnext. unfold grab_frames_loop. rewrite Hlt.
  unfold with_lock, update_worker, bind, emit, read, update, ret. simpl.
  rewrite Hy. simpl. unfold bind, ret. rewrite update_layer_run. simpl.
  eexists. split; [reflexivity|]. simpl. auto.
Qed.

Lemma worker_step_stop (id : nat) (w : worker) (v : view) (j : Z) :
  workers v !! id = Some w →
  w_started w = true → w_abort_requested w = false → w_finished w = false →
  w_on_finished w = [CbDismantleLive (w_camera w)] →
  next_index (w_gen w) = Some j →
  lt_count j (w_frames w) = false →
  ∃ v1, worker_step id v =
          (v1, [(WorkerThread id, Finished id)]
               ++ tag Main (teardown_events (w_camera w) (daqs (v_instrument v))))
      ∧ workers v1 = alter set_finished id (alter (set_gen GenReturned) id (workers v))
      ∧ camera_grabs v1 = camera_grabs v
      ∧ v_instrument v1 = v_instrument v.
Proof.
  intros Hw Hs Ha Hf Hfin Hj Hlt.
  unfold worker_step. rewrite Hw, Hs, Ha, Hf. simpl.
  assert (Hnext : grab_frames_next id w = grab_frames_loop id (w_camera w) (w_frames w) j).
  { unfold grab_frames_next. destruct (w_gen w); simpl in Hj; by inversion Hj. }
  rewrite Hnext. unfold grab_frames_loop. rewrite Hlt.
  unfold worker_finish, update_worker, bind, emit, read, update, ret. simpl.
  rewrite Hfin. simpl. unfold bind, ret. rewrite dismantle_live_run. simpl.
  rewrite app_nil_r.
  eexists. split; [reflexivity|]. simpl. auto.
Qed.

Lemma worker_step_finished (id : nat) (w : worker) (v : view) :
  workers v !! id = Some w → w_finished w = true → worker_step id v = (v, []).
Proof.
  intros Hw Hf. unfold worker_step. rewrite Hw, Hf, orb_true_r. reflexivity.
Qed.

Lemma run_cons (l : label) (ls : list label) (v : view) :
  run (l :: ls) v = ((run ls (step l v).1).1, (step l v).2 ++ (run ls (step l v).1).2).
Proof. simpl. destruct (step l v) as [v1 e1]. simpl. by destruct (run ls v1). Qed.

Lemma run_finished (id : nat) (w : worker) (v : view) (n : nat) :
  workers v !! id = Some w → w_finished w = true →
  run (replicate n (WorkerStep id)) v = (v, []).
Proof.
  intros Hw Hf. induction n as [|n IH]; [reflexivity|].
  simpl replicate. rewrite run_cons. simpl step.
  rewrite (worker_step_finished _ _ _ Hw Hf). simpl. rewrite IH. reflexivity.
Qed.

(** ** A worker run to its end *)

Lemma flat_map_seq_S {B} (f : nat → list B) (n : nat) :
  ∀ s, flat_map f (seq (S s) n) = flat_map (λ k, f (S k)) (seq s n).
Proof. induction n as [|n IH]; intros s; simpl; [reflexivity|]. by rewrite IH. Qed.

Lemma worker_run (id : nat) (c : string) (N : Z) (n : nat) :
  ∀ (v : view) (w : worker) (j : Z),
    workers v !! id = Some w →
    w_camera w = c → w_frames w = Finite N →
    w_started w = true → w_abort_requested w = false → w_finished w = false →
    w_on_yielded w = [CbUpdateLayer] → w_on_finished w = [CbDismantleLive c] →
    next_index (w_gen w) = Some j →
    n = Z.to_nat (N - j) →
    ∃ v', run (replicate (S n) (WorkerStep id)) v =
            (v', flat_map (λ k, iteration_events id c
                                  (grab_frame (v_instrument v) c
                                     (default 0 (camera_grabs v !! c) + k)))
                          (seq 0 n)
                 ++ [(WorkerThread id, Finished id)]
                 ++ tag Main (teardown_events c (daqs (v_instrument v))))
        ∧ (w_finished <$> workers v' !! id) = Some true
        ∧ v_instrument v' = v_instrument v.
Proof.
  induction n as [|n IH]; intros v w j Hw Hc HN Hs Ha Hf Hy Hfin Hj Hn.
  - assert (Hlt : lt_count j (w_frames w) = false).
    { rewrite HN. simpl. apply Z.ltb_ge. lia. }
    rewrite <- Hc in Hfin.
    destruct (worker_step_stop id w v j Hw Hs Ha Hf Hfin Hj Hlt)
      as (v1 & Hstep & Hws & _ & Hins).
    exists v1. simpl replicate. rewrite run_cons. simpl step. rewrite Hstep.
    simpl run. rewrite app_nil_r, Hc. split; [reflexivity|]. split; [|exact Hins].
    rewrite Hws, !list_lookup_alter_eq, Hw. reflexivity.
  - assert (Hlt : lt_count j (w_frames w) = true).
    { rewrite HN. simpl. apply Z.ltb_lt. lia. }
    destruct (worker_step_yield id w v j Hw Hs Ha Hf Hy Hj Hlt)
      as (v1 & Hstep & Hws & Hgr & Hins).
    rewrite Hc in Hstep, Hgr.
    assert (Hw1 : workers v1 !! id = Some (set_gen (GenSuspended j) w)).
    { rewrite Hws, list_lookup_alter_eq, Hw. reflexivity. }
    destruct (IH v1 (set_gen (GenSuspended j) w) (j + 1)%Z Hw1 Hc HN Hs Ha Hf Hy Hfin)
      as (v' & Hrun & Hdone & Hins').
    { reflexivity. }
    { lia. }
    exists v'. change (replicate (S (S n)) (WorkerStep id))
      with (WorkerStep id :: replicate (S n) (WorkerStep id)).
    rewrite run_cons. simpl step. rewrite Hstep. cbn [fst snd].
    rewrite Hrun. cbn [fst snd].
    split; [|split; [exact Hdone | congruence]].
    f_equal. rewrite Hins, Hgr, lookup_insert_eq. simpl default.
    change (seq 0 (S n)) with (0 :: seq 1 n). cbn [flat_map]. rewrite flat_map_seq_S.
    rewrite Nat.add_0_r, <- app_assoc. do 2 f_equal.
    apply flat_map_ext. intros k. by rewrite Nat.add_succ_r.
Qed.

(** ** Counting in traces *)

Lemma tag_app (ctx : context) (es1 es2 : list event) :
  tag ctx (es1 ++ es2) = tag ctx es1 ++ tag ctx es2.
Proof. apply map_app. Qed.

Lemma frames_emitted_app (tr1 tr2 : list (context * event)) :
  frames_emitted (tr1 ++ tr2) = frames_emitted tr1 ++ frames_emitted tr2.
Proof. apply omap_app. Qed.

Lemma frames_emitted_iterations (id : nat) (c : string) (f : nat → image) (ks : list nat) :
  frames_emitted (flat_map (λ k, iteration_events id c (f k)) ks) = map (λ k, (f k, c)) ks.
Proof.
  induction ks as [|k ks IH]; [reflexivity|].
  cbn [flat_map]. rewrite frames_emitted_app, IH. reflexivity.
Qed.

Lemma frames_emitted_stops (ctx : context) (ds : list (string * daq_tasks)) :
  frames_emitted (tag ctx (map (λ d, DaqStopAll d.1) ds)) = [].
Proof. induction ds as [|d ds IH]; [reflexivity|exact IH]. Qed.

Lemma frames_emitted_teardown (ctx : context) (c : string) (ds : list (string * daq_tasks)) :
  frames_emitted (tag ctx (teardown_events c ds)) = [].
Proof.
  unfold teardown_events. rewrite !tag_app, !frames_emitted_app, frames_emitted_stops.
  reflexivity.
Qed.

Lemma camera_aborts_app (c : string) (tr1 tr2 : list (context * event)) :
  camera_aborts c (tr1 ++ tr2) = camera_aborts c tr1 + camera_aborts c tr2.
Proof. unfold camera_aborts. by rewrite filter_app, length_app. Qed.

Lemma camera_aborts_iterations (id : nat) (c c' : string) (f : nat → image) (ks : list nat) :
  camera_aborts c (flat_map (λ k, iteration_events id c' (f k)) ks) = 0.
Proof.
  induction ks as [|k ks IH]; [reflexivity|].
  cbn [flat_map]. rewrite camera_aborts_app, IH. reflexivity.
Qed.

Lemma camera_aborts_stops (ctx : context) (c : string) (ds : list (string * daq_tasks)) :
  camera_aborts c (tag ctx (map (λ d, DaqStopAll d.1) ds)) = 0.
Proof. induction ds as [|d ds IH]; [reflexivity|exact IH]. Qed.

Lemma camera_aborts_teardown (ctx : context) (c : string) (ds : list (string * daq_tasks)) :
  camera_aborts c (tag ctx (teardown_events c ds)) = 1.
Proof.
  unfold teardown_events.
  change ([Acquire camera_lock; CameraAbort c; Release camera_lock; Acquire daq_lock])
    with ([Acquire camera_lock] ++ [CameraAbort c] ++ [Release camera_lock; Acquire daq_lock]).
  rewrite !tag_app, !camera_aborts_app, camera_aborts_stops.
  assert (Hone : camera_aborts c (tag ctx [CameraAbort c]) = 1).
  { unfold camera_aborts. simpl tag. rewrite filter_cons_True by reflexivity. reflexivity. }
  rewrite Hone. reflexivity.
Qed.

Lemma daq_stops_app (tr1 tr2 : list (context * event)) :
  daq_stops (tr1 ++ tr2) = daq_stops tr1 + daq_stops tr2.
Proof. unfold daq_stops. by rewrite filter_app, length_app. Qed.

Lemma daq_stops_iterations (id : nat) (c : string) (f : nat → image) (ks : list nat) :
  daq_stops (flat_map (λ k, iteration_events id c (f k)) ks) = 0.
Proof.
  induction ks as [|k ks IH]; [reflexivity|].
  cbn [flat_map]. rewrite daq_stops_app, IH. reflexivity.
Qed.

Lemma daq_stops_stops (ctx : context) (ds : list (string * daq_tasks)) :
  daq_stops (tag ctx (map (λ d, DaqStopAll d.1) ds)) = length ds.
Proof.
  induction ds as [|d ds IH]; [reflexivity|].
  unfold daq_stops in *. cbn [map tag]. rewrite filter_cons_True by reflexivity.
  cbn [length]. f_equal. exact IH.
Qed.

Lemma daq_stops_teardown (ctx : context) (c : string) (ds : list (string * daq_tasks)) :
  daq_stops (tag ctx (teardown_events c ds)) = length ds.
Proof.
  unfold teardown_events. rewrite !tag_app, !daq_stops_app, daq_stops_stops.
  change (daq_stops (tag ctx [Acquire camera_lock; CameraAbort c; Release camera_lock;
                              Acquire daq_lock])) with 0.
  change (daq_stops (tag ctx [Release daq_lock])) with 0. lia.
Qed.

Lemma thread_events_app (ctx : context) (tr1 tr2 : list (context * event)) :
  thread_events ctx (tr1 ++ tr2) = thread_events ctx tr1 ++ thread_events ctx tr2.
Proof. apply omap_app. Qed.

Lemma thread_events_cons (ctx ctx' : context) (e : event) (tr : list (context * event)) :
  thread_events ctx ((ctx', e) :: tr) =
  if decide (ctx' = ctx) then e :: thread_events ctx tr else thread_events ctx tr.
Proof. unfold thread_events. simpl. by destruct (decide (ctx' = ctx)). Qed.

Lemma thread_events_same (ctx : context) (es : list event) :
  thread_events ctx (tag ctx es) = es.
Proof.
  induction es as [|e es IH]; [reflexivity|].
  change (tag ctx (e :: es)) with ((ctx, e) :: tag ctx es).
  rewrite thread_events_cons, decide_True by reflexivity. by rewrite IH.
Qed.

Lemma thread_events_other (ctx ctx' : context) (es : list event) :
  ctx' ≠ ctx → thread_events ctx (tag ctx' es) = [].
Proof.
  intros Hne. induction es as [|e es IH]; [reflexivity|].
  change (tag ctx' (e :: es)) with ((ctx', e) :: tag ctx' es).
  rewrite thread_events_cons, decide_False by exact Hne. exact IH.
Qed.

(** ** A session with a finite frame count, from start to teardown *)

Lemma session_run (c : string) (N : Z) (v : view) :
  ∃ v', run (replicate (S (Z.to_nat N)) (WorkerStep (length (workers v))))
            (state_of (setup_live c (Finite N)) v) =
          (v', flat_map (λ k, iteration_events (length (workers v)) c
                                (grab_frame (v_instrument v) c
                                   (default 0 (camera_grabs v !! c) + k)))
                        (seq 0 (Z.to_nat N))
               ++ [(WorkerThread (length (workers v)), Finished (length (workers v)))]
               ++ tag Main (teardown_events c (daqs (v_instrument v))))
      ∧ (w_finished <$> workers v' !! length (workers v)) = Some true.
Proof.
  unfold state_of. rewrite setup_live_run. cbn [fst snd].
  set (v1 := set_grab_frames_worker _ _).
  assert (Hw : workers v1 !! length (workers v) = Some (started_worker c (Finite N))).
  { subst v1. simpl. apply list_lookup_middle. reflexivity. }
  destruct (worker_run (length (workers v)) c N (Z.to_nat N) v1
              (started_worker c (Finite N)) 0%Z Hw) as (v' & Hrun & Hdone & _);
    try reflexivity.
  { f_equal. lia. }
  exists v'. split; [exact Hrun | exact Hdone].
Qed.

Lemma finished_stays (id : nat) (v : view) (more : nat) :
  (w_finished <$> workers v !! id) = Some true →
  run (replicate more (WorkerStep id)) v = (v, []).
Proof.
  intros Hdone. destruct (workers v !! id) as [w|] eqn:Hw; [|discriminate].
  apply (run_finished id w); [exact Hw|]. simpl in Hdone. congruence.
Qed.

(** C1: a worker started by [setup_live] with a finite count [N >= 0], and
    not asked to quit, emits exactly [N] frames, the k-th being the k-th
    frame it grabbed, in that order; then its loop ends, [finished] is
    emitted and the teardown runs: the camera is aborted once and every daq
    is stopped once. Further steps of the worker do nothing. *)
Theorem finite_count_emits_exactly_N (c : string) (N : Z) (v : view) :
  (0 ≤ N)%Z →
  let id := length (workers v) in
  let g := default 0 (camera_grabs v !! c) in
  let r := run (replicate (S (Z.to_nat N)) (WorkerStep id))
               (state_of (setup_live c (Finite N)) v) in
  r.2 = flat_map (λ k, iteration_events id c (grab_frame (v_instrument v) c (g + k)))
                 (seq 0 (Z.to_nat N))
        ++ [(WorkerThread id, Finished id)]
        ++ tag Main (teardown_events c (daqs (v_instrument v)))
  ∧ frames_emitted r.2
    = map (λ k, (grab_frame (v_instrument v) c (g + k), c)) (seq 0 (Z.to_nat N))
  ∧ Z.of_nat (length (frames_emitted r.2)) = N
  ∧ (w_finished <$> workers r.1 !! id) = Some true
  ∧ camera_aborts c r.2 = 1
  ∧ daq_stops r.2 = length (daqs (v_instrument v))
  ∧ ∀ more, run (replicate more (WorkerStep id)) r.1 = (r.1, []).
Proof.
  intros HN id g r.
  destruct (session_run c N v) as (v' & Hrun & Hdone).
  fold id in Hrun, Hdone. fold g in Hrun.
  assert (Hr : r = (v', flat_map (λ k, iteration_events id c
                                         (grab_frame (v_instrument v) c (g + k)))
                                 (seq 0 (Z.to_nat N))
                        ++ [(WorkerThread id, Finished id)]
                        ++ tag Main (teardown_events c (daqs (v_instrument v))))).
  { subst r. exact Hrun. }
  rewrite Hr. cbn [fst snd].
  assert (Hfr : frames_emitted
                  (flat_map (λ k, iteration_events id c
                                    (grab_frame (v_instrument v) c (g + k)))
                            (seq 0 (Z.to_nat N))
                   ++ [(WorkerThread id, Finished id)]
                   ++ tag Main (teardown_events c (daqs (v_instrument v))))
                = map (λ k, (grab_frame (v_instrument v) c (g + k), c)) (seq 0 (Z.to_nat N))).
  { rewrite !frames_emitted_app, frames_emitted_teardown.
    rewrite (frames_emitted_iterations id c (λ k, grab_frame (v_instrument v) c (g + k))).
    simpl. by rewrite app_nil_r. }
  split; [reflexivity|]. split; [exact Hfr|]. split.
  { rewrite Hfr, length_map, length_seq. lia. }
  split; [exact Hdone|]. split.
  { rewrite !camera_aborts_app, camera_aborts_teardown.
    rewrite (camera_aborts_iterations id c c (λ k, grab_frame (v_instrument v) c (g + k))).
    reflexivity. }
  split.
  { rewrite !daq_stops_app, daq_stops_teardown.
    rewrite (daq_stops_iterations id c (λ k, grab_frame (v_instrument v) c (g + k))).
    reflexivity. }
  intros more. by apply finished_stays.
Qed.

(** C1, at a snapshot of the sample instrument ([frames = 1]). *)
Lemma finite_count_emits_exactly_N_witness :
  (0 ≤ 1)%Z
  ∧ frames_emitted
      (run (replicate 2 (WorkerStep 0)) (state_of (setup_live "cam0" (Finite 1)) demo_view)).2
    = [([[0%Z]], "cam0")]
  ∧ camera_aborts "cam0"
      (run (replicate 2 (WorkerStep 0)) (state_of (setup_live "cam0" (Finite 1)) demo_view)).2
    = 1.
Proof.
  split; [lia|].
  pose proof (finite_count_emits_exactly_N "cam0" 1 demo_view ltac:(lia)) as H.
  cbv zeta in H. destruct H as (_ & Hfr & _ & _ & Hab & _).
  split; [exact Hfr | exact Hab].
Defined.

(** The snapshot scenario on the sample instrument: one click on the
    snapshot button and two iterations of the worker loop give one frame and
    one teardown; no stop is requested. *)
Lemma snapshot_emits_one_frame_then_tears_down :
  let tr := (run [Press (SnapshotButton, "cam0"); WorkerStep 0; WorkerStep 0] demo_view).2 in
  frames_emitted tr = [([[0%Z]], "cam0")]
  ∧ camera_aborts "cam0" tr = 1
  ∧ daq_stops tr = 1
  ∧ thread_events (WorkerThread 0) tr
    = [Acquire camera_lock; CameraGrabFrame "cam0"; Release camera_lock;
       YieldFrame [[0%Z]] "cam0"; Finished 0].
Proof. vm_compute. repeat split; reflexivity. Qed.

(** C10: a worker started by [setup_live] with a count [N <= 0] ends at its
    first step: it emits no frame, its thread takes no lock (its only event is
    [finished]), and the teardown connected to [finished] runs once: the
    camera is aborted once and every daq is stopped once. *)
Theorem nonpositive_count_emits_nothing (c : string) (N : Z) (v : view) :
  (N ≤ 0)%Z →
  let id := length (workers v) in
  let r := run [WorkerStep id] (state_of (setup_live c (Finite N)) v) in
  r.2 = [(WorkerThread id, Finished id)]
        ++ tag Main (teardown_events c (daqs (v_instrument v)))
  ∧ frames_emitted r.2 = []
  ∧ thread_events (WorkerThread id) r.2 = [Finished id]
  ∧ (w_finished <$> workers r.1 !! id) = Some true
  ∧ camera_aborts c r.2 = 1
  ∧ daq_stops r.2 = length (daqs (v_instrument v))
  ∧ ∀ more, run (replicate more (WorkerStep id)) r.1 = (r.1, []).
Proof.
  intros HN id r.
  destruct (session_run c N v) as (v' & Hrun & Hdone).
  fold id in Hrun, Hdone.
  replace (Z.to_nat N) with 0 in Hrun by lia.
  cbn [replicate seq flat_map app] in Hrun.
  assert (Hr : r = (v', [(WorkerThread id, Finished id)]
                        ++ tag Main (teardown_events c (daqs (v_instrument v))))).
  { subst r. exact Hrun. }
  rewrite Hr. cbn [fst snd].
  split; [reflexivity|]. split.
  { rewrite frames_emitted_app, frames_emitted_teardown. reflexivity. }
  split.
  { rewrite thread_events_app, thread_events_other by discriminate.
    change [(WorkerThread id, Finished id)] with (tag (WorkerThread id) [Finished id]).
    by rewrite thread_events_same. }
  split; [exact Hdone|]. split.
  { rewrite camera_aborts_app, camera_aborts_teardown. reflexivity. }
  split.
  { rewrite daq_stops_app, daq_stops_teardown. reflexivity. }
  intros more. by apply finished_stays.
Qed.

(** C10, at [frames = 0] on the sample instrument. *)
Lemma nonpositive_count_emits_nothing_witness :
  (0 ≤ 0)%Z
  ∧ (run [WorkerStep 0] (state_of (setup_live "cam0" (Finite 0)) demo_view)).2
    = [(WorkerThread 0, Finished 0)]
      ++ tag Main (teardown_events "cam0" (daqs demo_instrument)).
Proof.
  split; [lia|].
  pose proof (nonpositive_count_emits_nothing "cam0" 0 demo_view ltac:(lia)) as H.
  cbv zeta in H. exact (proj1 H).
Defined.

(** ** The worker thread follows the lock protocol *)

Lemma protocol_app (es1 es2 : list event) :
  ∀ p, protocol p (es1 ++ es2) =
       match protocol p es1 with
       | Some p' => protocol p' es2
       | None => None
       end.
Proof.
  induction es1 as [|e es1 IH]; intros p; simpl; [reflexivity|].
  destruct (phase_step p e); [apply IH | reflexivity].
Qed.

Lemma worker_finish_shape (id : nat) (w : worker) (v : view) :
  ∃ b, (worker_finish id w v).2 = tag (WorkerThread id) [Finished id] ++ tag Main b.
Proof.
  unfold worker_finish, update_worker, bind, emit, update. simpl.
  destruct (for_each (w_on_finished w) _ _) as [[[] v2] e2]. simpl. by exists e2.
Qed.

Lemma grab_frames_loop_shape (id : nat) (c : string) (frames : count) (i : Z) (v : view) :
  (value_of (grab_frames_loop id c frames i) v = GenStop
   ∧ events_of (grab_frames_loop id c frames i) v = [])
  ∨ (∃ im, value_of (grab_frames_loop id c frames i) v = GenYield (im, c)
         ∧ events_of (grab_frames_loop id c frames i) v =
             [Acquire camera_lock; CameraGrabFrame c; Release camera_lock; YieldFrame im c]).
Proof.
  unfold value_of, events_of, grab_frames_loop.
  destruct (lt_count i frames).
  - right. eexists. split; reflexivity.
  - left. split; reflexivity.
Qed.

Lemma grab_frames_next_shape (id : nat) (w : worker) (v : view) :
  (value_of (grab_frames_next id w) v = GenStop
   ∧ events_of (grab_frames_next id w) v = [])
  ∨ (∃ im, value_of (grab_frames_next id w) v = GenYield (im, w_camera w)
         ∧ events_of (grab_frames_next id w) v =
             [Acquire camera_lock; CameraGrabFrame (w_camera w); Release camera_lock;
              YieldFrame im (w_camera w)]).
Proof.
  unfold grab_frames_next. destruct (w_gen w).
  - apply grab_frames_loop_shape.
  - apply grab_frames_loop_shape.
  - left. split; reflexivity.
Qed.

Lemma worker_step_shape (id : nat) (v : view) :
  ∃ a b, (worker_step id v).2 = tag (WorkerThread id) a ++ tag Main b
       ∧ (a = [] ∨ a = [Finished id]
          ∨ ∃ c im, a = [Acquire camera_lock; CameraGrabFrame c; Release camera_lock;
                         YieldFrame im c]).
Proof.
  unfold worker_step.
  destruct (workers v !! id) as [w|]; [|by exists [], []; auto].
  destruct (negb (w_started w) || w_finished w); [by exists [], []; auto|].
  destruct (w_abort_requested w).
  { destruct (worker_finish_shape id w v) as [b Hb]. exists [Finished id], b. auto. }
  pose proof (grab_frames_next_shape id w v) as Hshape.
  unfold value_of, events_of in Hshape.
  destruct (grab_frames_next id w v) as [[r v1] e1]. simpl in Hshape.
  destruct Hshape as [[-> ->] | (im & -> & ->)].
  - destruct (worker_finish_shape id w v1) as [b Hb].
    destruct (worker_finish id w v1) as [v2 e2]. simpl in *.
    exists [Finished id], b. auto.
  - destruct (for_each (w_on_yielded w) _ v1) as [[[] v2] e2]. simpl.
    exists [Acquire camera_lock; CameraGrabFrame (w_camera w); Release camera_lock;
            YieldFrame im (w_camera w)], e2.
    split; [reflexivity|]. right. right. eauto.
Qed.

Lemma step_follows_protocol (l : label) (v : view) (id : nat) :
  protocol Unlocked (thread_events (WorkerThread id) (step l v).2) = Some Unlocked.
Proof.
  destruct l as [b|b|id']; simpl.
  - unfold press. destruct (buttons v !! b) as [st|]; [|reflexivity].
    destruct (b_enabled st); [|reflexivity].
    destruct (for_each (b_pressed st) run_slot v) as [[[] v'] es]. simpl.
    by rewrite thread_events_other.
  - unfold timeout. destruct (buttons v !! b) as [st|]; [|reflexivity].
    destruct (b_timers st); reflexivity.
  - destruct (worker_step_shape id' v) as (a & b & -> & Ha).
    rewrite thread_events_app, (thread_events_other _ Main) by discriminate.
    rewrite app_nil_r.
    destruct (decide (id' = id)) as [->|Hne].
    + rewrite thread_events_same.
      destruct Ha as [->|[->|(c & im & ->)]]; reflexivity.
    + rewrite thread_events_other by congruence. reflexivity.
Qed.

Lemma run_follows_protocol (ls : list label) (id : nat) :
  ∀ v, protocol Unlocked (thread_events (WorkerThread id) (run ls v).2) = Some Unlocked.
Proof.
  induction ls as [|l ls IH]; intros v; [reflexivity|].
  rewrite run_cons. cbn [snd]. rewrite thread_events_app, protocol_app.
  rewrite step_follows_protocol. apply IH.
Qed.

Lemma locks_held_thread (ctx : context) (tr : list (context * event)) :
  ∀ h, locks_held ctx tr h = held_after (thread_events ctx tr) h.
Proof.
  induction tr as [|[ctx' e] tr IH]; intros h; [reflexivity|].
  rewrite thread_events_cons. simpl. destruct (decide (ctx' = ctx)); [|apply IH].
  destruct e; apply IH.
Qed.

Lemma phase_step_locks (p p' : phase) (e : event) :
  phase_step p e = Some p' → held_step e (phase_locks p) = phase_locks p'.
Proof.
  destruct p, e as [[t]|[t]| | | | | | | | | | | | | | | | | |];
    try destruct t; simpl; intros [= <-]; reflexivity.
Qed.

Lemma protocol_locks (es : list event) :
  ∀ p p', protocol p es = Some p' → held_after es (phase_locks p) = phase_locks p'.
Proof.
  induction es as [|e es IH]; intros p p' Hp; simpl in Hp.
  - by inversion Hp.
  - destruct (phase_step p e) as [p1|] eqn:Hstep; [|discriminate].
    simpl. rewrite (phase_step_locks _ _ _ Hstep). by apply IH.
Qed.

(** What the thread holds just before an event of an accepted trace. *)
Lemma protocol_before (es1 es2 : list event) (e : event) (p' : phase) :
  protocol Unlocked (es1 ++ e :: es2) = Some p' →
  ∃ p1 p2, phase_step p1 e = Some p2 ∧ held_after es1 [] = phase_locks p1.
Proof.
  rewrite protocol_app. destruct (protocol Unlocked es1) as [p1|] eqn:H1; [|discriminate].
  simpl. destruct (phase_step p1 e) as [p2|] eqn:Hstep; [|discriminate].
  intros _. exists p1, p2. split; [exact Hstep|].
  exact (protocol_locks es1 Unlocked p1 H1).
Qed.

Lemma locks_before_event (ls : list label) (v : view) (id n : nat) (e : event) :
  (run ls v).2 !! n = Some (WorkerThread id, e) →
  ∃ p1 p2, phase_step p1 e = Some p2
         ∧ locks_held (WorkerThread id) (take n (run ls v).2) [] = phase_locks p1.
Proof.
  intros Hn. pose proof (run_follows_protocol ls id v) as Hp.
  rewrite <- (take_drop_middle _ _ _ Hn) in Hp.
  rewrite thread_events_app, thread_events_cons, decide_True in Hp by reflexivity.
  destruct (protocol_before _ _ _ _ Hp) as (p1 & p2 & Hstep & Hheld).
  exists p1, p2. split; [exact Hstep|]. by rewrite locks_held_thread.
Qed.

(** C6: in every run of the session, from any view, the events of a worker
    thread follow the protocol: take the camera lock, grab, release the
    lock, and only then emit the frame. The thread holds the camera lock
    when it grabs a frame and holds no lock when it emits one. *)
Theorem worker_releases_lock_before_yield (ls : list label) (v : view) (id : nat) :
  protocol Unlocked (thread_events (WorkerThread id) (run ls v).2) = Some Unlocked
  ∧ (∀ n c, (run ls v).2 !! n = Some (WorkerThread id, CameraGrabFrame c) →
            locks_held (WorkerThread id) (take n (run ls v).2) [] = [camera_lock])
  ∧ (∀ n im c, (run ls v).2 !! n = Some (WorkerThread id, YieldFrame im c) →
               locks_held (WorkerThread id) (take n (run ls v).2) [] = []).
Proof.
  split; [apply run_follows_protocol|]. split.
  - intros n c Hn. destruct (locks_before_event ls v id n _ Hn) as (p1 & p2 & Hstep & ->).
    by destruct p1.
  - intros n im c Hn. destruct (locks_before_event ls v id n _ Hn) as (p1 & p2 & Hstep & ->).
    by destruct p1.
Qed.

(** ** The stage poller *)

(** The events of polling one stage, as the code produces them. *)
Lemma grab_stage_positions_cycle_run (v : view) :
  grab_stage_positions_cycle v =
  (tt, v,
   Sleep :: flat_map (λ s, [Acquire tiling_stage_lock; StagePosition s.1;
                            Release tiling_stage_lock; YieldPosition s.1 s.2])
              (dict_merge (scanning_stages (v_instrument v)) (tiling_stages (v_instrument v)))).
Proof.
  unfold grab_stage_positions_cycle, bind, emit, read. simpl.
  rewrite (for_each_emits _ _ (λ s, [Acquire tiling_stage_lock; StagePosition s.1;
                                     Release tiling_stage_lock; YieldPosition s.1 s.2])).
  - reflexivity.
  - intros [name stage] v0. reflexivity.
Qed.

Lemma poll_events_no_scanning_lock (ss : list (string * position_value)) :
  Acquire scanning_stage_lock ∉
    flat_map (λ s, [Acquire tiling_stage_lock; StagePosition s.1;
                    Release tiling_stage_lock; YieldPosition s.1 s.2]) ss.
Proof.
  induction ss as [|s ss IH]; simpl.
  - apply not_elem_of_nil.
  - rewrite !not_elem_of_cons. repeat split; try discriminate. exact IH.
Qed.

(** However long the poller runs, it never takes the scanning-stage lock. *)
Lemma poller_never_takes_scanning_lock (cycles : nat) (v : view) :
  Acquire scanning_stage_lock ∉ events_of (grab_stage_positions cycles) v.
Proof.
  unfold events_of. induction cycles as [|n IH]; simpl.
  - apply not_elem_of_nil.
  - unfold bind. rewrite grab_stage_positions_cycle_run.
    destruct (grab_stage_positions n v) as [[[] v'] es] eqn:Hn. simpl in *.
    rewrite not_elem_of_cons, not_elem_of_app.
    split; [discriminate|]. split; [apply poll_events_no_scanning_lock | exact IH].
Qed.

(** C3, the code at an instrument with one scanning stage ["z"] and one
    tiling stage ["xy"]: in one cycle the poller reads the position of each
    stage under the tiling-stage lock alone and releases it before it emits;
    the scanning-stage lock is not taken, since
    [self.scanning_stage_lock and self.tiling_stage_lock] evaluates to the
    second lock. *)
Theorem poller_holds_only_tiling_lock :
  py_and scanning_stage_lock tiling_stage_lock = tiling_stage_lock
  ∧ events_of (grab_stage_positions 1) demo_view =
      [Sleep;
       Acquire tiling_stage_lock; StagePosition "z"; Release tiling_stage_lock;
       YieldPosition "z" (Scalar 5);
       Acquire tiling_stage_lock; StagePosition "xy"; Release tiling_stage_lock;
       YieldPosition "xy" (PerAxis [("x", 1%Z); ("y", 2%Z)])]
  ∧ Acquire scanning_stage_lock ∉ events_of (grab_stage_positions 1) demo_view.
Proof.
  split; [reflexivity|]. split; [reflexivity|].
  apply poller_never_takes_scanning_lock.
Qed.

(** ** The capability scan *)

Lemma scan_loop_keys (d : device) (names : list string) :
  ∀ (acc r : gmap string value),
    scan_loop d names acc = inr r →
    ∀ k, is_Some (r !! k) ↔
         is_Some (acc !! k) ∨ (k ∈ names ∧ is_property (dev_class d !! k) = true).
Proof.
  induction names as [|n names IH]; intros acc r Hr k; simpl in Hr.
  - inversion Hr; subst. rewrite elem_of_nil. tauto.
  - rewrite elem_of_cons.
    destruct (is_property (dev_class d !! n)) eqn:Hp.
    + destruct (py_getattr_default d n VNone) as [e|x]; [discriminate|].
      rewrite (IH _ _ Hr k), lookup_insert_is_Some.
      destruct (decide (n = k)) as [->|Hne]; [tauto|].
      split; [intros [[?|[_ ?]]|[? ?]]|intros [?|[[?|?] ?]]]; auto; congruence.
    + rewrite (IH _ _ Hr k).
      split; [intros [?|[? ?]]|intros [?|[[?|?] ?]]]; auto; congruence.
Qed.

Lemma elem_of_dir (d : device) (k : string) :
  k ∈ dir d ↔ k ∈ dom (dev_class d) ∨ k ∈ dom (dev_dict d).
Proof.
  unfold dir. rewrite merge_sort_Permutation, elem_of_elements, elem_of_union.
  reflexivity.
Qed.

(** The record holds exactly the properties of the class, with or without
    a setter. *)
Lemma scan_for_properties_keys (d : device) (r : gmap string value) :
  scan_for_properties d = inr r →
  ∀ k, is_Some (r !! k) ↔ is_property (dev_class d !! k) = true.
Proof.
  intros Hr k. unfold scan_for_properties in Hr.
  rewrite (scan_loop_keys _ _ _ _ Hr k), lookup_empty, elem_of_dir.
  split.
  - intros [[x Hx]|[_ Hp]]; [discriminate | exact Hp].
  - intros Hp. right. split; [|exact Hp]. left.
    apply elem_of_dom. destruct (dev_class d !! k); [eauto | discriminate].
Qed.

(** Every property with a setter is in the record. *)
Lemma scan_for_properties_has_settable (d : device) (r : gmap string value) (k : string) :
  scan_for_properties d = inr r → has_setter d k = true → is_Some (r !! k).
Proof.
  intros Hr Hs. apply (scan_for_properties_keys d r Hr).
  unfold has_setter in Hs. destruct (dev_class d !! k) as [[p|]|]; try discriminate.
  reflexivity.
Qed.

(** C8, the code at a device whose class has the settable property
    [exposure] and the read-only properties [frame_rate] and [serial]: the
    scan returns all three, so the record has attributes without a setter. *)
Theorem scan_includes_read_only_properties :
  scan_for_properties demo_device =
    inr (<["exposure" := VInt 10]> (<["frame_rate" := VInt 990]>
         (<["serial" := VStr "A1"]> ∅)))
  ∧ has_setter demo_device "exposure" = true
  ∧ has_setter demo_device "frame_rate" = false
  ∧ has_setter demo_device "serial" = false.
Proof. vm_compute. repeat split; reflexivity. Qed.

(** ** The property bridge *)

Lemma refresh_widget_run (d : device) (keys : list string) :
  ∀ w, (∀ k, k ∈ keys → ∃ y, py_getattr d k = inr y) →
       ∃ w', refresh_widget d keys w = inr w'
           ∧ property_widgets w' = property_widgets w
           ∧ (∀ k, k ∈ keys → ∃ y, py_getattr d k = inr y ∧ widget_attrs w' !! k = Some y)
           ∧ (∀ k, k ∉ keys → widget_attrs w' !! k = widget_attrs w !! k).
Proof.
  induction keys as [|k0 keys IH]; intros w Hread; simpl.
  - exists w. repeat split; auto. intros k Hk. by apply elem_of_nil in Hk.
  - destruct (Hread k0) as [y0 Hy0]; [left|]. rewrite Hy0.
    destruct (IH (widget_setattr w k0 y0)) as (w' & Hrun & Hpw & Hin & Hout).
    { intros k Hk. apply Hread. by right. }
    exists w'. split; [exact Hrun|]. split; [exact Hpw|]. split.
    + intros k Hk. destruct (decide (k ∈ keys)) as [Hrest|Hrest]; [by apply Hin|].
      apply elem_of_cons in Hk. destruct Hk as [->|Hk]; [|contradiction].
      exists y0. split; [exact Hy0|].
      rewrite (Hout k0 Hrest). simpl. apply lookup_insert_eq.
    + intros k Hk. apply not_elem_of_cons in Hk. destruct Hk as [Hne Hk].
      rewrite (Hout k Hk). simpl. by apply lookup_insert_ne.
Qed.

(** C7: when the edit of attribute [name] writes the widget's value [x] to
    the device, giving the device state [d'], and the tracked attributes can
    be read, [device_property_changed] returns with a widget in which every
    tracked attribute shows the value the device reports in state [d'], the
    state after the write. *)
Theorem bridge_displays_post_write_report
    (name : string) (d d' : device) (w : widget) (t : device_type) (x : value) :
  widget_getattr w (split_dot_head name) = inr x →
  py_setattr d (split_dot_head name) x = inr d' →
  (∃ y0, py_getattr d' (split_dot_head name) = inr y0) →
  (∀ k, k ∈ property_widgets w → ∃ y, py_getattr d' k = inr y) →
  ∃ w', (device_property_changed name d w t).2 = inr (d', w')
      ∧ property_widgets w' = property_widgets w
      ∧ ∀ k, k ∈ property_widgets w →
             ∃ y, py_getattr d' k = inr y ∧ widget_attrs w' !! k = Some y.
Proof.
  intros Hx Hset [y0 Hy0] Hread.
  destruct (refresh_widget_run d' (property_widgets w) w Hread)
    as (w' & Hrun & Hpw & Hin & _).
  exists w'. split; [|split; [exact Hpw | exact Hin]].
  unfold device_property_changed, device_property_changed_body. cbn [snd].
  rewrite Hx, Hset, Hy0, Hrun. reflexivity.
Qed.

(** C7, at the sample device: the operator types 250 into the exposure
    field; the device clamps it to 100 and its frame rate follows. *)
Lemma bridge_displays_post_write_report_witness :
  widget_getattr demo_widget (split_dot_head "exposure") = inr (VInt 250)
  ∧ py_setattr demo_device (split_dot_head "exposure") (VInt 250) = inr demo_device_after
  ∧ ∃ w', (device_property_changed "exposure" demo_device demo_widget camera).2
          = inr (demo_device_after, w')
        ∧ property_widgets w' = property_widgets demo_widget
        ∧ ∀ k, k ∈ property_widgets demo_widget →
               ∃ y, py_getattr demo_device_after k = inr y ∧ widget_attrs w' !! k = Some y.
Proof.
  split; [reflexivity|]. split; [reflexivity|].
  apply (bridge_displays_post_write_report "exposure" demo_device demo_device_after
           demo_widget camera (VInt 250)).
  - reflexivity.
  - reflexivity.
  - exists (VInt 100). reflexivity.
  - intros k Hk. simpl in Hk.
    apply elem_of_cons in Hk. destruct Hk as [->|Hk]; [by exists (VInt 100)|].
    apply elem_of_cons in Hk. destruct Hk as [->|Hk]; [by exists (VInt 900)|].
    apply elem_of_cons in Hk. destruct Hk as [->|Hk]; [by exists (VStr "A1")|].
    by apply elem_of_nil in Hk.
Defined.

(** The displayed exposure after that edit is the device's report (100),
    neither the value typed (250) nor the value before the write (10); the
    frame rate shown is the one the write produced. *)
Lemma bridge_shows_clamped_value :
  (λ r, match r with
        | inr (_, w') => (widget_attrs w' !! "exposure", widget_attrs w' !! "frame_rate")
        | inl _ => (None, None)
        end) (device_property_changed "exposure" demo_device demo_widget camera).2
  = (Some (VInt 100), Some (VInt 900)).
Proof. reflexivity. Qed.

(** ** The cooldown of a start control *)

Lemma alter_fuse {A} (f g : A → A) (b : button) (m : gmap button A) :
  alter f b (alter g b m) = alter (f ∘ g) b m.
Proof.
  apply map_eq. intros k. destruct (decide (b = k)) as [->|Hne].
  - rewrite !lookup_alter_eq. by destruct (m !! k).
  - by rewrite !lookup_alter_ne.
Qed.

Section button_update.
Variables (F : button_state → button_state) (b0 : button) (v v' : view).
Hypothesis Hbuttons : buttons v' = alter F b0 (buttons v).

Lemma budget_alter (b : button) :
  (∀ st, b_enabled (F st) = true → b_enabled st = true) →
  budget b v' ≤ budget b v.
Proof.
  intros HF. unfold budget. rewrite Hbuttons.
  destruct (decide (b0 = b)) as [->|Hne].
  - rewrite lookup_alter_eq. destruct (buttons v !! b) as [st|]; simpl; [|lia].
    destruct (b_enabled (F st)) eqn:He; [|destruct (b_enabled st); lia].
    by rewrite (HF st He).
  - by rewrite lookup_alter_ne.
Qed.

Lemma budget_alter_other (b : button) : b0 ≠ b → budget b v' = budget b v.
Proof. intros Hne. unfold budget. by rewrite Hbuttons, lookup_alter_ne. Qed.

Lemma budget_alter_off : (∀ st, b_enabled (F st) = false) → budget b0 v' = 0.
Proof.
  intros HF. unfold budget. rewrite Hbuttons, lookup_alter_eq.
  destruct (buttons v !! b0) as [st|]; simpl; [|reflexivity]. by rewrite HF.
Qed.

Lemma cooldown_inv_alter :
  (∀ st, slots_bounded b0 (b_pressed st) → slots_bounded b0 (b_pressed (F st))) →
  cooldown_inv v → cooldown_inv v'.
Proof.
  intros HF Hinv b st'. rewrite Hbuttons.
  destruct (decide (b0 = b)) as [->|Hne].
  - rewrite lookup_alter_eq. destruct (buttons v !! b) as [st|] eqn:Hb; [|discriminate].
    simpl. intros [= <-]. apply HF. by apply (Hinv b).
  - rewrite lookup_alter_ne by exact Hne. apply Hinv.
Qed.

End button_update.

Lemma cooldown_inv_same (v v' : view) :
  buttons v' = buttons v → cooldown_inv v → cooldown_inv v'.
Proof. intros Hb Hinv b st. rewrite Hb. apply Hinv. Qed.

Lemma budget_same (b : button) (v v' : view) :
  buttons v' = buttons v → budget b v' = budget b v.
Proof. intros Hb. unfold budget. by rewrite Hb. Qed.

(** What [disable_button] changes. *)
Lemma disable_button_run (b0 : button) (v : view) :
  workers (state_of (disable_button b0) v) = workers v
  ∧ buttons (state_of (disable_button b0) v)
    = alter (λ st, set_timers (S (b_timers st)) (set_enabled false st)) b0 (buttons v).
Proof.
  unfold state_of, disable_button, update_button, bind, update. simpl.
  split; [reflexivity|]. rewrite alter_fuse. reflexivity.
Qed.

(** What [toggle_live_button] changes: the text and the connections of the
    live button of its camera, nothing else. *)
Lemma toggle_live_button_run (c : string) (v : view) :
  workers (state_of (toggle_live_button c) v) = workers v
  ∧ ∃ F, buttons (state_of (toggle_live_button c) v) = alter F (LiveButton, c) (buttons v)
       ∧ (∀ st, b_enabled (F st) = b_enabled st)
       ∧ (∀ st, slots_bounded (LiveButton, c) (b_pressed (F st))).
Proof.
  unfold state_of, toggle_live_button, update_button, bind, read, update, ret. simpl.
  destruct (buttons v !! (LiveButton, c)) as [st|] eqn:Hb.
  - destruct (String.eqb (b_text st) "Live").
    + simpl. destruct (grab_frames_worker v) as [h|]; simpl.
      * split; [reflexivity|]. rewrite !alter_fuse. eexists. split; [reflexivity|].
        split; [reflexivity|]. intros st0. simpl. left. reflexivity.
      * split; [reflexivity|]. rewrite !alter_fuse. eexists. split; [reflexivity|].
        split; [reflexivity|]. intros st0. simpl. left. reflexivity.
    + simpl. split; [reflexivity|]. rewrite !alter_fuse. eexists. split; [reflexivity|].
      split; [reflexivity|]. intros st0. simpl. right. split; [reflexivity|].
      apply elem_of_cons. right. apply elem_of_cons. by left.
  - simpl. split; [reflexivity|].
    exists (set_pressed []). split.
    + symmetry. apply alter_id. intros st Hst. congruence.
    + split; [reflexivity|]. intros st. by left.
Qed.

Lemma state_of_bind {A B} (m : M A) (k : A → M B) (v : view) :
  state_of (bind m k) v = state_of (k (value_of m v)) (state_of m v).
Proof.
  unfold state_of, value_of, bind. destruct (m v) as [[a v1] e1]. simpl.
  by destruct (k a v1) as [[b v2] e2].
Qed.

(** What one callable connected to a button does to the worker list and to
    the cooldown of button [b]. *)
Lemma run_slot_effect (s : slot) (b : button) (v : view) :
  length (workers (state_of (run_slot s) v)) = length (workers v) + spawns [s]
  ∧ budget b (state_of (run_slot s) v) ≤ budget b v
  ∧ (s = SlotDisableButton b → budget b (state_of (run_slot s) v) = 0)
  ∧ (cooldown_inv v → cooldown_inv (state_of (run_slot s) v)).
Proof.
  destruct s as [b0|c frames|c|id]; simpl run_slot.
  - destruct (disable_button_run b0 v) as [Hw Hb]. rewrite Hw.
    split; [simpl; lia|]. split; [|split].
    + by apply (budget_alter _ b0 v _ Hb).
    + intros [= ->]. by apply (budget_alter_off _ b v _ Hb).
    + by apply (cooldown_inv_alter _ b0 v _ Hb).
  - unfold state_of. rewrite setup_live_run. simpl.
    split; [by rewrite length_app|]. split; [reflexivity|].
    split; [discriminate|]. by apply cooldown_inv_same.
  - destruct (toggle_live_button_run c v) as (Hw & F & Hb & Hen & Hsl). rewrite Hw.
    split; [simpl; lia|]. split; [|split].
    + apply (budget_alter _ _ v _ Hb). intros st. by rewrite Hen.
    + discriminate.
    + apply (cooldown_inv_alter _ _ v _ Hb). intros st _. apply Hsl.
  - unfold state_of, update_worker, update. simpl.
    split; [rewrite length_alter; lia|]. split; [reflexivity|].
    split; [discriminate|]. by apply cooldown_inv_same.
Qed.

Lemma spawns_cons (s : slot) (ss : list slot) : spawns (s :: ss) = spawns [s] + spawns ss.
Proof. by destruct s. Qed.

Lemma run_slots_effect (b : button) (ss : list slot) :
  ∀ v, length (workers (state_of (for_each ss run_slot) v)) = length (workers v) + spawns ss
     ∧ budget b (state_of (for_each ss run_slot) v) ≤ budget b v
     ∧ (SlotDisableButton b ∈ ss → budget b (state_of (for_each ss run_slot) v) = 0)
     ∧ (cooldown_inv v → cooldown_inv (state_of (for_each ss run_slot) v)).
Proof.
  induction ss as [|s ss IH]; intros v.
  - change (state_of (for_each [] run_slot) v) with v.
    split; [simpl; lia|]. split; [lia|]. split; [|auto].
    intros Hin. by apply elem_of_nil in Hin.
  - cbn [for_each]. rewrite state_of_bind.
    destruct (run_slot_effect s b v) as (Hlen & Hbud & Hoff & Hinv).
    destruct (IH (state_of (run_slot s) v)) as (Hlen' & Hbud' & Hoff' & Hinv').
    rewrite (spawns_cons s ss). split; [lia|]. split; [lia|]. split; [|auto].
    intros Hin. apply elem_of_cons in Hin. destruct Hin as [<-|Hin].
    + specialize (Hoff eq_refl). lia.
    + auto.
Qed.

(** A worker step leaves the buttons and the number of workers as they are. *)
Lemma run_callback_frame (cb : callback) (arg : option (image * string)) (v : view) :
  buttons (state_of (run_callback cb arg) v) = buttons v
  ∧ workers (state_of (run_callback cb arg) v) = workers v.
Proof.
  unfold state_of. destruct cb as [|c|]; simpl.
  - destruct arg as [[im c]|]; [|by split]. rewrite update_layer_run. by split.
  - rewrite dismantle_live_run. by split.
  - by split.
Qed.

Lemma run_callbacks_frame (cbs : list callback) (arg : option (image * string)) :
  ∀ v, buttons (state_of (for_each cbs (λ cb, run_callback cb arg)) v) = buttons v
     ∧ workers (state_of (for_each cbs (λ cb, run_callback cb arg)) v) = workers v.
Proof.
  induction cbs as [|cb cbs IH]; intros v; [by split|].
  cbn [for_each]. rewrite state_of_bind.
  destruct (IH (state_of (run_callback cb arg) v)) as [Hb Hw].
  destruct (run_callback_frame cb arg v) as [Hb' Hw'].
  split; congruence.
Qed.

Lemma worker_finish_frame (id : nat) (w : worker) (v : view) :
  buttons (worker_finish id w v).1 = buttons v
  ∧ length (workers (worker_finish id w v).1) = length (workers v).
Proof.
  unfold worker_finish, update_worker, bind, emit, update. simpl.
  set (v1 := set_workers _ v).
  destruct (run_callbacks_frame (w_on_finished w) None v1) as [Hb Hw].
  unfold state_of in Hb, Hw.
  destruct (for_each (w_on_finished w) _ v1) as [[[] v2] e2]. simpl in *.
  rewrite Hb, Hw. subst v1. simpl. by rewrite length_alter.
Qed.

Lemma grab_frames_next_frame (id : nat) (w : worker) (v : view) :
  buttons (state_of (grab_frames_next id w) v) = buttons v
  ∧ length (workers (state_of (grab_frames_next id w) v)) = length (workers v).
Proof.
  assert (Hloop : ∀ c frames i,
             buttons (state_of (grab_frames_loop id c frames i) v) = buttons v
             ∧ length (workers (state_of (grab_frames_loop id c frames i) v))
               = length (workers v)).
  { intros c frames i. unfold state_of, grab_frames_loop.
    destruct (lt_count i frames); simpl; by rewrite length_alter. }
  unfold grab_frames_next. destruct (w_gen w); [apply Hloop | apply Hloop | by split].
Qed.

Lemma worker_step_frame (id : nat) (v : view) :
  buttons (worker_step id v).1 = buttons v
  ∧ length (workers (worker_step id v).1) = length (workers v).
Proof.
  unfold worker_step.
  destruct (workers v !! id) as [w|]; [|by split].
  destruct (negb (w_started w) || w_finished w); [by split|].
  destruct (w_abort_requested w); [apply worker_finish_frame|].
  destruct (grab_frames_next_frame id w v) as [Hb Hw]. unfold state_of in Hb, Hw.
  destruct (grab_frames_next id w v) as [[r v1] e1]. simpl in Hb, Hw.
  destruct r as [frame|].
  - destruct (run_callbacks_frame (w_on_yielded w) (Some frame) v1) as [Hb' Hw'].
    unfold state_of in Hb', Hw'.
    destruct (for_each (w_on_yielded w) _ v1) as [[[] v2] e2]. simpl in *.
    split; congruence.
  - destruct (worker_finish_frame id w v1) as [Hb' Hw'].
    destruct (worker_finish id w v1) as [v2 e2]. simpl in *.
    split; congruence.
Qed.

Lemma timeout_run (b0 : button) (v : view) :
  workers (timeout b0 v).1 = workers v
  ∧ ∃ F, buttons (timeout b0 v).1 = alter F b0 (buttons v)
       ∧ ∀ st, b_pressed (F st) = b_pressed st.
Proof.
  unfold timeout. destruct (buttons v !! b0) as [st|] eqn:Hb.
  - destruct (b_timers st) as [|n].
    + split; [reflexivity|]. exists id. split; [|reflexivity].
      symmetry. by apply alter_id.
    + split; [reflexivity|]. eexists. split; [reflexivity|]. reflexivity.
  - split; [reflexivity|]. exists id. split; [|reflexivity].
    symmetry. by apply alter_id.
Qed.

Lemma press_state (b : button) (v : view) (st : button_state) :
  buttons v !! b = Some st → b_enabled st = true →
  (press b v).1 = state_of (for_each (b_pressed st) run_slot) v.
Proof.
  intros Hb He. unfold press, state_of. rewrite Hb, He.
  by destruct (for_each (b_pressed st) run_slot v) as [[[] v'] es].
Qed.

Lemma press_disabled (b : button) (v : view) :
  budget b v = 0 → press b v = (v, []).
Proof.
  unfold budget, press. destruct (buttons v !! b) as [st|]; [|reflexivity].
  destruct (b_enabled st); [discriminate | reflexivity].
Qed.

(** The cooldown invariant holds after [__init__] and is kept by every
    step. *)
Lemma cooldown_inv_step (l : label) (v : view) :
  cooldown_inv v → cooldown_inv (step l v).1.
Proof.
  intros Hinv. destruct l as [b|b|id]; simpl step.
  - destruct (buttons v !! b) as [st|] eqn:Hb.
    + destruct (b_enabled st) eqn:He.
      * rewrite (press_state b v st Hb He).
        by apply (run_slots_effect b (b_pressed st) v).
      * unfold press. by rewrite Hb, He.
    + unfold press. by rewrite Hb.
  - destruct (timeout_run b v) as (_ & F & Hb & HF).
    apply (cooldown_inv_alter F b v _ Hb); [|exact Hinv].
    intros st. by rewrite HF.
  - apply (cooldown_inv_same v); [|exact Hinv]. apply worker_step_frame.
Qed.

Lemma run_state_cons (l : label) (ls : list label) (v : view) :
  (run (l :: ls) v).1 = (run ls (step l v).1).1.
Proof. by rewrite run_cons. Qed.

Lemma cooldown_inv_run (ls : list label) :
  ∀ v, cooldown_inv v → cooldown_inv (run ls v).1.
Proof.
  induction ls as [|l ls IH]; intros v Hinv; [exact Hinv|].
  rewrite run_state_cons. apply IH. by apply cooldown_inv_step.
Qed.

Lemma setup_camera_widgets_bounded (cs : list string) :
  ∀ acc : gmap button button_state,
    (∀ b st, acc !! b = Some st → slots_bounded b (b_pressed st)) →
    ∀ b st,
      fold_left (λ bs c, <[(LiveButton, c) := live_button_init c]>
                           (<[(SnapshotButton, c) := snapshot_button_init c]> bs)) cs acc
        !! b = Some st →
      slots_bounded b (b_pressed st).
Proof.
  induction cs as [|c cs IH]; intros acc Hacc; [exact Hacc|].
  simpl. apply IH. intros b st.
  destruct (decide ((LiveButton, c) = b)) as [<-|Hl].
  - rewrite lookup_insert_eq. intros [= <-]. right. split; [reflexivity|].
    simpl. by left.
  - rewrite lookup_insert_ne by exact Hl.
    destruct (decide ((SnapshotButton, c) = b)) as [<-|Hs].
    + rewrite lookup_insert_eq. intros [= <-]. right. split; [reflexivity|].
      simpl. by left.
    + rewrite lookup_insert_ne by exact Hs. apply Hacc.
Qed.

Lemma cooldown_inv_init (ins : instrument) : cooldown_inv (init_view ins).
Proof.
  intros b st. simpl. unfold setup_camera_widgets.
  apply setup_camera_widgets_bounded. intros b' st'. by rewrite lookup_empty.
Qed.

(** A step within the cooldown of [b] starts a worker only by using up the
    one press [b] has left. *)
Lemma step_within_cooldown (b : button) (l : label) (v : view) :
  cooldown_inv v → within_cooldown b l →
  length (workers (step l v).1) + budget b (step l v).1 ≤ length (workers v) + budget b v.
Proof.
  intros Hinv [Hnt Hpress]. destruct l as [b'|b'|id]; simpl step.
  - rewrite (Hpress b' eq_refl).
    destruct (buttons v !! b) as [st|] eqn:Hb.
    + destruct (b_enabled st) eqn:He.
      * rewrite (press_state b v st Hb He).
        destruct (run_slots_effect b (b_pressed st) v) as (Hlen & Hbud & Hoff & _).
        assert (Hone : budget b v = 1) by (unfold budget; by rewrite Hb, He).
        destruct (Hinv b st Hb) as [H0|[H1 Hin]].
        -- lia.
        -- specialize (Hoff Hin). lia.
      * rewrite press_disabled; [simpl; lia|]. unfold budget. by rewrite Hb, He.
    + rewrite press_disabled; [simpl; lia|]. unfold budget. by rewrite Hb.
  - destruct (timeout_run b' v) as (Hw & F & Hb & _).
    rewrite Hw, (budget_alter_other F b' v _ Hb b); [lia|]. congruence.
  - destruct (worker_step_frame id v) as [Hb Hw].
    rewrite Hw, (budget_same b v _ Hb). lia.
Qed.

Lemma run_within_cooldown (b : button) (ls : list label) :
  ∀ v, cooldown_inv v → (∀ l, l ∈ ls → within_cooldown b l) →
       length (workers (run ls v).1) + budget b (run ls v).1
       ≤ length (workers v) + budget b v.
Proof.
  induction ls as [|l ls IH]; intros v Hinv Hls; [simpl; lia|].
  rewrite run_state_cons.
  assert (Hl : within_cooldown b l) by (apply Hls; by left).
  pose proof (step_within_cooldown b l v Hinv Hl) as Hstep.
  assert (Hrest : ∀ l', l' ∈ ls → within_cooldown b l') by (intros l' Hl'; apply Hls; by right).
  pose proof (IH (step l v).1 (cooldown_inv_step l v Hinv) Hrest) as Hrun.
  lia.
Qed.

Lemma budget_le_1 (b : button) (v : view) : budget b v ≤ 1.
Proof.
  unfold budget. destruct (buttons v !! b) as [st|]; [|lia].
  destruct (b_enabled st); lia.
Qed.

(** C2, as the code has it: in any view reached from [__init__], as long
    as the cooldown timer of a start control [b] has not expired and no other
    button is pressed, clicks on [b], however many, interleaved with any
    worker steps and other timers, start at most one more worker. *)
Theorem cooldown_blocks_same_control
    (ins : instrument) (ls0 ls : list label) (b : button) :
  (∀ l, l ∈ ls → l ≠ Timeout b ∧ ∀ b', l = Press b' → b' = b) →
  length (workers (run ls (run ls0 (init_view ins)).1).1)
  ≤ S (length (workers (run ls0 (init_view ins)).1)).
Proof.
  intros Hls.
  pose proof (run_within_cooldown b ls (run ls0 (init_view ins)).1
                (cooldown_inv_run ls0 _ (cooldown_inv_init ins)) Hls) as Hrun.
  pose proof (budget_le_1 b (run ls0 (init_view ins)).1) as Hb.
  lia.
Qed.

(** C2, at three clicks on the live button of the sample instrument with a
    worker step in between. *)
Lemma cooldown_blocks_same_control_witness :
  length (workers (run [Press (LiveButton, "cam0"); Press (LiveButton, "cam0");
                        WorkerStep 0; Press (LiveButton, "cam0")]
                       (run [] (init_view demo_instrument)).1).1)
  ≤ S (length (workers (run [] (init_view demo_instrument)).1)).
Proof.
  apply (cooldown_blocks_same_control demo_instrument [] _ (LiveButton, "cam0")).
  intros l Hl.
  repeat (apply elem_of_cons in Hl; destruct Hl as [->|Hl]);
    try (split; [discriminate | intros b' [= <-]; reflexivity]);
    try (split; [discriminate | intros b' Hb'; discriminate]).
  by apply elem_of_nil in Hl.
Defined.

(** C2, counterexample: after a click on the live button and a click on
    the snapshot button of the same camera, two started, unfinished workers
    grab from that camera. *)
Lemma two_workers_on_one_camera :
  ¬ (∀ ls, length (active_workers "cam0" (run ls demo_view).1) ≤ 1).
Proof.
  intros H.
  specialize (H [Press (LiveButton, "cam0"); Press (SnapshotButton, "cam0")]).
  vm_compute in H. lia.
Qed.

(** Both of those workers then grab from the camera. *)
Lemma both_workers_grab :
  let tr := (run [Press (LiveButton, "cam0"); Press (SnapshotButton, "cam0");
                  WorkerStep 0; WorkerStep 1] demo_view).2 in
  CameraGrabFrame "cam0" ∈ thread_events (WorkerThread 0) tr
  ∧ CameraGrabFrame "cam0" ∈ thread_events (WorkerThread 1) tr.
Proof.
  vm_compute. split; apply elem_of_cons; right; apply elem_of_cons; by left.
Qed.

(** * Further properties *)

(** ** An unbounded session and its cancellation *)

Lemma set_gen_same (w : worker) : set_gen (w_gen w) w = w.
Proof. by destruct w. Qed.

Lemma worker_streams (id : nat) (c : string) (n : nat) :
  ∀ (v : view) (w : worker) (j : Z),
    workers v !! id = Some w →
    w_camera w = c → w_frames w = Infinity →
    w_started w = true → w_abort_requested w = false → w_finished w = false →
    w_on_yielded w = [CbUpdateLayer] →
    next_index (w_gen w) = Some j →
    ∃ v' g, run (replicate n (WorkerStep id)) v =
              (v', flat_map (λ k, iteration_events id c
                                    (grab_frame (v_instrument v) c
                                       (default 0 (camera_grabs v !! c) + k)))
                            (seq 0 n))
          ∧ workers v' !! id = Some (set_gen g w)
          ∧ v_instrument v' = v_instrument v.
Proof.
  induction n as [|n IH]; intros v w j Hw Hc Hfr Hs Ha Hf Hy Hj.
  - exists v, (w_gen w). rewrite set_gen_same. by repeat split.
  - assert (Hlt : lt_count j (w_frames w) = true) by (by rewrite Hfr).
    destruct (worker_step_yield id w v j Hw Hs Ha Hf Hy Hj Hlt)
      as (v1 & Hstep & Hws & Hgr & Hins).
    rewrite Hc in Hstep, Hgr.
    assert (Hw1 : workers v1 !! id = Some (set_gen (GenSuspended j) w)).
    { rewrite Hws, list_lookup_alter_eq, Hw. reflexivity. }
    destruct (IH v1 (set_gen (GenSuspended j) w) (j + 1)%Z Hw1 Hc Hfr Hs Ha Hf Hy eq_refl)
      as (v' & g & Hrun & Hw' & Hins').
    exists v', g. change (replicate (S n) (WorkerStep id))
      with (WorkerStep id :: replicate n (WorkerStep id)).
    rewrite run_cons. simpl step. rewrite Hstep. cbn [fst snd].
    rewrite Hrun. cbn [fst snd].
    split; [|split; [exact Hw' | congruence]].
    f_equal. rewrite Hins, Hgr, lookup_insert_eq. simpl default.
    change (seq 0 (S n)) with (0 :: seq 1 n). cbn [flat_map]. rewrite flat_map_seq_S.
    rewrite Nat.add_0_r. f_equal.
    apply flat_map_ext. intros k. by rewrite Nat.add_succ_r.
Qed.

Lemma worker_step_abort (id : nat) (w : worker) (v : view) :
  workers v !! id = Some w →
  w_started w = true → w_abort_requested w = true → w_finished w = false →
  w_on_finished w = [CbDismantleLive (w_camera w)] →
  ∃ v1, worker_step id v =
          (v1, [(WorkerThread id, Finished id)]
               ++ tag Main (teardown_events (w_camera w) (daqs (v_instrument v))))
      ∧ workers v1 = alter set_finished id (workers v)
      ∧ v_instrument v1 = v_instrument v.
Proof.
  intros Hw Hs Ha Hf Hfin.
  unfold worker_step. rewrite Hw, Hs, Ha, Hf. simpl.
  unfold worker_finish, update_worker, bind, emit, read, update, ret. simpl.
  rewrite Hfin. simpl. unfold bind, ret. rewrite dismantle_live_run. simpl.
  rewrite app_nil_r.
  eexists. split; [reflexivity|]. simpl. auto.
Qed.

Lemma session_streams (c : string) (n : nat) (v : view) :
  ∃ v' g, run (replicate n (WorkerStep (length (workers v))))
              (state_of (setup_live c Infinity) v) =
            (v', flat_map (λ k, iteration_events (length (workers v)) c
                                  (grab_frame (v_instrument v) c
                                     (default 0 (camera_grabs v !! c) + k)))
                          (seq 0 n))
        ∧ workers v' !! length (workers v) = Some (set_gen g (started_worker c Infinity))
        ∧ v_instrument v' = v_instrument v.
Proof.
  unfold state_of. rewrite setup_live_run. cbn [fst snd].
  set (v1 := set_grab_frames_worker _ _).
  assert (Hw : workers v1 !! length (workers v) = Some (started_worker c Infinity)).
  { subst v1. simpl. apply list_lookup_middle. reflexivity. }
  destruct (worker_streams (length (workers v)) c n v1
              (started_worker c Infinity) 0%Z Hw) as (v' & g & Hrun & Hw' & Hins);
    try reflexivity.
  exists v', g. split; [exact Hrun|]. split; [exact Hw' | exact Hins].
Qed.

(** X1: a worker started by [setup_live] with the default count
    [float('inf')] never ends by itself: after any number [n] of iterations
    of its loop it has emitted exactly [n] frames, in grab order, it is still
    active, and no teardown has run (no camera abort, no daq stop). *)
Theorem unbounded_session_keeps_streaming (c : string) (n : nat) (v : view) :
  let id := length (workers v) in
  let g := default 0 (camera_grabs v !! c) in
  let r := run (replicate n (WorkerStep id)) (state_of (setup_live c Infinity) v) in
  r.2 = flat_map (λ k, iteration_events id c (grab_frame (v_instrument v) c (g + k)))
                 (seq 0 n)
  ∧ frames_emitted r.2 = map (λ k, (grab_frame (v_instrument v) c (g + k), c)) (seq 0 n)
  ∧ (active <$> workers r.1 !! id) = Some true
  ∧ camera_aborts c r.2 = 0
  ∧ daq_stops r.2 = 0.
Proof.
  intros id g r.
  destruct (session_streams c n v) as (v' & gen & Hrun & Hw & _).
  fold id in Hrun, Hw. fold g in Hrun.
  assert (Hr : r = (v', flat_map (λ k, iteration_events id c
                                         (grab_frame (v_instrument v) c (g + k)))
                                 (seq 0 n))) by (subst r; exact Hrun).
  rewrite Hr. cbn [fst snd]. split; [reflexivity|]. split.
  { apply (frames_emitted_iterations id c (λ k, grab_frame (v_instrument v) c (g + k))). }
  split; [by rewrite Hw|]. split.
  { apply (camera_aborts_iterations id c c (λ k, grab_frame (v_instrument v) c (g + k))). }
  apply (daq_stops_iterations id c (λ k, grab_frame (v_instrument v) c (g + k))).
Qed.

Lemma unbounded_session_streams_counts (c : string) (n : nat) (v : view) :
  let r := run (replicate n (WorkerStep (length (workers v))))
               (state_of (setup_live c Infinity) v) in
  length (frames_emitted r.2) = n ∧ camera_aborts c r.2 = 0 ∧ daq_stops r.2 = 0.
Proof.
  intros r. destruct (session_streams c n v) as (v' & gen & Hrun & _ & _).
  assert (Hr : r.2 = flat_map (λ k, iteration_events (length (workers v)) c
                                      (grab_frame (v_instrument v) c
                                         (default 0 (camera_grabs v !! c) + k)))
                              (seq 0 n)) by (subst r; by rewrite Hrun).
  rewrite Hr.
  rewrite (frames_emitted_iterations _ c
             (λ k, grab_frame (v_instrument v) c (default 0 (camera_grabs v !! c) + k))).
  rewrite (camera_aborts_iterations _ c c
             (λ k, grab_frame (v_instrument v) c (default 0 (camera_grabs v !! c) + k))).
  rewrite (daq_stops_iterations _ c
             (λ k, grab_frame (v_instrument v) c (default 0 (camera_grabs v !! c) + k))).
  by rewrite length_map, length_seq.
Qed.

(** X2: cancelling an unbounded session. After [k] iterations the worker is
    asked to quit ([worker.quit()], the action of the "Stop" button); at its
    next iteration it emits [finished] without grabbing or emitting another
    frame, and the teardown runs once. In all, exactly [k] frames were
    emitted, the camera was aborted once and every daq stopped once. *)
Theorem quit_ends_unbounded_session (c : string) (k m : nat) (v : view) :
  let id := length (workers v) in
  let r1 := run (replicate k (WorkerStep id)) (state_of (setup_live c Infinity) v) in
  let r2 := run (replicate (S m) (WorkerStep id)) (state_of (run_slot (SlotQuit id)) r1.1) in
  length (frames_emitted r1.2) = k
  ∧ r2.2 = [(WorkerThread id, Finished id)]
           ++ tag Main (teardown_events c (daqs (v_instrument v)))
  ∧ frames_emitted (r1.2 ++ r2.2) = frames_emitted r1.2
  ∧ camera_aborts c (r1.2 ++ r2.2) = 1
  ∧ daq_stops (r1.2 ++ r2.2) = length (daqs (v_instrument v))
  ∧ (w_finished <$> workers r2.1 !! id) = Some true.
Proof.
  intros id r1 r2.
  pose proof (unbounded_session_streams_counts c k v) as (Hlen & Hab & Hst).
  destruct (session_streams c k v) as (v1 & gen & Hrun & Hw & Hins).
  fold id in Hrun, Hw.
  change (length (frames_emitted r1.2) = k) in Hlen.
  change (camera_aborts c r1.2 = 0) in Hab.
  change (daq_stops r1.2 = 0) in Hst.
  assert (Hr1 : r1 = (v1, r1.2)).
  { subst r1. rewrite Hrun. reflexivity. }
  set (vq := state_of (run_slot (SlotQuit id)) r1.1).
  assert (Hwq : workers vq !! id
                = Some (set_abort_requested (set_gen gen (started_worker c Infinity)))).
  { subst vq. rewrite Hr1. cbn [fst]. unfold state_of, run_slot, update_worker, update.
    simpl. rewrite list_lookup_alter_eq, Hw. reflexivity. }
  assert (Hinsq : v_instrument vq = v_instrument v).
  { subst vq. rewrite Hr1. cbn [fst]. exact Hins. }
  destruct (worker_step_abort id _ vq Hwq) as (v2 & Hstep & Hws & _);
    try reflexivity.
  simpl w_camera in Hstep. rewrite Hinsq in Hstep.
  assert (Hdone : (w_finished <$> workers v2 !! id) = Some true).
  { rewrite Hws, list_lookup_alter_eq, Hwq. reflexivity. }
  assert (Hr2 : r2 = (v2, [(WorkerThread id, Finished id)]
                          ++ tag Main (teardown_events c (daqs (v_instrument v))))).
  { subst r2. fold vq.
    change (replicate (S m) (WorkerStep id)) with (WorkerStep id :: replicate m (WorkerStep id)).
    rewrite run_cons. simpl step. rewrite Hstep. cbn [fst snd].
    rewrite (finished_stays id v2 m Hdone). cbn [fst snd]. by rewrite app_nil_r. }
  rewrite Hr2. cbn [fst snd].
  split; [exact Hlen|]. split; [reflexivity|]. split.
  { rewrite !frames_emitted_app, frames_emitted_teardown. simpl. by rewrite app_nil_r. }
  split.
  { rewrite !camera_aborts_app, camera_aborts_teardown, Hab. reflexivity. }
  split; [|exact Hdone].
  rewrite !daq_stops_app, daq_stops_teardown, Hst. reflexivity.
Qed.

(** ** How the worker objects change over a session *)

Lemma worker_le_refl (w : worker) : worker_le w w.
Proof. by repeat split. Qed.

Lemma worker_le_trans (w1 w2 w3 : worker) :
  worker_le w1 w2 → worker_le w2 w3 → worker_le w1 w3.
Proof.
  intros (? & ? & ? & ? & ? & ?) (? & ? & ? & ? & ? & ?).
  repeat split; try congruence. auto.
Qed.

Lemma worker_le_wired (w w' : worker) :
  worker_le w w' → worker_wired w → worker_wired w'.
Proof.
  intros (Hc & _ & Hs & Hy & Hf & _) (? & ? & ?). repeat split; congruence.
Qed.

Lemma set_gen_le (g : gen_state) (w : worker) : worker_le w (set_gen g w).
Proof. by repeat split. Qed.

Lemma set_finished_le (w : worker) : worker_le w (set_finished w).
Proof. by repeat split. Qed.

Lemma set_abort_requested_le (w : worker) : worker_le w (set_abort_requested w).
Proof. by repeat split. Qed.

Lemma heap_evolves_trans (ws1 ws2 ws3 : list worker) :
  heap_evolves ws1 ws2 → heap_evolves ws2 ws3 → heap_evolves ws1 ws3.
Proof.
  intros H12 H23. induction H23 as [|ws' f id _ IH Hf|ws' c fr _ IH].
  - exact H12.
  - by apply he_alter.
  - by apply he_spawn.
Qed.

Lemma heap_evolves_length (ws ws' : list worker) :
  heap_evolves ws ws' → length ws ≤ length ws'.
Proof.
  induction 1 as [|ws' f id _ IH _|ws' c fr _ IH].
  - lia.
  - by rewrite length_alter.
  - rewrite length_app. simpl. lia.
Qed.

(** A worker keeps its place in the list. *)
Lemma heap_evolves_forward (ws ws' : list worker) (id : nat) (w : worker) :
  heap_evolves ws ws' → ws !! id = Some w →
  ∃ w', ws' !! id = Some w' ∧ worker_le w w'.
Proof.
  intros Hev Hw. induction Hev as [|ws' f id0 _ IH Hf|ws' c fr _ IH].
  - exists w. split; [exact Hw | apply worker_le_refl].
  - destruct IH as (w1 & Hw1 & Hle).
    destruct (decide (id0 = id)) as [->|Hne].
    + exists (f w1). rewrite list_lookup_alter_eq, Hw1. split; [reflexivity|].
      eapply worker_le_trans; [exact Hle | apply Hf].
    + exists w1. by rewrite list_lookup_alter_ne.
  - destruct IH as (w1 & Hw1 & Hle). exists w1. split; [|exact Hle].
    by apply lookup_app_l_Some.
Qed.

(** A worker of the later list was there before, or is a wired one made by
    [setup_live]. *)
Lemma heap_evolves_backward (ws ws' : list worker) (id : nat) (w' : worker) :
  heap_evolves ws ws' → ws' !! id = Some w' →
  (∃ w, ws !! id = Some w ∧ worker_le w w') ∨ (ws !! id = None ∧ worker_wired w').
Proof.
  intros Hev. revert w'. induction Hev as [|ws' f id0 Hev IH Hf|ws' c fr Hev IH]; intros w' Hw'.
  - left. exists w'. split; [exact Hw' | apply worker_le_refl].
  - destruct (decide (id0 = id)) as [->|Hne].
    + rewrite list_lookup_alter_eq in Hw'.
      destruct (ws' !! id) as [w1|] eqn:Hw1; [|discriminate].
      simpl in Hw'. injection Hw' as <-.
      destruct (IH w1 eq_refl) as [(w & Hw & Hle)|[Hnone Hwired]].
      * left. exists w. split; [exact Hw|].
        eapply worker_le_trans; [exact Hle | apply Hf].
      * right. split; [exact Hnone|]. eapply worker_le_wired; [apply Hf | exact Hwired].
    + rewrite list_lookup_alter_ne in Hw' by exact Hne. by apply IH.
  - apply lookup_app_Some in Hw'. destruct Hw' as [Hw'|[Hlen Hw']].
    + by apply IH.
    + right. destruct (id - length ws') as [|k] eqn:Hk; [|by destruct k].
      simpl in Hw'. injection Hw' as <-. split.
      * apply lookup_ge_None. pose proof (heap_evolves_length _ _ Hev). lia.
      * by repeat split.
Qed.

Lemma wired_inv_evolves (v v' : view) :
  heap_evolves (workers v) (workers v') → wired_inv v → wired_inv v'.
Proof.
  intros Hev Hinv id w' Hw'.
  destruct (heap_evolves_backward _ _ _ _ Hev Hw') as [(w & Hw & Hle)|[_ Hwired]].
  - eapply worker_le_wired; [exact Hle|]. by apply (Hinv id).
  - exact Hwired.
Qed.

(** Every operation of the session changes the worker list in that way. *)
Lemma run_slot_evolves (s : slot) (v : view) :
  heap_evolves (workers v) (workers (state_of (run_slot s) v)).
Proof.
  destruct s as [b0|c frames|c|id]; simpl run_slot.
  - rewrite (proj1 (disable_button_run b0 v)). apply he_refl.
  - unfold state_of. rewrite setup_live_run. simpl. apply he_spawn, he_refl.
  - rewrite (proj1 (toggle_live_button_run c v)). apply he_refl.
  - unfold state_of, update_worker, update. simpl.
    apply he_alter; [apply he_refl | apply set_abort_requested_le].
Qed.

Lemma run_slots_evolves (ss : list slot) :
  ∀ v, heap_evolves (workers v) (workers (state_of (for_each ss run_slot) v)).
Proof.
  induction ss as [|s ss IH]; intros v; [apply he_refl|].
  cbn [for_each]. rewrite state_of_bind.
  eapply heap_evolves_trans; [apply run_slot_evolves | apply IH].
Qed.

Lemma press_evolves (b : button) (v : view) :
  heap_evolves (workers v) (workers (press b v).1).
Proof.
  destruct (buttons v !! b) as [st|] eqn:Hb.
  - destruct (b_enabled st) eqn:He.
    + rewrite (press_state b v st Hb He). apply run_slots_evolves.
    + unfold press. rewrite Hb, He. apply he_refl.
  - unfold press. rewrite Hb. apply he_refl.
Qed.

Lemma worker_finish_workers (id : nat) (w : worker) (v : view) :
  workers (worker_finish id w v).1 = alter set_finished id (workers v).
Proof.
  unfold worker_finish, update_worker, bind, emit, update. simpl.
  set (v1 := set_workers _ v).
  destruct (run_callbacks_frame (w_on_finished w) None v1) as [_ Hw].
  unfold state_of in Hw.
  destruct (for_each (w_on_finished w) _ v1) as [[[] v2] e2]. simpl in *.
  rewrite Hw. reflexivity.
Qed.

Lemma grab_frames_next_workers (id : nat) (w : worker) (v : view) :
  ∃ g, workers (state_of (grab_frames_next id w) v) = alter (set_gen g) id (workers v)
       ∨ workers (state_of (grab_frames_next id w) v) = workers v.
Proof.
  assert (Hloop : ∀ c frames i,
             ∃ g, workers (state_of (grab_frames_loop id c frames i) v)
                  = alter (set_gen g) id (workers v)).
  { intros c frames i. unfold state_of, grab_frames_loop.
    destruct (lt_count i frames); simpl; eexists; reflexivity. }
  unfold grab_frames_next. destruct (w_gen w) as [|i|].
  - destruct (Hloop (w_camera w) (w_frames w) 0%Z) as [g Hg]. exists g. by left.
  - destruct (Hloop (w_camera w) (w_frames w) (i + 1)%Z) as [g Hg]. exists g. by left.
  - exists GenReturned. by right.
Qed.

Lemma grab_frames_next_evolves (id : nat) (w : worker) (v : view) :
  heap_evolves (workers v) (workers (state_of (grab_frames_next id w) v)).
Proof.
  destruct (grab_frames_next_workers id w v) as [g [-> | ->]].
  - apply he_alter; [apply he_refl | apply set_gen_le].
  - apply he_refl.
Qed.

Lemma worker_step_evolves (id : nat) (v : view) :
  heap_evolves (workers v) (workers (worker_step id v).1).
Proof.
  unfold worker_step.
  destruct (workers v !! id) as [w|]; [|apply he_refl].
  destruct (negb (w_started w) || w_finished w); [apply he_refl|].
  destruct (w_abort_requested w).
  { rewrite worker_finish_workers. apply he_alter; [apply he_refl | apply set_finished_le]. }
  pose proof (grab_frames_next_evolves id w v) as Hev. unfold state_of in Hev.
  destruct (grab_frames_next id w v) as [[r v1] e1]. simpl in Hev.
  destruct r as [frame|].
  - destruct (run_callbacks_frame (w_on_yielded w) (Some frame) v1) as [_ Hw'].
    unfold state_of in Hw'.
    destruct (for_each (w_on_yielded w) _ v1) as [[[] v2] e2]. simpl in *.
    by rewrite Hw'.
  - pose proof (worker_finish_workers id w v1) as Hfin.
    destruct (worker_finish id w v1) as [v2 e2]. simpl in *. rewrite Hfin.
    apply he_alter; [exact Hev | apply set_finished_le].
Qed.

Lemma step_evolves (l : label) (v : view) :
  heap_evolves (workers v) (workers (step l v).1).
Proof.
  destruct l as [b|b|id]; simpl step.
  - apply press_evolves.
  - rewrite (proj1 (timeout_run b v)). apply he_refl.
  - apply worker_step_evolves.
Qed.

Lemma run_evolves (ls : list label) :
  ∀ v, heap_evolves (workers v) (workers (run ls v).1).
Proof.
  induction ls as [|l ls IH]; intros v; [apply he_refl|].
  rewrite run_state_cons.
  eapply heap_evolves_trans; [apply step_evolves | apply IH].
Qed.

Lemma wired_inv_init (ins : instrument) : wired_inv (init_view ins).
Proof. intros id w Hw. simpl in Hw. by rewrite lookup_nil in Hw. Qed.

Lemma wired_inv_run (ls : list label) (v : view) :
  wired_inv v → wired_inv (run ls v).1.
Proof. apply wired_inv_evolves, run_evolves. Qed.

(** ** [finished] and the teardown, over any interleaving *)

Lemma finished_count_app (id : nat) (tr1 tr2 : list (context * event)) :
  finished_count id (tr1 ++ tr2) = finished_count id tr1 + finished_count id tr2.
Proof. unfold finished_count. by rewrite thread_events_app, filter_app, length_app. Qed.

(** What the thread of worker [id] does in one step of the session: nothing,
    one iteration, or [finished], and then the worker is marked finished. *)
Lemma worker_step_outcome (id : nat) (v : view) :
  thread_events (WorkerThread id) (worker_step id v).2 = []
  ∨ (∃ c im, thread_events (WorkerThread id) (worker_step id v).2
             = [Acquire camera_lock; CameraGrabFrame c; Release camera_lock; YieldFrame im c])
  ∨ (thread_events (WorkerThread id) (worker_step id v).2 = [Finished id]
     ∧ (w_finished <$> workers (worker_step id v).1 !! id) = Some true).
Proof.
  destruct (worker_step_shape id v) as (a & b & Hev & Ha).
  rewrite Hev, thread_events_app, thread_events_same,
    (thread_events_other _ Main) by discriminate.
  rewrite app_nil_r.
  destruct Ha as [->|[->|(c & im & ->)]]; [by left | | right; left; eauto].
  right. right. split; [reflexivity|].
  (* [finished] was emitted: the worker exists and [worker_finish] ran *)
  revert Hev. unfold worker_step.
  destruct (workers v !! id) as [w|] eqn:Hw; [|by destruct b].
  destruct (negb (w_started w) || w_finished w); [by destruct b|].
  destruct (w_abort_requested w).
  { intros _. rewrite worker_finish_workers, list_lookup_alter_eq, Hw. reflexivity. }
  pose proof (grab_frames_next_workers id w v) as [g Hg]. unfold state_of in Hg.
  pose proof (grab_frames_next_shape id w v) as Hshape. unfold value_of, events_of in Hshape.
  destruct (grab_frames_next id w v) as [[r v1] e1]. simpl in Hg, Hshape.
  destruct Hshape as [[-> ->] | (im & -> & ->)].
  - pose proof (worker_finish_workers id w v1) as Hfin.
    destruct (worker_finish id w v1) as [v2 e2]. simpl in *. intros _.
    rewrite Hfin, list_lookup_alter_eq.
    destruct Hg as [-> | ->].
    + rewrite list_lookup_alter_eq, Hw. reflexivity.
    + rewrite Hw. reflexivity.
  - destruct (for_each (w_on_yielded w) _ v1) as [[[] v2] e2]. simpl.
    intros Hev. discriminate Hev.
Qed.

Lemma step_outcome (l : label) (v : view) (id : nat) :
  thread_events (WorkerThread id) (step l v).2 = []
  ∨ (∃ c im, thread_events (WorkerThread id) (step l v).2
             = [Acquire camera_lock; CameraGrabFrame c; Release camera_lock; YieldFrame im c])
  ∨ (thread_events (WorkerThread id) (step l v).2 = [Finished id]
     ∧ (w_finished <$> workers (step l v).1 !! id) = Some true).
Proof.
  destruct l as [b|b|id']; simpl step.
  - left. unfold press. destruct (buttons v !! b) as [st|]; [|reflexivity].
    destruct (b_enabled st); [|reflexivity].
    destruct (for_each (b_pressed st) run_slot v) as [[[] v'] es]. simpl.
    by rewrite thread_events_other.
  - left. unfold timeout. destruct (buttons v !! b) as [st|]; [|reflexivity].
    destruct (b_timers st); reflexivity.
  - destruct (decide (id' = id)) as [->|Hne]; [apply worker_step_outcome|].
    left. destruct (worker_step_shape id' v) as (a & b & -> & _).
    rewrite thread_events_app, !thread_events_other; [reflexivity | discriminate | congruence].
Qed.

(** A finished worker does nothing more. *)
Lemma finished_thread_silent (ls : list label) (id : nat) :
  ∀ v, (w_finished <$> workers v !! id) = Some true →
       thread_events (WorkerThread id) (run ls v).2 = [].
Proof.
  induction ls as [|l ls IH]; intros v Hdone; [reflexivity|].
  rewrite run_cons. cbn [snd]. rewrite thread_events_app.
  destruct (workers v !! id) as [w|] eqn:Hw; [|discriminate].
  simpl in Hdone. injection Hdone as Hdone.
  assert (Hnext : (w_finished <$> workers (step l v).1 !! id) = Some true).
  { destruct (heap_evolves_forward _ _ id w (step_evolves l v) Hw) as (w' & Hw' & Hle).
    rewrite Hw'. simpl. f_equal. by apply Hle. }
  rewrite (IH _ Hnext), app_nil_r.
  destruct (step_outcome l v id) as [H0|[(c & im & Hb)|[Hf _]]]; [exact H0| |].
  - (* an iteration needs an unfinished worker *)
    destruct l as [b|b|id']; simpl step in *.
    + unfold press in Hb. destruct (buttons v !! b) as [st|]; [|discriminate].
      destruct (b_enabled st); [|discriminate].
      destruct (for_each (b_pressed st) run_slot v) as [[[] v'] es]. simpl in Hb.
      by rewrite thread_events_other in Hb.
    + unfold timeout in Hb. destruct (buttons v !! b) as [st|]; [|discriminate].
      destruct (b_timers st); discriminate.
    + destruct (decide (id' = id)) as [->|Hne].
      * by rewrite (worker_step_finished id w v Hw Hdone) in Hb.
      * destruct (worker_step_shape id' v) as (a & b & Hev & _).
        rewrite Hev, thread_events_app, !thread_events_other in Hb;
          [discriminate | discriminate | congruence].
  - destruct l as [b|b|id']; simpl step in *.
    + unfold press in Hf. destruct (buttons v !! b) as [st|]; [|discriminate].
      destruct (b_enabled st); [|discriminate].
      destruct (for_each (b_pressed st) run_slot v) as [[[] v'] es]. simpl in Hf.
      by rewrite thread_events_other in Hf.
    + unfold timeout in Hf. destruct (buttons v !! b) as [st|]; [|discriminate].
      destruct (b_timers st); discriminate.
    + destruct (decide (id' = id)) as [->|Hne].
      * by rewrite (worker_step_finished id w v Hw Hdone) in Hf.
      * destruct (worker_step_shape id' v) as (a & b & Hev & _).
        rewrite Hev, thread_events_app, !thread_events_other in Hf;
          [discriminate | discriminate | congruence].
Qed.

Lemma run_finished_once (ls : list label) (id : nat) :
  ∀ v, finished_count id (run ls v).2 ≤ 1.
Proof.
  induction ls as [|l ls IH]; intros v; [unfold finished_count; simpl; lia|].
  rewrite run_cons. cbn [snd]. rewrite finished_count_app.
  destruct (step_outcome l v id) as [H0|[(c & im & Hb)|[Hf Hdone]]].
  - unfold finished_count at 1. rewrite H0. simpl. apply IH.
  - unfold finished_count at 1. rewrite Hb. simpl. apply IH.
  - unfold finished_count. rewrite Hf, (finished_thread_silent ls id _ Hdone).
    rewrite filter_cons_True by reflexivity. simpl. lia.
Qed.

(** X3: in any interleaving of clicks, timer expiries and worker steps,
    from any view, a worker emits [finished] at most once. *)
Theorem finished_at_most_once (ls : list label) (v : view) (id : nat) :
  finished_count id (run ls v).2 ≤ 1.
Proof. apply run_finished_once. Qed.

Lemma finished_workers_app (c : string) (v : view) (tr1 tr2 : list (context * event)) :
  finished_workers c v (tr1 ++ tr2) = finished_workers c v tr1 + finished_workers c v tr2.
Proof. unfold finished_workers. by rewrite filter_app, length_app. Qed.

Lemma quiet_counts (c : string) (v : view) (ctx : context) (es : list event) :
  Forall (λ e, quiet e = true) es →
  camera_aborts c (tag ctx es) = 0 ∧ finished_workers c v (tag ctx es) = 0.
Proof.
  induction 1 as [|e es He _ [IHa IHf]]; [by split|].
  change (tag ctx (e :: es)) with ([(ctx, e)] ++ tag ctx es).
  rewrite camera_aborts_app, finished_workers_app, IHa, IHf.
  split; destruct e; try discriminate He; reflexivity.
Qed.

Lemma quiet_iteration (c : string) (im : image) :
  Forall (λ e, quiet e = true)
         [Acquire camera_lock; CameraGrabFrame c; Release camera_lock; YieldFrame im c].
Proof. repeat constructor. Qed.

Lemma quiet_waveforms (wl : string) (ds : list (string * daq_tasks)) :
  Forall (λ e, quiet e = true) (flat_map (waveform_events wl) ds).
Proof. induction ds as [|d ds IH]; simpl; repeat constructor. exact IH. Qed.

Lemma quiet_setup_live (id : nat) (c : string) (frames : count) (v : view) :
  Forall (λ e, quiet e = true) (setup_live_events id c frames v).
Proof.
  unfold setup_live_events. apply Forall_app. split; [repeat constructor|].
  apply Forall_app. split; [apply quiet_waveforms | repeat constructor].
Qed.

Lemma events_of_bind {A B} (m : M A) (k : A → M B) (v : view) :
  events_of (bind m k) v = events_of m v ++ events_of (k (value_of m v)) (state_of m v).
Proof.
  unfold events_of, state_of, value_of, bind. destruct (m v) as [[a v1] e1]. simpl.
  by destruct (k a v1) as [[b v2] e2].
Qed.

Lemma toggle_live_button_events (c : string) (v : view) :
  events_of (toggle_live_button c) v = [].
Proof.
  unfold events_of, toggle_live_button, update_button, bind, read, update, ret. simpl.
  destruct (buttons v !! (LiveButton, c)) as [st|]; [|reflexivity].
  destruct (String.eqb (b_text st) "Live"); simpl; [|reflexivity].
  destruct (grab_frames_worker v); reflexivity.
Qed.

Lemma run_slot_quiet (s : slot) (v : view) :
  Forall (λ e, quiet e = true) (events_of (run_slot s) v).
Proof.
  destruct s as [b0|c frames|c|id]; simpl run_slot.
  - constructor.
  - unfold events_of. rewrite setup_live_run. apply quiet_setup_live.
  - rewrite toggle_live_button_events. constructor.
  - constructor.
Qed.

Lemma run_slots_quiet (ss : list slot) :
  ∀ v, Forall (λ e, quiet e = true) (events_of (for_each ss run_slot) v).
Proof.
  induction ss as [|s ss IH]; intros v; [constructor|].
  cbn [for_each]. rewrite events_of_bind. apply Forall_app.
  split; [apply run_slot_quiet | apply IH].
Qed.

Lemma press_events (b : button) (v : view) :
  ∃ es, (press b v).2 = tag Main es ∧ Forall (λ e, quiet e = true) es.
Proof.
  unfold press. destruct (buttons v !! b) as [st|]; [|exists []; by split].
  destruct (b_enabled st); [|exists []; by split].
  pose proof (run_slots_quiet (b_pressed st) v) as Hq. unfold events_of in Hq.
  destruct (for_each (b_pressed st) run_slot v) as [[[] v'] es]. simpl in *.
  by exists es.
Qed.

(** One step of a wired worker: nothing, one iteration, or [finished]
    followed by the teardown of the worker's camera. *)
Lemma worker_step_wired (id : nat) (w : worker) (v : view) :
  workers v !! id = Some w → worker_wired w →
  (worker_step id v).2 = []
  ∨ (∃ im, (worker_step id v).2 = iteration_events id (w_camera w) im)
  ∨ (worker_step id v).2
    = [(WorkerThread id, Finished id)]
      ++ tag Main (teardown_events (w_camera w) (daqs (v_instrument v))).
Proof.
  intros Hw (Hs & Hy & Hfin).
  assert (Hfinish : ∀ v1, v_instrument v1 = v_instrument v →
            (worker_finish id w v1).2
            = [(WorkerThread id, Finished id)]
              ++ tag Main (teardown_events (w_camera w) (daqs (v_instrument v)))).
  { intros v1 Hins. unfold worker_finish, update_worker, bind, emit, update. simpl.
    rewrite Hfin. simpl. unfold bind, ret. rewrite dismantle_live_run. simpl.
    by rewrite app_nil_r, Hins. }
  assert (Hloop : ∀ i,
            (let '(r, v1, e1) := grab_frames_loop id (w_camera w) (w_frames w) i v in
             match r with
             | GenYield frame =>
                 let '(_, v2, e2) :=
                   for_each (w_on_yielded w) (λ cb, run_callback cb (Some frame)) v1 in
                 (v2, tag (WorkerThread id) e1 ++ tag Main e2)
             | GenStop =>
                 let '(v2, e2) := worker_finish id w v1 in
                 (v2, tag (WorkerThread id) e1 ++ e2)
             end).2 = []
            ∨ (∃ im, (let '(r, v1, e1) := grab_frames_loop id (w_camera w) (w_frames w) i v in
                      match r with
                      | GenYield frame =>
                          let '(_, v2, e2) :=
                            for_each (w_on_yielded w) (λ cb, run_callback cb (Some frame)) v1 in
                          (v2, tag (WorkerThread id) e1 ++ tag Main e2)
                      | GenStop =>
                          let '(v2, e2) := worker_finish id w v1 in
                          (v2, tag (WorkerThread id) e1 ++ e2)
                      end).2 = iteration_events id (w_camera w) im)
            ∨ (let '(r, v1, e1) := grab_frames_loop id (w_camera w) (w_frames w) i v in
               match r with
               | GenYield frame =>
                   let '(_, v2, e2) :=
                     for_each (w_on_yielded w) (λ cb, run_callback cb (Some frame)) v1 in
                   (v2, tag (WorkerThread id) e1 ++ tag Main e2)
               | GenStop =>
                   let '(v2, e2) := worker_finish id w v1 in
                   (v2, tag (WorkerThread id) e1 ++ e2)
               end).2
              = [(WorkerThread id, Finished id)]
                ++ tag Main (teardown_events (w_camera w) (daqs (v_instrument v)))).
  { intros i. unfold grab_frames_loop. destruct (lt_count i (w_frames w)).
    - right. left.
      unfold with_lock, update_worker, bind, emit, read, update, ret. simpl.
      rewrite Hy. simpl. unfold bind, ret. rewrite update_layer_run. simpl.
      eexists. reflexivity.
    - right. right.
      unfold update_worker, bind, update, ret. simpl.
      pose proof (Hfinish (set_workers (alter (set_gen GenReturned) id (workers v)) v) eq_refl)
        as Hf.
      destruct (worker_finish id w _) as [v2 e2]. simpl in *. exact Hf. }
  unfold worker_step. rewrite Hw, Hs. simpl.
  destruct (w_finished w); [by left|].
  destruct (w_abort_requested w); [right; right; by apply Hfinish|].
  unfold grab_frames_next. destruct (w_gen w) as [|i|].
  - apply Hloop.
  - apply Hloop.
  - right. right. simpl.
    pose proof (Hfinish v eq_refl) as Hf.
    destruct (worker_finish id w v) as [v2 e2]. simpl in *. exact Hf.
Qed.

Lemma camera_aborts_teardown_other (ctx : context) (c c' : string)
    (ds : list (string * daq_tasks)) :
  c' ≠ c → camera_aborts c (tag ctx (teardown_events c' ds)) = 0.
Proof.
  intros Hne. unfold teardown_events.
  change ([Acquire camera_lock; CameraAbort c'; Release camera_lock; Acquire daq_lock])
    with ([Acquire camera_lock] ++ [CameraAbort c'] ++ [Release camera_lock; Acquire daq_lock]).
  rewrite !tag_app, !camera_aborts_app, camera_aborts_stops.
  assert (Hnone : camera_aborts c (tag ctx [CameraAbort c']) = 0).
  { unfold camera_aborts. simpl tag. rewrite filter_cons_False; [reflexivity|].
    simpl. congruence. }
  rewrite Hnone. reflexivity.
Qed.

Lemma finished_workers_teardown (c c' : string) (v : view) (ctx : context)
    (ds : list (string * daq_tasks)) :
  finished_workers c v (tag ctx (teardown_events c' ds)) = 0.
Proof.
  unfold teardown_events. rewrite !tag_app, !finished_workers_app.
  assert (Hstops : finished_workers c v (tag ctx (map (λ d, DaqStopAll d.1) ds)) = 0).
  { induction ds as [|d ds IH]; [reflexivity|exact IH]. }
  rewrite Hstops. reflexivity.
Qed.

Lemma step_teardown_per_finished (c : string) (l : label) (v vf : view) :
  wired_inv v → heap_evolves (workers v) (workers vf) →
  camera_aborts c (step l v).2 = finished_workers c vf (step l v).2.
Proof.
  intros Hinv Hev. destruct l as [b|b|id]; simpl step.
  - destruct (press_events b v) as (es & -> & Hq).
    destruct (quiet_counts c vf Main es Hq) as [-> ->]. reflexivity.
  - unfold timeout. destruct (buttons v !! b) as [st|]; [|reflexivity].
    destruct (b_timers st); reflexivity.
  - destruct (workers v !! id) as [w|] eqn:Hw.
    + destruct (worker_step_wired id w v Hw (Hinv id w Hw)) as [->|[[im ->]| ->]].
      * reflexivity.
      * destruct (quiet_counts c vf (WorkerThread id) _ (quiet_iteration (w_camera w) im))
          as [Ha Hf].
        unfold iteration_events. by rewrite Ha, Hf.
      * destruct (heap_evolves_forward _ _ id w Hev Hw) as (w' & Hw' & Hle).
        rewrite camera_aborts_app, finished_workers_app, finished_workers_teardown.
        unfold finished_workers at 1. simpl filter.
        destruct (decide (w_camera w = c)) as [Hc|Hc].
        -- rewrite filter_cons_True.
           2:{ simpl. rewrite Hw'. apply bool_decide_eq_true_2.
               destruct Hle as [-> _]. exact Hc. }
           rewrite Hc, camera_aborts_teardown. reflexivity.
        -- rewrite filter_cons_False.
           2:{ simpl. rewrite Hw'. intros Hb. apply bool_decide_eq_true_1 in Hb.
               destruct Hle as [Hcam _]. congruence. }
           rewrite camera_aborts_teardown_other by exact Hc. reflexivity.
    + unfold worker_step. rewrite Hw. reflexivity.
Qed.

Lemma run_teardown_per_finished (c : string) (ls : list label) :
  ∀ v vf, wired_inv v → heap_evolves (workers (run ls v).1) (workers vf) →
          camera_aborts c (run ls v).2 = finished_workers c vf (run ls v).2.
Proof.
  induction ls as [|l ls IH]; intros v vf Hinv Hev; [reflexivity|].
  rewrite run_cons in *. cbn [fst snd] in *.
  rewrite camera_aborts_app, finished_workers_app.
  rewrite (IH (step l v).1 vf);
    [|exact (wired_inv_evolves v _ (step_evolves l v) Hinv)|exact Hev].
  f_equal. apply step_teardown_per_finished; [exact Hinv|].
  eapply heap_evolves_trans; [apply step_evolves|].
  eapply heap_evolves_trans; [apply run_evolves | exact Hev].
Qed.

(** X4: in any interleaving of clicks, timer expiries and worker steps
    after [__init__], the camera [c] is aborted exactly as often as a worker
    of [c] has emitted [finished]: each session that ends is torn down once,
    and nothing else aborts the camera. *)
Theorem teardown_once_per_finished_worker (ins : instrument) (ls : list label) (c : string) :
  camera_aborts c (run ls (init_view ins)).2
  = finished_workers c (run ls (init_view ins)).1 (run ls (init_view ins)).2.
Proof.
  apply run_teardown_per_finished; [apply wired_inv_init | apply he_refl].
Qed.

(** ** The camera buttons over a session *)

Lemma state_of_for_each_cons {A} (x : A) (xs : list A) (body : A → M unit) (v : view) :
  state_of (for_each (x :: xs) body) v = state_of (for_each xs body) (state_of (body x) v).
Proof. cbn [for_each]. by rewrite state_of_bind. Qed.

Lemma state_of_for_each_nil {A} (body : A → M unit) (v : view) :
  state_of (for_each [] body) v = v.
Proof. reflexivity. Qed.

Lemma setup_live_state (c : string) (frames : count) (v : view) :
  state_of (setup_live c frames) v
  = set_grab_frames_worker (Some (length (workers v)))
      (set_workers (workers v ++ [started_worker c frames]) v).
Proof. unfold state_of. by rewrite setup_live_run. Qed.

Lemma disable_button_state (b0 : button) (v : view) :
  state_of (disable_button b0) v
  = set_buttons (alter disabled_by_press b0 (buttons v)) v.
Proof.
  unfold state_of, disable_button, update_button, bind, update. simpl.
  rewrite alter_fuse. reflexivity.
Qed.

Lemma toggle_to_stop (c : string) (v : view) (st : button_state) (h : nat) :
  buttons v !! (LiveButton, c) = Some st → b_text st = "Live" →
  grab_frames_worker v = Some h →
  state_of (toggle_live_button c) v
  = set_buttons (alter (toggled_to_stop h c) (LiveButton, c) (buttons v)) v.
Proof.
  intros Hb Ht Hh.
  unfold state_of, toggle_live_button, update_button, bind, read, update, ret. simpl.
  rewrite Hb, Ht. simpl. rewrite Hh. simpl. rewrite !alter_fuse. reflexivity.
Qed.

Lemma toggle_to_live (c : string) (v : view) (st : button_state) :
  buttons v !! (LiveButton, c) = Some st → b_text st = "Stop" →
  state_of (toggle_live_button c) v
  = set_buttons (alter (toggled_to_live c) (LiveButton, c) (buttons v)) v.
Proof.
  intros Hb Ht.
  unfold state_of, toggle_live_button, update_button, bind, read, update, ret. simpl.
  rewrite Hb, Ht. simpl. rewrite !alter_fuse. reflexivity.
Qed.

(** A click on an enabled live button that shows "Live". *)
Lemma press_live_start (c : string) (v : view) (st : button_state) :
  buttons v !! (LiveButton, c) = Some st → b_enabled st = true → b_text st = "Live" →
  b_pressed st = [SlotDisableButton (LiveButton, c); SlotSetupLive c Infinity;
                  SlotToggleLiveButton c]
  ∨ b_pressed st = [SlotSetupLive c Infinity; SlotDisableButton (LiveButton, c);
                    SlotToggleLiveButton c] →
  workers (press (LiveButton, c) v).1 = workers v ++ [started_worker c Infinity]
  ∧ buttons (press (LiveButton, c) v).1
    = alter (toggled_to_stop (length (workers v)) c ∘ disabled_by_press)
            (LiveButton, c) (buttons v)
  ∧ grab_frames_worker (press (LiveButton, c) v).1 = Some (length (workers v)).
Proof.
  intros Hb He Ht Hshape. rewrite (press_state _ v st Hb He).
  destruct Hshape as [-> | ->];
    rewrite !state_of_for_each_cons, state_of_for_each_nil; simpl run_slot.
  - rewrite disable_button_state, setup_live_state.
    rewrite (toggle_to_stop c _ (disabled_by_press st) (length (workers v)));
      [|simpl; by rewrite lookup_alter_eq, Hb|exact Ht|reflexivity].
    simpl. by rewrite alter_fuse.
  - rewrite setup_live_state, disable_button_state.
    rewrite (toggle_to_stop c _ (disabled_by_press st) (length (workers v)));
      [|simpl; by rewrite lookup_alter_eq, Hb|exact Ht|reflexivity].
    simpl. by rewrite alter_fuse.
Qed.

(** A click on an enabled live button that shows "Stop". *)
Lemma press_live_stop (c : string) (v : view) (st : button_state) (id : nat) :
  buttons v !! (LiveButton, c) = Some st → b_enabled st = true → b_text st = "Stop" →
  b_pressed st = [SlotQuit id; SlotDisableButton (LiveButton, c); SlotToggleLiveButton c] →
  workers (press (LiveButton, c) v).1 = alter set_abort_requested id (workers v)
  ∧ buttons (press (LiveButton, c) v).1
    = alter (toggled_to_live c ∘ disabled_by_press) (LiveButton, c) (buttons v)
  ∧ grab_frames_worker (press (LiveButton, c) v).1 = grab_frames_worker v.
Proof.
  intros Hb He Ht Hshape. rewrite (press_state _ v st Hb He), Hshape.
  rewrite !state_of_for_each_cons, state_of_for_each_nil. simpl run_slot.
  rewrite disable_button_state.
  rewrite (toggle_to_live c _ (disabled_by_press st));
    [|simpl; by rewrite lookup_alter_eq, Hb|exact Ht].
  simpl. by rewrite alter_fuse.
Qed.

(** A click on an enabled snapshot button. *)
Lemma press_snapshot (c : string) (v : view) (st : button_state) :
  buttons v !! (SnapshotButton, c) = Some st → b_enabled st = true →
  b_pressed st = [SlotDisableButton (SnapshotButton, c); SlotSetupLive c (Finite 1)] →
  workers (press (SnapshotButton, c) v).1 = workers v ++ [started_worker c (Finite 1)]
  ∧ buttons (press (SnapshotButton, c) v).1
    = alter disabled_by_press (SnapshotButton, c) (buttons v)
  ∧ grab_frames_worker (press (SnapshotButton, c) v).1 = Some (length (workers v)).
Proof.
  intros Hb He Hshape. rewrite (press_state _ v st Hb He), Hshape.
  rewrite !state_of_for_each_cons, state_of_for_each_nil. simpl run_slot.
  rewrite disable_button_state, setup_live_state. by cbn.
Qed.

Lemma slots_ok_evolves (v v' : view) (b : button) (st : button_state) :
  heap_evolves (workers v) (workers v') → slots_ok v b st → slots_ok v' b st.
Proof.
  intros Hev. unfold slots_ok. destruct b.1; [auto|].
  intros [Hlive|(Ht & id & w & Hp & Hw & Hc & Hfr)]; [by left|]. right.
  split; [exact Ht|].
  destruct (heap_evolves_forward _ _ id w Hev Hw) as (w' & Hw' & Hcam & Hfrm & _).
  exists id, w'. repeat split; [exact Hp | exact Hw' | congruence | congruence].
Qed.

(** The buttons change at one key at a time. *)
Lemma session_inv_update (F : button_state → button_state) (b : button) (v v' : view) :
  session_inv v →
  buttons v' = alter F b (buttons v) →
  heap_evolves (workers v) (workers v') →
  (∀ st, buttons v !! b = Some st → timer_ok (F st) ∧ slots_ok v' b (F st)) →
  session_inv v'.
Proof.
  intros Hinv Hb Hev HF b' st'. rewrite Hb.
  destruct (decide (b = b')) as [<-|Hne].
  - rewrite lookup_alter_eq. destruct (buttons v !! b) as [st|] eqn:Hst; [|discriminate].
    simpl. intros [= <-]. by apply HF.
  - rewrite lookup_alter_ne by exact Hne. intros Hst'.
    destruct (Hinv b' st' Hst') as [Ht Hs]. split; [exact Ht|].
    by apply (slots_ok_evolves v).
Qed.

Lemma session_inv_same_buttons (v v' : view) :
  session_inv v → buttons v' = buttons v →
  heap_evolves (workers v) (workers v') → session_inv v'.
Proof.
  intros Hinv Hb Hev b st. rewrite Hb. intros Hst.
  destruct (Hinv b st Hst) as [Ht Hs]. split; [exact Ht|].
  by apply (slots_ok_evolves v).
Qed.

Lemma press_session_inv (b : button) (v : view) :
  session_inv v → session_inv (press b v).1.
Proof.
  intros Hinv.
  destruct (buttons v !! b) as [st|] eqn:Hb; [|unfold press; by rewrite Hb].
  destruct (b_enabled st) eqn:He; [|unfold press; by rewrite Hb, He].
  destruct (Hinv b st Hb) as [[[_ Htm]|[Hdis _]] Hslots]; [|congruence].
  pose proof (press_evolves b v) as Hev.
  destruct b as [[|] c]; unfold slots_ok in Hslots; simpl in Hslots.
  - destruct (press_snapshot c v st Hb He Hslots) as (Hw & Hbs & _).
    apply (session_inv_update disabled_by_press (SnapshotButton, c) v _ Hinv Hbs Hev).
    intros st0 Hst0. rewrite Hb in Hst0. injection Hst0 as <-. split.
    + right. simpl. by rewrite Htm.
    + unfold slots_ok. simpl. exact Hslots.
  - destruct Hslots as [[Ht Hshape]|(Ht & id & w & Hp & Hw & Hc & Hfr)].
    + destruct (press_live_start c v st Hb He Ht Hshape) as (Hws & Hbs & _).
      apply (session_inv_update _ (LiveButton, c) v _ Hinv Hbs Hev).
      intros st0 Hst0. rewrite Hb in Hst0. injection Hst0 as <-. split.
      * right. simpl. by rewrite Htm.
      * unfold slots_ok. simpl. right. split; [reflexivity|].
        exists (length (workers v)), (started_worker c Infinity).
        repeat split. rewrite Hws. by apply list_lookup_middle.
    + destruct (press_live_stop c v st id Hb He Ht Hp) as (Hws & Hbs & _).
      apply (session_inv_update _ (LiveButton, c) v _ Hinv Hbs Hev).
      intros st0 Hst0. rewrite Hb in Hst0. injection Hst0 as <-. split.
      * right. simpl. by rewrite Htm.
      * unfold slots_ok. simpl. left. split; [reflexivity|]. by right.
Qed.

Lemma timeout_session_inv (b : button) (v : view) :
  session_inv v → session_inv (timeout b v).1.
Proof.
  intros Hinv. unfold timeout.
  destruct (buttons v !! b) as [st|] eqn:Hb; [|exact Hinv].
  destruct (b_timers st) as [|n] eqn:Hn; [exact Hinv|].
  apply (session_inv_update (λ st, set_timers n (set_enabled true st)) b v _ Hinv);
    [reflexivity | apply he_refl |].
  intros st0 Hst0. rewrite Hb in Hst0. injection Hst0 as <-.
  destruct (Hinv b st Hb) as [[[_ Htm]|[_ Htm]] Hslots]; [congruence|].
  split.
  - left. simpl. split; [reflexivity|]. lia.
  - destruct b as [[|] c]; exact Hslots.
Qed.

Lemma step_session_inv (l : label) (v : view) :
  session_inv v → session_inv (step l v).1.
Proof.
  intros Hinv. destruct l as [b|b|id]; simpl step.
  - by apply press_session_inv.
  - by apply timeout_session_inv.
  - apply (session_inv_same_buttons v); [exact Hinv | apply worker_step_frame
                                        | apply worker_step_evolves].
Qed.

Lemma run_session_inv (ls : list label) :
  ∀ v, session_inv v → session_inv (run ls v).1.
Proof.
  induction ls as [|l ls IH]; intros v Hinv; [exact Hinv|].
  rewrite run_state_cons. by apply IH, step_session_inv.
Qed.

Lemma setup_camera_widgets_ok (v : view) (cs : list string) :
  ∀ acc : gmap button button_state,
    (∀ b st, acc !! b = Some st → timer_ok st ∧ slots_ok v b st) →
    ∀ b st,
      fold_left (λ bs c, <[(LiveButton, c) := live_button_init c]>
                           (<[(SnapshotButton, c) := snapshot_button_init c]> bs)) cs acc
        !! b = Some st →
      timer_ok st ∧ slots_ok v b st.
Proof.
  induction cs as [|c cs IH]; intros acc Hacc; [exact Hacc|].
  simpl. apply IH. intros b st.
  destruct (decide ((LiveButton, c) = b)) as [<-|Hl].
  - rewrite lookup_insert_eq. intros [= <-]. split; [by left|].
    unfold slots_ok. simpl. left. split; [reflexivity|]. by left.
  - rewrite lookup_insert_ne by exact Hl.
    destruct (decide ((SnapshotButton, c) = b)) as [<-|Hs].
    + rewrite lookup_insert_eq. intros [= <-]. split; [by left|]. reflexivity.
    + rewrite lookup_insert_ne by exact Hs. apply Hacc.
Qed.

Lemma session_inv_init (ins : instrument) : session_inv (init_view ins).
Proof.
  intros b st. simpl. unfold setup_camera_widgets.
  apply setup_camera_widgets_ok. intros b' st'. by rewrite lookup_empty.
Qed.

Lemma session_inv_reachable (ins : instrument) (ls : list label) :
  session_inv (run ls (init_view ins)).1.
Proof. apply run_session_inv, session_inv_init. Qed.

(** X5: at any point of a session, when the live button of camera [c]
    shows "Stop", what it is connected to is the [quit] of a worker that
    exists, grabs from camera [c] and was started with the unbounded count:
    the stop action never addresses another camera's worker or a snapshot
    worker, although the view keeps a single worker handle. *)
Theorem stop_button_quits_own_live_worker
    (ins : instrument) (ls : list label) (c : string) (st : button_state) :
  buttons (run ls (init_view ins)).1 !! (LiveButton, c) = Some st →
  b_text st = "Stop" →
  ∃ id w, b_pressed st = [SlotQuit id; SlotDisableButton (LiveButton, c);
                          SlotToggleLiveButton c]
        ∧ workers (run ls (init_view ins)).1 !! id = Some w
        ∧ w_camera w = c ∧ w_frames w = Infinity.
Proof.
  intros Hb Ht.
  destruct (session_inv_reachable ins ls _ st Hb) as [_ Hslots].
  unfold slots_ok in Hslots. simpl in Hslots.
  destruct Hslots as [[Hlive _]|(_ & id & w & Hp & Hw & Hc & Hfr)].
  - rewrite Ht in Hlive. discriminate.
  - exists id, w. auto.
Qed.

(** X5, on the sample instrument: live is started, then a snapshot is taken
    (which overwrites the worker handle); the "Stop" action is still the
    [quit] of worker 0, the live worker. *)
Lemma stop_button_quits_own_live_worker_witness :
  ∃ id w, b_pressed (toggled_to_stop 0 "cam0" (disabled_by_press (live_button_init "cam0")))
          = [SlotQuit id; SlotDisableButton (LiveButton, "cam0"); SlotToggleLiveButton "cam0"]
        ∧ workers (run [Press (LiveButton, "cam0"); Press (SnapshotButton, "cam0")]
                       (init_view demo_instrument)).1 !! id = Some w
        ∧ w_camera w = "cam0" ∧ w_frames w = Infinity.
Proof.
  apply (stop_button_quits_own_live_worker demo_instrument
           [Press (LiveButton, "cam0"); Press (SnapshotButton, "cam0")] "cam0").
  - reflexivity.
  - reflexivity.
Defined.

(** X6: at any point of a session every camera button is either enabled
    with no cooldown timer pending, or disabled with exactly one pending: a
    button is never left disabled without a timer that will enable it again,
    and timers do not pile up. *)
Theorem button_disabled_iff_timer_pending
    (ins : instrument) (ls : list label) (b : button) (st : button_state) :
  buttons (run ls (init_view ins)).1 !! b = Some st →
  (b_enabled st = true ∧ b_timers st = 0) ∨ (b_enabled st = false ∧ b_timers st = 1).
Proof.
  intros Hb. exact (proj1 (session_inv_reachable ins ls b st Hb)).
Qed.

(** X6, on the sample instrument after a click on the snapshot button. *)
Lemma button_disabled_iff_timer_pending_witness :
  (b_enabled (disabled_by_press (snapshot_button_init "cam0")) = true
   ∧ b_timers (disabled_by_press (snapshot_button_init "cam0")) = 0)
  ∨ (b_enabled (disabled_by_press (snapshot_button_init "cam0")) = false
     ∧ b_timers (disabled_by_press (snapshot_button_init "cam0")) = 1).
Proof.
  apply (button_disabled_iff_timer_pending demo_instrument
           [Press (SnapshotButton, "cam0")] (SnapshotButton, "cam0")).
  reflexivity.
Defined.

(** X7: the live button alternates. At any point of a session, a click on
    an enabled live button of camera [c] that shows "Live" starts exactly one
    worker, for camera [c] with the unbounded count, and the button then shows
    "Stop"; a click on one that shows "Stop" starts no worker, requests the
    quit of a worker of camera [c], and the button then shows "Live". The
    button shows nothing else, and after either click it is disabled. *)
Theorem live_button_alternates
    (ins : instrument) (ls : list label) (c : string) (st : button_state) :
  buttons (run ls (init_view ins)).1 !! (LiveButton, c) = Some st →
  b_enabled st = true →
  let v := (run ls (init_view ins)).1 in
  let v' := (press (LiveButton, c) v).1 in
  (b_text st = "Live"
   ∧ workers v' = workers v ++ [started_worker c Infinity]
   ∧ (b_text <$> buttons v' !! (LiveButton, c)) = Some "Stop"
   ∧ (b_enabled <$> buttons v' !! (LiveButton, c)) = Some false)
  ∨ (b_text st = "Stop"
     ∧ (∃ id w, workers v !! id = Some w ∧ w_camera w = c
              ∧ workers v' = alter set_abort_requested id (workers v))
     ∧ (b_text <$> buttons v' !! (LiveButton, c)) = Some "Live"
     ∧ (b_enabled <$> buttons v' !! (LiveButton, c)) = Some false).
Proof.
  intros Hb He v v'. subst v v'.
  destruct (session_inv_reachable ins ls _ st Hb) as [_ Hslots].
  unfold slots_ok in Hslots. simpl in Hslots.
  destruct Hslots as [[Ht Hshape]|(Ht & id & w & Hp & Hw & Hc & Hfr)].
  - left. destruct (press_live_start c _ st Hb He Ht Hshape) as (Hws & Hbs & _).
    rewrite Hbs, lookup_alter_eq, Hb. auto.
  - right. destruct (press_live_stop c _ st id Hb He Ht Hp) as (Hws & Hbs & _).
    rewrite Hbs, lookup_alter_eq, Hb. split; [exact Ht|]. split; [|auto].
    exists id, w. auto.
Qed.

(** X7, on the sample instrument: the first click on the live button. *)
Lemma live_button_alternates_witness :
  (b_text (live_button_init "cam0") = "Live"
   ∧ workers (press (LiveButton, "cam0") (run [] (init_view demo_instrument)).1).1
     = workers (run [] (init_view demo_instrument)).1 ++ [started_worker "cam0" Infinity]
   ∧ (b_text <$> buttons (press (LiveButton, "cam0") (run [] (init_view demo_instrument)).1).1
                   !! (LiveButton, "cam0")) = Some "Stop"
   ∧ (b_enabled <$> buttons (press (LiveButton, "cam0") (run [] (init_view demo_instrument)).1).1
                      !! (LiveButton, "cam0")) = Some false)
  ∨ (b_text (live_button_init "cam0") = "Stop"
     ∧ (∃ id w, workers (run [] (init_view demo_instrument)).1 !! id = Some w
              ∧ w_camera w = "cam0"
              ∧ workers (press (LiveButton, "cam0") (run [] (init_view demo_instrument)).1).1
                = alter set_abort_requested id (workers (run [] (init_view demo_instrument)).1))
     ∧ (b_text <$> buttons (press (LiveButton, "cam0") (run [] (init_view demo_instrument)).1).1
                     !! (LiveButton, "cam0")) = Some "Live"
     ∧ (b_enabled <$> buttons (press (LiveButton, "cam0") (run [] (init_view demo_instrument)).1).1
                        !! (LiveButton, "cam0")) = Some false).
Proof.
  apply (live_button_alternates demo_instrument [] "cam0" (live_button_init "cam0")).
  - reflexivity.
  - reflexivity.
Defined.

(** ** The presentation sink, frame after frame *)

Lemma string_length_app (s1 s2 : string) :
  String.length (s1 +:+ s2) = String.length s1 + String.length s2.
Proof. induction s1 as [|a s1 IH]; simpl; [reflexivity|]. by rewrite IH. Qed.

Lemma string_app_inv_tail (s1 s2 t : string) : s1 +:+ t = s2 +:+ t → s1 = s2.
Proof.
  revert s2. induction s1 as [|a s1 IH]; intros [|b s2] Heq; simpl in Heq.
  - reflexivity.
  - apply (f_equal String.length) in Heq. simpl in Heq.
    rewrite !string_length_app in Heq. simpl in Heq. lia.
  - apply (f_equal String.length) in Heq. simpl in Heq.
    rewrite !string_length_app in Heq. simpl in Heq. lia.
  - injection Heq as -> Heq. f_equal. by apply IH.
Qed.

(** Under one wavelength, different cameras have different layer names. *)
Lemma layer_name_inj (c1 c2 wl : string) :
  layer_name c1 wl = layer_name c2 wl → c1 = c2.
Proof.
  unfold layer_name. intros Heq.
  apply String.app_inj in Heq. by apply string_app_inv_tail in Heq.
Qed.

(** X8: the last frame wins. Two frames of the same camera, one after the
    other, leave the view exactly as the second frame alone would: one layer
    for the camera, holding the second frame, with the callbacks it had (or
    [save_image] once, when the first frame created it). *)
Theorem update_layer_last_frame_wins (im1 im2 : image) (c : string) (v : view) :
  ∃ v1 v2,
    update_layer (im1, c) v = inr v1
    ∧ update_layer (im2, c) v1 = inr v2
    ∧ update_layer (im2, c) v = inr v2
    ∧ layers v2 !! layer_name c (livestream_wavelength v)
      = Some {| data := im2;
                mouse_drag_callbacks :=
                  match layers v !! layer_name c (livestream_wavelength v) with
                  | Some l => mouse_drag_callbacks l
                  | None => [CbSaveImage]
                  end |}
    ∧ dom (layers v2) = dom (layers v1).
Proof.
  eexists _, _. split; [apply update_layer_run|].
  split; [apply update_layer_run|].
  rewrite update_layer_run. simpl. rewrite lookup_insert_eq. simpl.
  rewrite insert_insert_eq. split; [reflexivity|].
  split; [by rewrite lookup_insert_eq|].
  by rewrite !dom_insert_L.
Qed.

(** X9: frames of different cameras go to different layers: after a frame
    of camera [c1] and a frame of camera [c2], each camera's layer holds its
    own frame. *)
Theorem update_layer_separates_cameras
    (im1 im2 : image) (c1 c2 : string) (v : view) :
  c1 ≠ c2 →
  ∃ v1 v2,
    update_layer (im1, c1) v = inr v1
    ∧ update_layer (im2, c2) v1 = inr v2
    ∧ (data <$> layers v2 !! layer_name c1 (livestream_wavelength v)) = Some im1
    ∧ (data <$> layers v2 !! layer_name c2 (livestream_wavelength v)) = Some im2.
Proof.
  intros Hne. eexists _, _. split; [apply update_layer_run|].
  split; [apply update_layer_run|]. simpl.
  assert (Hnames : layer_name c2 (livestream_wavelength v)
                   ≠ layer_name c1 (livestream_wavelength v)).
  { intros Heq. apply layer_name_inj in Heq. congruence. }
  split.
  - rewrite lookup_insert_ne by exact Hnames. by rewrite lookup_insert_eq.
  - by rewrite lookup_insert_eq.
Qed.

(** X9, for two cameras of a view with no layer yet. *)
Lemma update_layer_separates_cameras_witness :
  "cam0" ≠ "cam1"
  ∧ ∃ v1 v2,
      update_layer ([[1%Z]], "cam0") demo_view = inr v1
      ∧ update_layer ([[2%Z]], "cam1") v1 = inr v2
      ∧ (data <$> layers v2 !! layer_name "cam0" (livestream_wavelength demo_view))
        = Some [[1%Z]]
      ∧ (data <$> layers v2 !! layer_name "cam1" (livestream_wavelength demo_view))
        = Some [[2%Z]].
Proof.
  split; [discriminate|].
  apply (update_layer_separates_cameras [[1%Z]] [[2%Z]] "cam0" "cam1" demo_view).
  discriminate.
Defined.

(** ** Saving a frame *)

Lemma string_app_assoc (s1 s2 s3 : string) : (s1 +:+ s2) +:+ s3 = s1 +:+ (s2 +:+ s3).
Proof.
  induction s1 as [|a s1 IH]; [reflexivity|].
  change (String a ((s1 +:+ s2) +:+ s3) = String a (s1 +:+ (s2 +:+ s3))).
  by rewrite IH.
Qed.

Lemma split_on_nonempty (sep : ascii) (s : string) : split_on sep s ≠ [].
Proof.
  induction s as [|a s IH]; simpl; [discriminate|].
  destruct (Ascii.eqb a sep); [discriminate|].
  destruct (split_on sep s); discriminate.
Qed.

(** A first piece without the separator is split off as it is. *)
Lemma split_on_first (sep : ascii) (s rest : string) :
  has_char sep s = false →
  split_on sep (s +:+ String sep rest) = s :: split_on sep rest.
Proof.
  induction s as [|a s IH]; simpl.
  - intros _. by rewrite Ascii.eqb_refl.
  - intros Hs. apply orb_false_iff in Hs. destruct Hs as [Ha Hs].
    rewrite Ha, (IH Hs). reflexivity.
Qed.

Lemma split_on_whole (sep : ascii) (s : string) :
  has_char sep s = false → split_on sep s = [s].
Proof.
  induction s as [|a s IH]; simpl; [reflexivity|].
  intros Hs. apply orb_false_iff in Hs. destruct Hs as [Ha Hs].
  rewrite Ha, (IH Hs). reflexivity.
Qed.

Lemma layer_name_second_word (c rest : string) :
  has_char " " c = false →
  split_on " " ("Video " +:+ c +:+ String " " rest) !! 1 = Some c.
Proof.
  intros Hc.
  change ("Video " +:+ c +:+ String " " rest)
    with ("Video" +:+ String " " (c +:+ String " " rest)).
  rewrite split_on_first by reflexivity.
  rewrite split_on_first by exact Hc. reflexivity.
Qed.

Lemma layer_name_camera (c wl : string) :
  has_char " " c = false → split_on " " (layer_name c wl) !! 1 = Some c.
Proof. intros Hc. exact (layer_name_second_word c wl Hc). Qed.

(** X10: a layer made by [update_layer] for a camera whose name has no
    space is saved with the writer of that camera: on a click with button 2,
    when the folder dialog returns a folder, the frame is written to
    [folder\<layer name>_<time stamp>.tiff]; when the dialog is cancelled
    (empty folder), or for any other mouse button, nothing is written. *)
Theorem save_image_uses_camera_writer
    (writers : gmap string string) (dialog : string → string) (now : string)
    (c wl path : string) (im : image) (button : Z) :
  has_char " " c = false →
  writers !! c = Some path →
  save_image writers dialog now (layer_name c wl) im button
  = if (button =? 2)%Z
    then if String.eqb (dialog path) ""
         then inr None
         else inr (Some (dialog path +:+ "\" +:+ layer_name c wl +:+ "_" +:+ now +:+ ".tiff",
                         im))
    else inr None.
Proof.
  intros Hc Hw. unfold save_image. destruct (button =? 2)%Z; [|reflexivity].
  rewrite (layer_name_camera c wl Hc), Hw.
  by destruct (String.eqb (dialog path) "").
Qed.

(** X10, for camera ["cam0"] with its writer at ["D:\data"] and a dialog
    that returns the start directory. *)
Lemma save_image_uses_camera_writer_witness :
  has_char " " "cam0" = false
  ∧ ({["cam0" := "D:\data"]} : gmap string string) !! "cam0" = Some "D:\data"
  ∧ save_image {["cam0" := "D:\data"]} (λ d, d) "2024-01-01_00-00-00"
      (layer_name "cam0" "488") [[7%Z]] 2
    = inr (Some ("D:\data\Video cam0 488_2024-01-01_00-00-00.tiff", [[7%Z]])).
Proof.
  split; [reflexivity|]. split; [reflexivity|].
  exact (save_image_uses_camera_writer {["cam0" := "D:\data"]} (λ d, d)
           "2024-01-01_00-00-00" "cam0" "488" "D:\data" [[7%Z]] 2 eq_refl eq_refl).
Defined.

(** X11: the camera is read back from the layer name as its second word.
    For a camera whose name has a space, [first rest], the writer looked up
    is that of [first]: when there is none, [save_image] raises [KeyError]
    for [first], whatever writers the camera itself has. *)
Theorem save_image_camera_name_with_space
    (writers : gmap string string) (dialog : string → string) (now : string)
    (first rest wl : string) (im : image) :
  has_char " " first = false →
  writers !! first = None →
  save_image writers dialog now (layer_name (first +:+ " " +:+ rest) wl) im 2
  = inl (WriterKeyError first).
Proof.
  intros Hc Hw.
  assert (Hname : split_on " " (layer_name (first +:+ " " +:+ rest) wl) !! 1 = Some first).
  { unfold layer_name.
    rewrite (string_app_assoc first (" " +:+ rest) (" " +:+ wl)).
    exact (layer_name_second_word first (rest +:+ " " +:+ wl) Hc). }
  unfold save_image. rewrite Hname, Hw. reflexivity.
Qed.

(** X11, for a camera called ["cam 0"] that has a writer. *)
Lemma save_image_camera_name_with_space_witness :
  has_char " " "cam" = false
  ∧ ({["cam 0" := "D:\data"]} : gmap string string) !! "cam" = None
  ∧ save_image {["cam 0" := "D:\data"]} (λ d, d) "2024-01-01_00-00-00"
      (layer_name "cam 0" "488") [[7%Z]] 2
    = inl (WriterKeyError "cam").
Proof.
  split; [reflexivity|]. split; [reflexivity|].
  exact (save_image_camera_name_with_space {["cam 0" := "D:\data"]} (λ d, d)
           "2024-01-01_00-00-00" "cam" "0" "488" [[7%Z]] eq_refl eq_refl).
Defined.

(** ** The stage poller, cycle after cycle *)

Lemma dict_set_keys {V} (k : string) (x : V) (d : list (string * V)) :
  NoDup d.*1 →
  NoDup (dict_set k x d).*1
  ∧ (list_to_map (dict_set k x d) : gmap string V) = <[k := x]> (list_to_map d)
  ∧ ∀ k', k' ∈ (dict_set k x d).*1 ↔ k' = k ∨ k' ∈ d.*1.
Proof.
  induction d as [|[k0 x0] d IH]; intros Hnd; simpl.
  - split; [repeat constructor; by apply not_elem_of_nil|]. split; [reflexivity|].
    intros k'. rewrite elem_of_cons, elem_of_nil. reflexivity.
  - apply NoDup_cons in Hnd. destruct Hnd as [Hk0 Hnd].
    destruct (String.eqb_spec k k0) as [->|Hne]; simpl.
    + split; [by apply NoDup_cons|]. split; [by rewrite insert_insert_eq|].
      intros k'. rewrite !elem_of_cons. tauto.
    + destruct (IH Hnd) as (Hnd' & Hmap & Hkeys).
      split; [|split].
      * apply NoDup_cons. split; [|exact Hnd'].
        rewrite Hkeys. intros [Heq|Hin]; [congruence | contradiction].
      * rewrite Hmap. by apply insert_insert_ne.
      * intros k'. rewrite !elem_of_cons, Hkeys. tauto.
Qed.

Lemma dict_fold_map {V} (l : list (string * V)) :
  ∀ acc, NoDup acc.*1 →
    NoDup (fold_left (λ d kv, dict_set kv.1 kv.2 d) l acc).*1
    ∧ (list_to_map (fold_left (λ d kv, dict_set kv.1 kv.2 d) l acc) : gmap string V)
      = list_to_map (reverse l) ∪ list_to_map acc.
Proof.
  induction l as [|[k x] l IH]; intros acc Hnd; simpl.
  - split; [exact Hnd|]. by rewrite (left_id_L ∅ (∪)).
  - destruct (dict_set_keys k x acc Hnd) as (Hnd' & Hmap & _).
    destruct (IH _ Hnd') as (Hnd'' & Hfold). split; [exact Hnd''|].
    rewrite Hfold, Hmap, reverse_cons, list_to_map_app. simpl.
    rewrite <- (assoc_L (∪)). f_equal.
    by rewrite insert_empty, <- insert_union_singleton_l.
Qed.

(** [{**a, **b}] has every key once, and [b] wins where both have a key. *)
Lemma dict_merge_map {V} (a b : list (string * V)) :
  NoDup (dict_merge a b).*1
  ∧ (list_to_map (dict_merge a b) : gmap string V)
    = list_to_map (reverse b) ∪ list_to_map (reverse a).
Proof.
  unfold dict_merge.
  destruct (dict_fold_map a [] (NoDup_nil_2)) as (Hnd & Hmap).
  destruct (dict_fold_map b _ Hnd) as (Hnd' & Hmap').
  split; [exact Hnd'|]. rewrite Hmap', Hmap. simpl.
  by rewrite (right_id_L ∅ (∪)).
Qed.

Lemma list_to_map_reverse {V} (l : list (string * V)) :
  NoDup l.*1 → (list_to_map (reverse l) : gmap string V) = list_to_map l.
Proof.
  intros Hnd. symmetry. apply list_to_map_proper; [exact Hnd|].
  symmetry. apply reverse_Permutation.
Qed.



Lemma poll_cycle_positions (ss : list (string * position_value)) :
  positions_emitted
    (flat_map (λ s, [Acquire tiling_stage_lock; StagePosition s.1;
                     Release tiling_stage_lock; YieldPosition s.1 s.2]) ss) = ss
  ∧ locks_taken
      (flat_map (λ s, [Acquire tiling_stage_lock; StagePosition s.1;
                       Release tiling_stage_lock; YieldPosition s.1 s.2]) ss)
    = replicate (length ss) tiling_stage_lock
  ∧ held_after
      (flat_map (λ s, [Acquire tiling_stage_lock; StagePosition s.1;
                       Release tiling_stage_lock; YieldPosition s.1 s.2]) ss) [] = [].
Proof.
  induction ss as [|[name p] ss (IHp & IHl & IHh)]; [by repeat split|].
  simpl flat_map. repeat split.
  - simpl. by rewrite IHp.
  - simpl. by rewrite IHl.
  - exact IHh.
Qed.

(** X12: one cycle of the stage poller emits one position per stage name,
    in the order of [{**scanning_stages, **tiling_stages}]: every name of
    either category exactly once, with the position of the tiling stage where
    a name is in both. *)
Theorem poll_cycle_emits_each_stage_once (v : view) :
  NoDup (scanning_stages (v_instrument v)).*1 →
  NoDup (tiling_stages (v_instrument v)).*1 →
  let ps := positions_emitted (events_of grab_stage_positions_cycle v) in
  NoDup ps.*1
  ∧ (list_to_map ps : gmap string position_value)
    = list_to_map (tiling_stages (v_instrument v))
      ∪ list_to_map (scanning_stages (v_instrument v)).
Proof.
  intros Hs Ht ps. subst ps. unfold events_of.
  rewrite grab_stage_positions_cycle_run. cbn [snd].
  change (positions_emitted (Sleep :: ?es)) with (positions_emitted es).
  rewrite (proj1 (poll_cycle_positions _)).
  destruct (dict_merge_map (scanning_stages (v_instrument v))
              (tiling_stages (v_instrument v))) as [Hnd Hmap].
  split; [exact Hnd|].
  rewrite Hmap, !list_to_map_reverse by assumption. reflexivity.
Qed.

(** X12, on the sample instrument. *)
Lemma poll_cycle_emits_each_stage_once_witness :
  NoDup (scanning_stages (v_instrument demo_view)).*1
  ∧ NoDup (tiling_stages (v_instrument demo_view)).*1
  ∧ NoDup (positions_emitted (events_of grab_stage_positions_cycle demo_view)).*1
  ∧ (list_to_map (positions_emitted (events_of grab_stage_positions_cycle demo_view))
       : gmap string position_value)
    = list_to_map (tiling_stages (v_instrument demo_view))
      ∪ list_to_map (scanning_stages (v_instrument demo_view)).
Proof.
  assert (H1 : NoDup (scanning_stages (v_instrument demo_view)).*1).
  { simpl. apply NoDup_singleton. }
  assert (H2 : NoDup (tiling_stages (v_instrument demo_view)).*1).
  { simpl. apply NoDup_singleton. }
  split; [exact H1|]. split; [exact H2|].
  exact (poll_cycle_emits_each_stage_once demo_view H1 H2).
Defined.



(** ** The stage position display *)

Lemma stages_getitem_scanning (name : string) (p : stage_panel) (w : gmap string string) :
  scanning_stage_widgets p !! name = Some w → stages_getitem name p = inr w.
Proof.
  intros Hw. unfold stages_getitem. by rewrite (lookup_union_Some_l _ _ _ _ Hw).
Qed.

Lemma stages_getitem_tiling (name : string) (p : stage_panel) :
  scanning_stage_widgets p !! name = None →
  stages_getitem name p
  = match tiling_stage_widgets p !! name with
    | Some w => inr w
    | None => inl (StageKeyError name)
    end.
Proof. intros Hs. unfold stages_getitem. by rewrite lookup_union_r. Qed.

(** Writing one text field of the widget of stage [name]. *)
Lemma set_stage_text_run (name field text old : string) (p : stage_panel)
    (w : gmap string string) :
  stages_getitem name p = inr w → w !! field = Some old →
  ∃ p', set_stage_text name field text p = inr p'
      ∧ stages_getitem name p' = inr (<[field := text]> w)
      ∧ (∀ other, other ≠ name → stages_getitem other p' = stages_getitem other p)
      ∧ (is_Some (scanning_stage_widgets p !! name) →
         tiling_stage_widgets p' = tiling_stage_widgets p)
      ∧ (scanning_stage_widgets p !! name = None →
         scanning_stage_widgets p' = scanning_stage_widgets p).
Proof.
  intros Hw Hf. unfold set_stage_text. rewrite Hw, Hf.
  destruct (scanning_stage_widgets p !! name) as [ws|] eqn:Hs.
  - rewrite bool_decide_eq_true_2 by eauto. eexists. split; [reflexivity|].
    split; [|split; [|split]].
    + apply stages_getitem_scanning. simpl. apply lookup_insert_eq.
    + intros other Hne. unfold stages_getitem. simpl.
      by rewrite !lookup_union, lookup_insert_ne.
    + reflexivity.
    + discriminate.
  - rewrite bool_decide_eq_false_2 by (intros [? ?]; discriminate).
    eexists. split; [reflexivity|]. split; [|split; [|split]].
    + rewrite stages_getitem_tiling by exact Hs. simpl. by rewrite lookup_insert_eq.
    + intros other Hne. unfold stages_getitem. simpl.
      by rewrite !lookup_union, lookup_insert_ne.
    + intros [? ?]. discriminate.
    + reflexivity.
Qed.

(** X14: a scalar position event for a known stage whose widget has a
    [position_widget] field replaces the text of that field by the decimal
    form of the position and changes nothing else: the other fields of the
    widget and the widgets of the other stages show what they showed. An
    event for an unknown stage raises [KeyError] and changes nothing. *)
Theorem scalar_position_is_displayed
    (name old : string) (x : Z) (p : stage_panel) (w : gmap string string) :
  stages_getitem name p = inr w →
  w !! "position_widget" = Some old →
  ∃ p', update_stage_position (name, Scalar x) p = (p', None)
      ∧ stages_getitem name p' = inr (<["position_widget" := pretty x]> w)
      ∧ (∀ other, other ≠ name → stages_getitem other p' = stages_getitem other p)
      ∧ ∀ unknown pos, stages_getitem unknown p = inl (StageKeyError unknown) →
          update_stage_position (unknown, pos) p
          = match pos with
            | PerAxis [] => (p, None)
            | _ => (p, Some (StageKeyError unknown))
            end.
Proof.
  intros Hw Hf.
  destruct (set_stage_text_run name "position_widget" (pretty x) old p w Hw Hf)
    as (p' & Hset & Hget & Hother & _).
  exists p'. simpl. rewrite Hset. split; [reflexivity|].
  split; [exact Hget|]. split; [exact Hother|].
  intros unknown pos Hun. destruct pos as [y|[|[k y] axes]]; simpl.
  - unfold set_stage_text. by rewrite Hun.
  - reflexivity.
  - unfold set_stage_text. by rewrite Hun.
Qed.

(** X14, for the scanning stage of the sample panel. *)
Lemma scalar_position_is_displayed_witness :
  stages_getitem "z" demo_panel = inr {["position_widget" := "0"]}
  ∧ ({["position_widget" := "0"]} : gmap string string) !! "position_widget" = Some "0"
  ∧ ∃ p', update_stage_position ("z", Scalar (-12)) demo_panel = (p', None)
        ∧ stages_getitem "z" p'
          = inr (<["position_widget" := pretty (-12)%Z]> {["position_widget" := "0"]})
        ∧ (∀ other, other ≠ "z" → stages_getitem other p' = stages_getitem other demo_panel)
        ∧ ∀ unknown pos,
            stages_getitem unknown demo_panel = inl (StageKeyError unknown) →
            update_stage_position (unknown, pos) demo_panel
            = match pos with
              | PerAxis [] => (demo_panel, None)
              | _ => (demo_panel, Some (StageKeyError unknown))
              end.
Proof.
  split; [reflexivity|]. split; [reflexivity|].
  exact (scalar_position_is_displayed "z" "0" (-12) demo_panel
           {["position_widget" := "0"]} eq_refl eq_refl).
Defined.

Lemma axis_field_inj (k1 k2 : string) : axis_field k1 = axis_field k2 → k1 = k2.
Proof.
  unfold axis_field. intros Heq.
  apply String.app_inj in Heq. by apply string_app_inv_tail in Heq.
Qed.

Lemma update_axes_run (name : string) (axes : list (string * Z)) :
  ∀ (p : stage_panel) (w : gmap string string),
    stages_getitem name p = inr w →
    (∀ k, k ∈ axes.*1 → is_Some (w !! axis_field k)) →
    NoDup axes.*1 →
    ∃ p' w', update_stage_position (name, PerAxis axes) p = (p', None)
           ∧ stages_getitem name p' = inr w'
           ∧ (∀ k x, (k, x) ∈ axes → w' !! axis_field k = Some (pretty x))
           ∧ (∀ field, (∀ k, k ∈ axes.*1 → field ≠ axis_field k) →
                       w' !! field = w !! field)
           ∧ (∀ other, other ≠ name → stages_getitem other p' = stages_getitem other p).
Proof.
  induction axes as [|[k x] axes IH]; intros p w Hw Hfields Hnd.
  - exists p, w. simpl. repeat split; auto. intros k x Hin. by apply elem_of_nil in Hin.
  - simpl in Hnd. apply NoDup_cons in Hnd. destruct Hnd as [Hk Hnd].
    destruct (Hfields k) as [old Hold]; [simpl; by left|].
    destruct (set_stage_text_run name (axis_field k) (pretty x) old p w Hw Hold)
      as (p1 & Hset & Hget & Hother & _).
    destruct (IH p1 (<[axis_field k := pretty x]> w) Hget) as (p' & w' & Hrun & Hw' & Hax & Hrest & Hoth).
    { intros k' Hk'. apply lookup_insert_is_Some'. right. apply Hfields. simpl. by right. }
    { exact Hnd. }
    exists p', w'. simpl in *. rewrite Hset. split; [exact Hrun|].
    split; [exact Hw'|]. split; [|split].
    + intros k' x' Hin. apply elem_of_cons in Hin. destruct Hin as [Heq|Hin].
      * injection Heq as -> ->. rewrite Hrest; [apply lookup_insert_eq|].
        intros k2 Hk2 Heq. apply axis_field_inj in Heq. subst k2. contradiction.
      * by apply Hax.
    + intros field Hfield. rewrite Hrest.
      * apply lookup_insert_ne. intros Heq. apply (Hfield k); [by left | by symmetry].
      * intros k' Hk'. apply Hfield. by right.
    + intros other Hne. rewrite (Hoth other Hne). by apply Hother.
Qed.

(** X15: a per-axis position event ([position] a dict) for a known stage
    whose widget has a field [position.<axis>_widget] for every axis of the
    event sets each of those fields to the decimal form of that axis's value;
    the fields of other axes, a [position_widget] field, and the widgets of
    the other stages show what they showed. *)
Theorem axis_positions_are_displayed
    (name : string) (axes : list (string * Z)) (p : stage_panel) (w : gmap string string) :
  stages_getitem name p = inr w →
  (∀ k, k ∈ axes.*1 → is_Some (w !! axis_field k)) →
  NoDup axes.*1 →
  ∃ p' w', update_stage_position (name, PerAxis axes) p = (p', None)
         ∧ stages_getitem name p' = inr w'
         ∧ (∀ k x, (k, x) ∈ axes → w' !! axis_field k = Some (pretty x))
         ∧ (∀ field, (∀ k, k ∈ axes.*1 → field ≠ axis_field k) →
                     w' !! field = w !! field)
         ∧ (∀ other, other ≠ name → stages_getitem other p' = stages_getitem other p).
Proof. apply update_axes_run. Qed.

(** X15, for the two-axis tiling stage of the sample panel. *)
Lemma axis_positions_are_displayed_witness :
  stages_getitem "xy" demo_panel
  = inr (<["position.x_widget" := "0"]> (<["position.y_widget" := "0"]> ∅))
  ∧ ∃ p' w', update_stage_position ("xy", PerAxis [("x", 1%Z); ("y", 2%Z)]) demo_panel
             = (p', None)
           ∧ stages_getitem "xy" p' = inr w'
           ∧ (∀ k x, (k, x) ∈ [("x", 1%Z); ("y", 2%Z)] →
                     w' !! axis_field k = Some (pretty x))
           ∧ (∀ field, (∀ k, k ∈ [("x", 1%Z); ("y", 2%Z)].*1 → field ≠ axis_field k) →
                       w' !! field
                       = (<["position.x_widget" := "0"]>
                            (<["position.y_widget" := "0"]> (∅ : gmap string string)))
                           !! field)
           ∧ (∀ other, other ≠ "xy" →
                       stages_getitem other p' = stages_getitem other demo_panel).
Proof.
  split; [reflexivity|].
  apply (axis_positions_are_displayed "xy" [("x", 1%Z); ("y", 2%Z)] demo_panel).
  - reflexivity.
  - intros k Hk. simpl in Hk.
    apply elem_of_cons in Hk. destruct Hk as [->|Hk]; [by exists "0"|].
    apply elem_of_cons in Hk. destruct Hk as [->|Hk]; [by exists "0"|].
    by apply elem_of_nil in Hk.
  - simpl. apply NoDup_cons. split.
    + intros Hin. apply elem_of_cons in Hin. destruct Hin as [Heq|Hin]; [discriminate|].
      by apply elem_of_nil in Hin.
    + apply NoDup_singleton.
Defined.

Lemma poll_cycle_map (v : view) :
  NoDup (scanning_stages (v_instrument v)).*1 →
  NoDup (tiling_stages (v_instrument v)).*1 →
  (list_to_map (positions_emitted (events_of grab_stage_positions_cycle v))
     : gmap string position_value)
  = list_to_map (tiling_stages (v_instrument v))
    ∪ list_to_map (scanning_stages (v_instrument v)).
Proof.
  intros Hs Ht. unfold events_of.
  rewrite grab_stage_positions_cycle_run. cbn [snd].
  change (positions_emitted (Sleep :: ?es)) with (positions_emitted es).
  rewrite (proj1 (poll_cycle_positions _)).
  rewrite (proj2 (dict_merge_map _ _)), !list_to_map_reverse by assumption.
  reflexivity.
Qed.

(** X16: a stage name used in both categories crosses them. The poller
    merges the stages as [{**scanning, **tiling}] and so emits, under that
    name, the position of the tiling stage; [update_stage_position] merges the
    widgets as [{**tiling, **scanning}] and so writes it into the widget of
    the scanning stage, leaving the tiling stage's widget as it was. *)
Theorem shared_stage_name_crosses_categories
    (v : view) (p : stage_panel) (name old : string) (x : Z)
    (ws : gmap string string) :
  NoDup (scanning_stages (v_instrument v)).*1 →
  NoDup (tiling_stages (v_instrument v)).*1 →
  (name, Scalar x) ∈ tiling_stages (v_instrument v) →
  scanning_stage_widgets p !! name = Some ws →
  ws !! "position_widget" = Some old →
  (list_to_map (positions_emitted (events_of grab_stage_positions_cycle v))
     : gmap string position_value) !! name = Some (Scalar x)
  ∧ ∃ p', update_stage_position (name, Scalar x) p = (p', None)
        ∧ scanning_stage_widgets p' !! name = Some (<["position_widget" := pretty x]> ws)
        ∧ tiling_stage_widgets p' = tiling_stage_widgets p.
Proof.
  intros Hs Ht Hin Hws Hold. split.
  - rewrite (poll_cycle_map v Hs Ht). apply lookup_union_Some_l.
    by apply elem_of_list_to_map.
  - pose proof (stages_getitem_scanning name p ws Hws) as Hget.
    destruct (set_stage_text_run name "position_widget" (pretty x) old p ws Hget Hold)
      as (p' & Hset & _ & _ & Htil & _).
    exists p'. simpl. rewrite Hset. split; [reflexivity|].
    split; [|apply Htil; eauto].
    unfold set_stage_text in Hset. rewrite Hget, Hold in Hset.
    rewrite bool_decide_eq_true_2 in Hset by eauto.
    injection Hset as <-. simpl. apply lookup_insert_eq.
Qed.

(** X16, for the stage name ["x"] shared by a scanning stage at 5 and a
    tiling stage at 70. *)
Lemma shared_stage_name_crosses_categories_witness :
  (list_to_map (positions_emitted (events_of grab_stage_positions_cycle shared_name_view))
     : gmap string position_value) !! "x" = Some (Scalar 70)
  ∧ ∃ p', update_stage_position ("x", Scalar 70) shared_name_panel = (p', None)
        ∧ scanning_stage_widgets p' !! "x"
          = Some (<["position_widget" := pretty 70%Z]> {["position_widget" := "0"]})
        ∧ tiling_stage_widgets p' = tiling_stage_widgets shared_name_panel.
Proof.
  apply (shared_stage_name_crosses_categories shared_name_view shared_name_panel
           "x" "0" 70 {["position_widget" := "0"]}).
  - simpl. apply NoDup_singleton.
  - simpl. apply NoDup_singleton.
  - simpl. by left.
  - reflexivity.
  - reflexivity.
Defined.

(** ** The capability scan and the property bridge, further *)

Lemma scan_loop_values (d : device) (names : list string) :
  ∀ (acc r : gmap string value),
    scan_loop d names acc = inr r →
    ∀ k x, r !! k = Some x →
           acc !! k = Some x ∨ (k ∈ names ∧ py_getattr_default d k VNone = inr x).
Proof.
  induction names as [|n names IH]; intros acc r Hr k x Hk; simpl in Hr.
  - inversion Hr; subst. by left.
  - destruct (is_property (dev_class d !! n)) eqn:Hp.
    + destruct (py_getattr_default d n VNone) as [e|y] eqn:Hy; [discriminate|].
      destruct (IH _ _ Hr k x Hk) as [Hacc|[Hin Hval]].
      * destruct (decide (n = k)) as [->|Hne].
        -- rewrite lookup_insert_eq in Hacc. injection Hacc as <-.
           right. split; [by left | exact Hy].
        -- rewrite lookup_insert_ne in Hacc by exact Hne. by left.
      * right. split; [by right | exact Hval].
    + destruct (IH _ _ Hr k x Hk) as [Hacc|[Hin Hval]]; [by left|].
      right. split; [by right | exact Hval].
Qed.

(** X17: when the scan returns a record, its keys are exactly the names
    that are properties of the device's class, with or without a setter;
    instance attributes and methods are not in it. A key's value is what
    [getattr(device, key, None)] gives: what the getter returns, or [None] for
    a property that cannot be read. *)
Theorem scan_record_is_the_class_properties (d : device) (r : gmap string value) :
  scan_for_properties d = inr r →
  (∀ k, is_Some (r !! k) ↔ ∃ p, dev_class d !! k = Some (Property p))
  ∧ (∀ k x, r !! k = Some x → py_getattr_default d k VNone = inr x)
  ∧ (∀ k p, dev_class d !! k = Some (Property p) → fget p = None → r !! k = Some VNone).
Proof.
  intros Hr.
  assert (Hkeys : ∀ k, is_Some (r !! k) ↔ ∃ p, dev_class d !! k = Some (Property p)).
  { intros k. rewrite (scan_for_properties_keys d r Hr k). unfold is_property.
    destruct (dev_class d !! k) as [[p|]|]; split; try discriminate; eauto.
    - intros [p Hp]. discriminate.
    - intros [p Hp]. discriminate. }
  assert (Hvals : ∀ k x, r !! k = Some x → py_getattr_default d k VNone = inr x).
  { intros k x Hk. unfold scan_for_properties in Hr.
    destruct (scan_loop_values d _ _ _ Hr k x Hk) as [Hempty|[_ Hval]]; [|exact Hval].
    by rewrite lookup_empty in Hempty. }
  split; [exact Hkeys|]. split; [exact Hvals|].
  intros k p Hp Hget.
  destruct (proj2 (Hkeys k) (ex_intro _ p Hp)) as [x Hx].
  pose proof (Hvals k x Hx) as Hval.
  unfold py_getattr_default, py_getattr in Hval. rewrite Hp, Hget in Hval.
  injection Hval as <-. exact Hx.
Qed.

(** X17, on the sample device. *)
Lemma scan_record_is_the_class_properties_witness :
  (∀ k, is_Some ((<["exposure" := VInt 10]> (<["frame_rate" := VInt 990]>
                   (<["serial" := VStr "A1"]> (∅ : gmap string value)))) !! k)
        ↔ ∃ p, dev_class demo_device !! k = Some (Property p))
  ∧ (∀ k x, (<["exposure" := VInt 10]> (<["frame_rate" := VInt 990]>
              (<["serial" := VStr "A1"]> (∅ : gmap string value)))) !! k = Some x →
            py_getattr_default demo_device k VNone = inr x)
  ∧ (∀ k p, dev_class demo_device !! k = Some (Property p) → fget p = None →
            (<["exposure" := VInt 10]> (<["frame_rate" := VInt 990]>
               (<["serial" := VStr "A1"]> (∅ : gmap string value)))) !! k = Some VNone).
Proof.
  apply (scan_record_is_the_class_properties demo_device). vm_compute. reflexivity.
Defined.

(** X18: the scan fails exactly when reading a property raises something
    other than [AttributeError]: it returns a record when every property of
    the class can be read or raises [AttributeError], and it raises the
    getter's error when some property's getter raises another one. *)
Theorem scan_fails_only_on_getter_errors (d : device) :
  (∃ r, scan_for_properties d = inr r)
  ↔ ∀ k p, dev_class d !! k = Some (Property p) →
           ∃ x, py_getattr_default d k VNone = inr x.
Proof.
  unfold scan_for_properties. split.
  - intros [r Hr] k p Hp.
    assert (Hin : k ∈ dir d).
    { apply elem_of_dir. left. apply elem_of_dom. eauto. }
    revert Hr Hin. generalize (∅ : gmap string value). generalize (dir d).
    induction l as [|n names IH]; intros acc Hr Hin; [by apply elem_of_nil in Hin|].
    simpl in Hr. apply elem_of_cons in Hin.
    destruct (is_property (dev_class d !! n)) eqn:Hprop.
    + destruct (py_getattr_default d n VNone) as [e|y] eqn:Hy; [discriminate|].
      destruct Hin as [->|Hin]; [eauto|]. by apply (IH _ Hr).
    + destruct Hin as [->|Hin]; [|by apply (IH _ Hr)].
      rewrite Hp in Hprop. discriminate.
  - intros Hread. generalize (∅ : gmap string value). generalize (dir d).
    induction l as [|n names IH]; intros acc; simpl; [eauto|].
    destruct (is_property (dev_class d !! n)) eqn:Hprop; [|apply IH].
    unfold is_property in Hprop.
    destruct (dev_class d !! n) as [[p|]|] eqn:Hn; try discriminate.
    destruct (Hread n p Hn) as [x ->]. apply IH.
Qed.

(** X19: a read-only property cannot be edited through the bridge, although
    the scan puts it into the editable record: for a property of the class
    without a setter, the record returned by [scan_for_properties] has the
    attribute, and [device_property_changed] for it raises [AttributeError]
    at the write, before any value is read back. *)
Theorem read_only_property_edit_fails
    (name : string) (d : device) (w : widget) (t : device_type)
    (p : property) (r : gmap string value) (x : value) :
  dev_class d !! split_dot_head name = Some (Property p) →
  fset p = None →
  scan_for_properties d = inr r →
  widget_getattr w (split_dot_head name) = inr x →
  is_Some (r !! split_dot_head name)
  ∧ (device_property_changed name d w t).2 = inl (AttributeError (split_dot_head name)).
Proof.
  intros Hp Hset Hr Hx. split.
  - apply (scan_for_properties_keys d r Hr). unfold is_property. by rewrite Hp.
  - unfold device_property_changed, device_property_changed_body, py_setattr. cbn [snd].
    by rewrite Hx, Hp, Hset.
Qed.

(** X19, for the read-only [serial] of the sample device. *)
Lemma read_only_property_edit_fails_witness :
  is_Some ((<["exposure" := VInt 10]> (<["frame_rate" := VInt 990]>
             (<["serial" := VStr "A1"]> (∅ : gmap string value))))
             !! split_dot_head "serial")
  ∧ (device_property_changed "serial" demo_device demo_widget camera).2
    = inl (AttributeError (split_dot_head "serial")).
Proof.
  apply (read_only_property_edit_fails "serial" demo_device demo_widget camera
           {| fget := Some (read_field "_serial"); fset := None |} _ (VStr "A1")).
  - reflexivity.
  - reflexivity.
  - vm_compute. reflexivity.
  - reflexivity.
Defined.

Lemma refresh_widget_frame (d : device) (keys : list string) :
  ∀ w w1, refresh_widget d keys w = inr w1 →
          property_widgets w1 = property_widgets w
          ∧ ∀ k, k ∉ keys → widget_attrs w1 !! k = widget_attrs w !! k.
Proof.
  induction keys as [|k0 keys IH]; intros w w1 Hrun; simpl in Hrun.
  - injection Hrun as <-. by split.
  - destruct (py_getattr d k0) as [e|y]; [discriminate|].
    destruct (IH _ _ Hrun) as [Hpw Hout]. split; [exact Hpw|].
    intros k Hk. apply not_elem_of_cons in Hk. destruct Hk as [Hne Hk].
    rewrite (Hout k Hk). simpl. by apply lookup_insert_ne.
Qed.

(** X20: a successful edit touches only what it should: the device is left
    in the state the write produced (reading back changes nothing), the list
    of tracked attributes is the same, and every attribute of the widget that
    is not tracked keeps its value. *)
Theorem bridge_leaves_untracked_attributes
    (name : string) (d d' : device) (w w' : widget) (t : device_type) :
  (device_property_changed name d w t).2 = inr (d', w') →
  (∃ x, widget_getattr w (split_dot_head name) = inr x
        ∧ py_setattr d (split_dot_head name) x = inr d')
  ∧ property_widgets w' = property_widgets w
  ∧ ∀ k, k ∉ property_widgets w → widget_attrs w' !! k = widget_attrs w !! k.
Proof.
  unfold device_property_changed, device_property_changed_body. cbn [snd].
  destruct (widget_getattr w (split_dot_head name)) as [e|x] eqn:Hx; [discriminate|].
  destruct (py_setattr d (split_dot_head name) x) as [e|d1] eqn:Hset; [discriminate|].
  destruct (py_getattr d1 (split_dot_head name)) as [e|y0]; [discriminate|].
  destruct (refresh_widget d1 (property_widgets w) w) as [e|w1] eqn:Hrun; [discriminate|].
  intros [= <- <-]. split; [eauto|].
  exact (refresh_widget_frame d1 _ w w1 Hrun).
Qed.

(** X20, for the clamped exposure edit on the sample device. *)
Lemma bridge_leaves_untracked_attributes_witness :
  (∃ x, widget_getattr demo_widget (split_dot_head "exposure") = inr x
        ∧ py_setattr demo_device (split_dot_head "exposure") x = inr demo_device_after)
  ∧ property_widgets
      (widget_setattr (widget_setattr (widget_setattr demo_widget "exposure" (VInt 100))
                         "frame_rate" (VInt 900)) "serial" (VStr "A1"))
    = property_widgets demo_widget
  ∧ ∀ k, k ∉ property_widgets demo_widget →
         widget_attrs
           (widget_setattr (widget_setattr (widget_setattr demo_widget "exposure" (VInt 100))
                              "frame_rate" (VInt 900)) "serial" (VStr "A1")) !! k
         = widget_attrs demo_widget !! k.
Proof.
  apply (bridge_leaves_untracked_attributes "exposure" demo_device demo_device_after
           demo_widget _ camera).
  reflexivity.
Defined.

Lemma split_dot_head_first (first rest : string) :
  has_char "." first = false → split_dot_head (first +:+ String "." rest) = first.
Proof.
  induction first as [|a first IH]; simpl; [reflexivity|].
  intros Hs. apply orb_false_iff in Hs. destruct Hs as [Ha Hs].
  rewrite Ha, (IH Hs). reflexivity.
Qed.

Lemma split_dot_head_whole (name : string) :
  has_char "." name = false → split_dot_head name = name.
Proof.
  induction name as [|a name IH]; simpl; [reflexivity|].
  intros Hs. apply orb_false_iff in Hs. destruct Hs as [Ha Hs].
  rewrite Ha, (IH Hs). reflexivity.
Qed.

(** X21: an edit notification for a sub-field, [attr.sub], is handled as
    an edit of the whole attribute [attr]: the bridge does for it exactly what
    it does for the notification [attr]. *)
Theorem sub_field_edit_writes_whole_attribute
    (attr sub : string) (d : device) (w : widget) (t : device_type) :
  has_char "." attr = false →
  device_property_changed (attr +:+ "." +:+ sub) d w t
  = device_property_changed attr d w t.
Proof.
  intros Hattr. unfold device_property_changed, device_property_changed_body.
  change (attr +:+ "." +:+ sub) with (attr +:+ String "." sub).
  by rewrite (split_dot_head_first attr sub Hattr), (split_dot_head_whole attr Hattr).
Qed.

(** X21, for a notification ["exposure.max"] on the sample device. *)
Lemma sub_field_edit_writes_whole_attribute_witness :
  has_char "." "exposure" = false
  ∧ device_property_changed ("exposure" +:+ "." +:+ "max") demo_device demo_widget camera
    = device_property_changed "exposure" demo_device demo_widget camera.
Proof.
  split; [reflexivity|].
  exact (sub_field_edit_writes_whole_attribute "exposure" "max" demo_device demo_widget
           camera eq_refl).
Defined.

(** ** What the display shows while a session streams *)

Lemma worker_step_yield_layers (id : nat) (w : worker) (v : view) (j : Z) :
  workers v !! id = Some w →
  w_started w = true → w_abort_requested w = false → w_finished w = false →
  w_on_yielded w = [CbUpdateLayer] →
  next_index (w_gen w) = Some j →
  lt_count j (w_frames w) = true →
  layers (worker_step id v).1
  = <[layer_name (w_camera w) (livestream_wavelength v) :=
        {| data := grab_frame (v_instrument v) (w_camera w)
                     (default 0 (camera_grabs v !! w_camera w));
           mouse_drag_callbacks :=
             match layers v !! layer_name (w_camera w) (livestream_wavelength v) with
             | Some l => mouse_drag_callbacks l
             | None => [CbSaveImage]
             end |}]> (layers v)
  ∧ livestream_wavelength (worker_step id v).1 = livestream_wavelength v.
Proof.
  intros Hw Hs Ha Hf Hy Hj Hlt.
  unfold worker_step. rewrite Hw, Hs, Ha, Hf. simpl.
  assert (Hnext : grab_frames_next id w = grab_frames_loop id (w_camera w) (w_frames w) j).
  { unfold grab_frames_next. destruct (w_gen w); simpl in Hj; by inversion Hj. }
  rewrite Hnext. unfold grab_frames_loop. rewrite Hlt.
  unfold with_lock, update_worker, bind, emit, read, update, ret. simpl.
  rewrite Hy. simpl. unfold bind, ret. rewrite update_layer_run. simpl.
  by split.
Qed.

Lemma worker_streams_layers (id : nat) (c : string) (n : nat) :
  ∀ (v : view) (w : worker) (j : Z),
    workers v !! id = Some w →
    w_camera w = c → w_frames w = Infinity →
    w_started w = true → w_abort_requested w = false → w_finished w = false →
    w_on_yielded w = [CbUpdateLayer] →
    next_index (w_gen w) = Some j →
    layers (run (replicate (S n) (WorkerStep id)) v).1
    = <[layer_name c (livestream_wavelength v) :=
          {| data := grab_frame (v_instrument v) c (default 0 (camera_grabs v !! c) + n);
             mouse_drag_callbacks :=
               match layers v !! layer_name c (livestream_wavelength v) with
               | Some l => mouse_drag_callbacks l
               | None => [CbSaveImage]
               end |}]> (layers v).
Proof.
  induction n as [|n IH]; intros v w j Hw Hc Hfr Hs Ha Hf Hy Hj;
    assert (Hlt : lt_count j (w_frames w) = true) by (by rewrite Hfr);
    destruct (worker_step_yield id w v j Hw Hs Ha Hf Hy Hj Hlt)
      as (v1 & Hstep & Hws & Hgr & Hins);
    destruct (worker_step_yield_layers id w v j Hw Hs Ha Hf Hy Hj Hlt) as [Hlay Hwl];
    rewrite Hstep in Hlay, Hwl; cbn [fst] in Hlay, Hwl; rewrite Hc in *.
  - simpl replicate. rewrite run_cons. simpl step. rewrite Hstep. cbn [fst run].
    by rewrite Hlay, Nat.add_0_r.
  - change (replicate (S (S n)) (WorkerStep id))
      with (WorkerStep id :: replicate (S n) (WorkerStep id)).
    rewrite run_cons. simpl step. rewrite Hstep. cbn [fst].
    assert (Hw1 : workers v1 !! id = Some (set_gen (GenSuspended j) w)).
    { rewrite Hws, list_lookup_alter_eq, Hw. reflexivity. }
    rewrite (IH v1 (set_gen (GenSuspended j) w) (j + 1)%Z Hw1 Hc Hfr Hs Ha Hf Hy eq_refl).
    rewrite Hwl, Hlay, Hins, Hgr, !lookup_insert_eq, insert_insert_eq. simpl.
    by rewrite Nat.add_succ_r.
Qed.

(** X22: while a session streams, the display follows it: after [n + 1]
    iterations of a worker started by [setup_live], the layer of its camera
    holds the latest frame grabbed; that layer was created by the first frame
    if it did not exist (with [save_image] as its callback) and updated in
    place since; no other layer has changed. *)
Theorem display_shows_latest_frame (c : string) (n : nat) (v : view) :
  let id := length (workers v) in
  let r := run (replicate (S n) (WorkerStep id)) (state_of (setup_live c Infinity) v) in
  layers r.1
  = <[layer_name c (livestream_wavelength v) :=
        {| data := grab_frame (v_instrument v) c (default 0 (camera_grabs v !! c) + n);
           mouse_drag_callbacks :=
             match layers v !! layer_name c (livestream_wavelength v) with
             | Some l => mouse_drag_callbacks l
             | None => [CbSaveImage]
             end |}]> (layers v).
Proof.
  intros id r. subst r. rewrite setup_live_state.
  set (v1 := set_grab_frames_worker _ _).
  assert (Hw : workers v1 !! id = Some (started_worker c Infinity)).
  { subst v1 id. simpl. apply list_lookup_middle. reflexivity. }
  by rewrite (worker_streams_layers id c n v1 (started_worker c Infinity) 0%Z Hw).
Qed.

(** ** A live session driven from the live button *)

Lemma run_app (ls1 ls2 : list label) :
  ∀ v, run (ls1 ++ ls2) v
       = ((run ls2 (run ls1 v).1).1, (run ls1 v).2 ++ (run ls2 (run ls1 v).1).2).
Proof.
  induction ls1 as [|l ls1 IH]; intros v.
  - simpl. by destruct (run ls2 v).
  - rewrite <- app_comm_cons, !run_cons, IH. cbn [fst snd]. by rewrite app_assoc.
Qed.

Lemma calm_counts (c : string) (ctx : context) (es : list event) :
  Forall (λ e, calm e = true) es →
  frames_emitted (tag ctx es) = [] ∧ camera_aborts c (tag ctx es) = 0
  ∧ daq_stops (tag ctx es) = 0.
Proof.
  induction 1 as [|e es He _ (IHf & IHa & IHs)]; [by repeat split|].
  change (tag ctx (e :: es)) with ([(ctx, e)] ++ tag ctx es).
  rewrite frames_emitted_app, camera_aborts_app, daq_stops_app, IHf, IHa, IHs.
  repeat split; destruct e; try discriminate He; reflexivity.
Qed.

Lemma calm_setup_live (id : nat) (c : string) (frames : count) (v : view) :
  Forall (λ e, calm e = true) (setup_live_events id c frames v).
Proof.
  unfold setup_live_events. apply Forall_app. split; [repeat constructor|].
  apply Forall_app. split; [|repeat constructor].
  induction (daqs (v_instrument v)) as [|d ds IH]; simpl; repeat constructor. exact IH.
Qed.

Lemma toggle_live_button_rest (c : string) (v : view) :
  v_instrument (state_of (toggle_live_button c) v) = v_instrument v
  ∧ camera_grabs (state_of (toggle_live_button c) v) = camera_grabs v.
Proof.
  unfold state_of, toggle_live_button, update_button, bind, read, update, ret. simpl.
  destruct (buttons v !! (LiveButton, c)) as [st|]; [|by split].
  destruct (String.eqb (b_text st) "Live"); simpl; [|by split].
  destruct (grab_frames_worker v); by split.
Qed.

Lemma run_slot_calm (s : slot) (v : view) :
  Forall (λ e, calm e = true) (events_of (run_slot s) v)
  ∧ v_instrument (state_of (run_slot s) v) = v_instrument v
  ∧ camera_grabs (state_of (run_slot s) v) = camera_grabs v.
Proof.
  destruct s as [b0|c frames|c|id]; simpl run_slot.
  - by repeat split.
  - unfold events_of, state_of. rewrite setup_live_run. simpl.
    split; [apply calm_setup_live | by split].
  - rewrite toggle_live_button_events. split; [constructor | apply toggle_live_button_rest].
  - by repeat split.
Qed.

Lemma run_slots_calm (ss : list slot) :
  ∀ v, Forall (λ e, calm e = true) (events_of (for_each ss run_slot) v)
     ∧ v_instrument (state_of (for_each ss run_slot) v) = v_instrument v
     ∧ camera_grabs (state_of (for_each ss run_slot) v) = camera_grabs v.
Proof.
  induction ss as [|s ss IH]; intros v; [by repeat split|].
  cbn [for_each]. rewrite events_of_bind, state_of_bind.
  destruct (run_slot_calm s v) as (Hc & Hi & Hg).
  destruct (IH (state_of (run_slot s) v)) as (Hc' & Hi' & Hg').
  split; [by apply Forall_app|]. split; congruence.
Qed.

(** A click emits no frame and tears nothing down; it leaves the instrument
    and the cameras' frame counters alone. *)
Lemma press_calm (b : button) (v : view) :
  (∃ es, (press b v).2 = tag Main es ∧ Forall (λ e, calm e = true) es)
  ∧ v_instrument (press b v).1 = v_instrument v
  ∧ camera_grabs (press b v).1 = camera_grabs v.
Proof.
  unfold press. destruct (buttons v !! b) as [st|]; [|split; [by exists []|by split]].
  destruct (b_enabled st); [|split; [by exists []|by split]].
  destruct (run_slots_calm (b_pressed st) v) as (Hc & Hi & Hg).
  unfold events_of, state_of in *.
  destruct (for_each (b_pressed st) run_slot v) as [[[] v'] es]. simpl in *.
  split; [by exists es | by split].
Qed.

Lemma worker_steps_keep_buttons (id : nat) (k : nat) :
  ∀ v, buttons (run (replicate k (WorkerStep id)) v).1 = buttons v.
Proof.
  induction k as [|k IH]; intros v; [reflexivity|].
  change (replicate (S k) (WorkerStep id)) with (WorkerStep id :: replicate k (WorkerStep id)).
  rewrite run_state_cons, IH. simpl step. apply worker_step_frame.
Qed.

Lemma init_live_button (cs : list string) (c : string) :
  ∀ acc : gmap button button_state,
    c ∈ cs ∨ acc !! (LiveButton, c) = Some (live_button_init c) →
    fold_left (λ bs c, <[(LiveButton, c) := live_button_init c]>
                         (<[(SnapshotButton, c) := snapshot_button_init c]> bs)) cs acc
      !! (LiveButton, c) = Some (live_button_init c).
Proof.
  induction cs as [|c0 cs IH]; intros acc Hc; simpl.
  - destruct Hc as [Hin|Hacc]; [by apply elem_of_nil in Hin | exact Hacc].
  - apply IH. destruct (decide (c0 = c)) as [->|Hne].
    + right. apply lookup_insert_eq.
    + destruct Hc as [Hin|Hacc].
      * left. apply elem_of_cons in Hin. destruct Hin as [->|Hin]; [congruence | exact Hin].
      * right. rewrite !lookup_insert_ne by congruence. exact Hacc.
Qed.

Lemma timeout_pending (b : button) (v : view) (st : button_state) (n : nat) :
  buttons v !! b = Some st → b_timers st = S n →
  timeout b v
  = (set_buttons (alter (λ st, set_timers n (set_enabled true st)) b (buttons v)) v, []).
Proof. intros Hb Hn. unfold timeout. by rewrite Hb, Hn. Qed.

(** X23: a live session driven from the live button of a camera [c] of
    the instrument, right after [__init__]: a click starts the stream, the
    worker runs [k] iterations, the cooldown expires, a second click (on
    "Stop") asks the worker to quit, and the worker's next iteration ends the
    session. In all, exactly [k] frames were emitted, in grab order; the
    camera was aborted once and every daq stopped once; the worker has
    finished and the button shows "Live" again. *)
Theorem live_then_stop_session (ins : instrument) (c : string) (k : nat) :
  c ∈ cameras ins →
  let b := (LiveButton, c) in
  let r := run (Press b :: replicate k (WorkerStep 0) ++ [Timeout b; Press b; WorkerStep 0])
               (init_view ins) in
  frames_emitted r.2 = map (λ i, (grab_frame ins c i, c)) (seq 0 k)
  ∧ camera_aborts c r.2 = 1
  ∧ daq_stops r.2 = length (daqs ins)
  ∧ (w_finished <$> workers r.1 !! 0) = Some true
  ∧ (b_text <$> buttons r.1 !! b) = Some "Live".
Proof.
  intros Hc b r. subst b.
  set (v0 := init_view ins).
  assert (Hb0 : buttons v0 !! (LiveButton, c) = Some (live_button_init c)).
  { subst v0. simpl. unfold setup_camera_widgets. apply init_live_button. by left. }
  (* the first click *)
  destruct (press_live_start c v0 (live_button_init c) Hb0 eq_refl eq_refl (or_introl eq_refl))
    as (Hws1 & Hbs1 & _).
  destruct (press_calm (LiveButton, c) v0) as ((es1 & He1 & Hcalm1) & Hins1 & Hgr1).
  set (v1 := (press (LiveButton, c) v0).1) in *.
  assert (Hw1 : workers v1 !! 0 = Some (started_worker c Infinity)) by (by rewrite Hws1).
  (* k iterations *)
  destruct (worker_streams 0 c k v1 (started_worker c Infinity) 0%Z Hw1)
    as (v2 & g & Hrun2 & Hw2 & Hins2); try reflexivity.
  pose proof (worker_steps_keep_buttons 0 k v1) as Hbs2. rewrite Hrun2 in Hbs2. cbn [fst] in Hbs2.
  (* the cooldown expires *)
  assert (Hb2 : buttons v2 !! (LiveButton, c)
                = Some (toggled_to_stop 0 c (disabled_by_press (live_button_init c)))).
  { rewrite Hbs2, Hbs1, lookup_alter_eq, Hb0. reflexivity. }
  pose proof (timeout_pending (LiveButton, c) v2 _ 0 Hb2 eq_refl) as Hv3.
  set (v3 := set_buttons _ v2) in Hv3.
  assert (Hb3 : buttons v3 !! (LiveButton, c)
                = Some (set_timers 0 (set_enabled true
                          (toggled_to_stop 0 c (disabled_by_press (live_button_init c)))))).
  { subst v3. simpl. rewrite lookup_alter_eq, Hb2. reflexivity. }
  assert (Hw3 : workers v3 = workers v2) by reflexivity.
  assert (Hins3 : v_instrument v3 = v_instrument v2) by reflexivity.
  (* the second click *)
  destruct (press_live_stop c v3 _ 0 Hb3 eq_refl eq_refl eq_refl) as (Hws4 & Hbs4 & _).
  destruct (press_calm (LiveButton, c) v3) as ((es4 & He4 & Hcalm4) & Hins4 & _).
  set (v4 := (press (LiveButton, c) v3).1) in *.
  assert (Hw4 : workers v4 !! 0
                = Some (set_abort_requested (set_gen g (started_worker c Infinity)))).
  { rewrite Hws4, list_lookup_alter_eq, Hw3, Hw2. reflexivity. }
  (* the worker sees the request *)
  destruct (worker_step_abort 0 _ v4 Hw4) as (v5 & Hstep5 & Hws5 & _); try reflexivity.
  simpl w_camera in Hstep5.
  assert (Hins : v_instrument v4 = ins).
  { rewrite Hins4, Hins3, Hins2, Hins1. reflexivity. }
  rewrite Hins in Hstep5.
  assert (Hbs5 : buttons v5 = buttons v4).
  { pose proof (proj1 (worker_step_frame 0 v4)) as H. by rewrite Hstep5 in H. }
  (* the whole run *)
  assert (Hr : r = (v5, tag Main es1
                        ++ flat_map (λ i, iteration_events 0 c (grab_frame ins c i)) (seq 0 k)
                        ++ tag Main es4
                        ++ [(WorkerThread 0, Finished 0)]
                        ++ tag Main (teardown_events c (daqs ins)))).
  { subst r. rewrite run_cons. simpl step. fold v0. fold v1. rewrite He1.
    rewrite run_app, Hrun2. cbn [fst snd].
    rewrite Hins1, Hgr1. simpl v_instrument. simpl camera_grabs. rewrite lookup_empty.
    simpl default. rewrite !run_cons. simpl step. rewrite Hv3. cbn [fst snd].
    fold v4. rewrite He4, Hstep5. cbn [fst snd run]. by rewrite !app_nil_r. }
  rewrite Hr. cbn [fst snd].
  destruct (calm_counts c Main es1 Hcalm1) as (Hf1 & Ha1 & Hs1).
  destruct (calm_counts c Main es4 Hcalm4) as (Hf4 & Ha4 & Hs4).
  split; [|split; [|split; [|split]]].
  - rewrite !frames_emitted_app, Hf1, Hf4, frames_emitted_teardown.
    rewrite (frames_emitted_iterations 0 c (λ i, grab_frame ins c i)).
    simpl. by rewrite app_nil_r.
  - rewrite !camera_aborts_app, Ha1, Ha4, camera_aborts_teardown.
    by rewrite (camera_aborts_iterations 0 c c (λ i, grab_frame ins c i)).
  - rewrite !daq_stops_app, Hs1, Hs4, daq_stops_teardown.
    by rewrite (daq_stops_iterations 0 c (λ i, grab_frame ins c i)).
  - rewrite Hws5, list_lookup_alter_eq, Hw4. reflexivity.
  - rewrite Hbs5, Hbs4, lookup_alter_eq, Hb3. reflexivity.
Qed.

(** X23, for three frames on the sample instrument. *)
Lemma live_then_stop_session_witness :
  "cam0" ∈ cameras demo_instrument
  ∧ frames_emitted
      (run (Press (LiveButton, "cam0") :: replicate 3 (WorkerStep 0)
              ++ [Timeout (LiveButton, "cam0"); Press (LiveButton, "cam0"); WorkerStep 0])
           (init_view demo_instrument)).2
    = map (λ i, (grab_frame demo_instrument "cam0" i, "cam0")) (seq 0 3)
  ∧ camera_aborts "cam0"
      (run (Press (LiveButton, "cam0") :: replicate 3 (WorkerStep 0)
              ++ [Timeout (LiveButton, "cam0"); Press (LiveButton, "cam0"); WorkerStep 0])
           (init_view demo_instrument)).2 = 1.
Proof.
  assert (Hc : "cam0" ∈ cameras demo_instrument) by (simpl; by left).
  split; [exact Hc|].
  pose proof (live_then_stop_session demo_instrument "cam0" 3 Hc) as H.
  cbv zeta in H. destruct H as (Hf & Ha & _). split; [exact Hf | exact Ha].
Defined.
